(** * Learn resource downloader: model of LearnFileDownloader.py

    The development embeds the parts of [LearnFileDownloader.py] that decide
    the behaviour of its download pipeline: the regular expressions it
    compiles, the [os.path] calls it makes, the four per-type handlers and
    [learnUserObj.downloadFile] with its path sanitising and renaming.

    Text is a [string] of 8-bit characters read as the code points
    U+0000..U+00FF; the regular-expression classes below are Python's
    classes restricted to that range.  [os.path] is [posixpath].  Standard
    output, standard error, the network and the file system are an explicit
    world threaded through a state-and-exception monad. *)

From Stdlib Require Import Ascii.
From stdpp Require Import base decidable option list strings pretty gmap fin_maps.

Local Open Scope nat_scope.

(** ** Python strings *)
Module PyStr.

(** The double quote and the newline, which string literals here do not
    write inline. *)
Definition quote : ascii := "034".
Definition newline : ascii := "010".
Definition dq : string := String quote "".
Definition nl : string := String newline "".

Definition len (s : string) : nat := String.length s.
Global Arguments len : simpl never.

(** [s[:n]] *)
Fixpoint take (n : nat) (s : string) : string :=
  match n, s with
  | S n', String a s' => String a (take n' s')
  | _, _ => ""
  end.

(** [s[n:]] *)
Fixpoint drop (n : nat) (s : string) : string :=
  match n, s with
  | S n', String _ s' => drop n' s'
  | _, _ => s
  end.

(** [s[i:j]]  for  [0 <= i], [0 <= j] *)
Definition slice (i j : nat) (s : string) : string := take (j - i) (drop i s).

(** [s.startswith(p)] *)
Fixpoint startswith (p s : string) : bool :=
  match p, s with
  | "", _ => true
  | String a p', String b s' => if Ascii.eqb a b then startswith p' s' else false
  | String _ _, "" => false
  end.

(** [c in s] for a one-character [c] *)
Fixpoint contains (c : ascii) (s : string) : bool :=
  match s with
  | "" => false
  | String a s' => if Ascii.eqb c a then true else contains c s'
  end.

Fixpoint forallb (p : ascii → bool) (s : string) : bool :=
  match s with
  | "" => true
  | String a s' => p a && forallb p s'
  end.

Fixpoint filter (p : ascii → bool) (s : string) : string :=
  match s with
  | "" => ""
  | String a s' => if p a then String a (filter p s') else filter p s'
  end.

(** [sep.join(l)] *)
Fixpoint join (sep : string) (l : list string) : string :=
  match l with
  | [] => ""
  | [x] => x
  | x :: l' => x +:+ sep +:+ join sep l'
  end.

(** [s.split(c)] for a one-character separator: never the empty list. *)
Fixpoint split (c : ascii) (s : string) : list string :=
  match s with
  | "" => [""]
  | String a s' =>
      if Ascii.eqb a c then "" :: split c s'
      else match split c s' with
           | [] => [String a ""]
           | w :: ws => String a w :: ws
           end
  end.

(** [str(n)] for a natural number *)
Definition str (n : nat) : string := pretty n.

End PyStr.

(** ** The fragment of Python's [re] the program uses

    A backtracking matcher in continuation-passing style: alternatives are
    tried in priority order (left branch first, greedy repetition tries one
    more iteration first, lazy repetition tries to stop first), which is the
    order of Python's engine.  An iteration of a repetition that consumes
    nothing is cut, so repetition is bounded by the text that is left. *)
Module Re.
Import PyStr.

Inductive regex : Type :=
| Eps
| Chr (p : ascii → bool)
| Seq (r1 r2 : regex)
| Alt (r1 r2 : regex)
| Star (greedy : bool) (r : regex)
| Group (n : nat) (r : regex)
| Eos.

(** Captured groups, most recent binding first. *)
Definition caps : Type := list (nat * string).

Fixpoint group (c : caps) (n : nat) : option string :=
  match c with
  | [] => None
  | (m, v) :: c' => if Nat.eqb m n then Some v else group c' n
  end.

(** What was read between the suffix [s] and its later suffix [s']. *)
Definition consumed (s s' : string) : string := take (len s - len s') s.

Section Run.
Context {R : Type}.

Fixpoint run (r : regex) (s : string) (c : caps)
    (k : string → caps → option R) {struct r} : option R :=
  match r with
  | Eps => k s c
  | Chr p =>
      match s with
      | String a s' => if p a then k s' c else None
      | "" => None
      end
  | Seq r1 r2 => run r1 s c (λ s' c', run r2 s' c' k)
  | Alt r1 r2 =>
      match run r1 s c k with
      | Some x => Some x
      | None => run r2 s c k
      end
  | Star greedy r1 =>
      (fix loop (fuel : nat) (s : string) (c : caps) {struct fuel} : option R :=
         match fuel with
         | 0 => k s c
         | S fuel' =>
             let more :=
               run r1 s c (λ s' c',
                 if len s' <? len s then loop fuel' s' c' else None) in
             if greedy then
               match more with Some x => Some x | None => k s c end
             else
               match k s c with Some x => Some x | None => more end
         end) (len s) s c
  | Group n r1 => run r1 s c (λ s' c', k s' ((n, consumed s s') :: c'))
  | Eos =>
      (* [$]: at the end, or just before a final newline *)
      if decide (s = "" ∨ s = nl) then k s c else None
  end.
End Run.

(** The success continuation; with [adv] an empty match at [s0] is refused
    (the engine's rule after an empty match at the same place). *)
Definition accept (adv : bool) (s0 : string) (s' : string) (c : caps)
  : option (string * caps) :=
  if adv && (len s' =? len s0) then None else Some (s', c).

(** Leftmost match at or after the suffix [s], which starts at index [i]:
    the start index, the suffix at the start, the suffix at the end and
    the groups. *)
Fixpoint scan (r : regex) (adv : bool) (i : nat) (s : string)
  : option (nat * string * string * caps) :=
  match run r s [] (accept adv s) with
  | Some (s', c) => Some (i, s, s', c)
  | None =>
      match s with
      | "" => None
      | String _ t => scan r false (S i) t
      end
  end.

(** A match object: [m.start()], [m.end()], and [m.group(n)]. *)
Record rmatch : Type := { m_start : nat; m_end : nat; m_groups : caps }.

Definition mgroup (m : rmatch) (n : nat) : option string := group (m_groups m) n.

(** [r.search(text, pos)] *)
Definition search (r : regex) (text : string) (pos : nat) : option rmatch :=
  let p := Nat.min pos (len text) in
  match scan r false p (drop p text) with
  | Some (i, _, s', c) =>
      Some {| m_start := i; m_end := len text - len s'; m_groups := c |}
  | None => None
  end.

(** [r.match(text)] *)
Definition rematch (r : regex) (text : string) : option rmatch :=
  match run r text [] (accept false text) with
  | Some (s', c) =>
      Some {| m_start := 0; m_end := len text - len s'; m_groups := c |}
  | None => None
  end.

(** The successive non-overlapping matches, as (text before the match,
    groups); the last component is the text after the last match. *)
Fixpoint pieces (fuel : nat) (r : regex) (adv : bool) (s : string)
  : list (string * caps) * string :=
  match fuel with
  | 0 => ([], s)
  | S fuel' =>
      match scan r adv 0 s with
      | None => ([], s)
      | Some (_, s1, s2, c) =>
          let '(l, tl) := pieces fuel' r (len s2 =? len s1) s2 in
          ((consumed s s1, c) :: l, tl)
      end
  end.

Definition all_pieces (r : regex) (s : string) : list (string * caps) * string :=
  pieces (2 * len s + 2) r false s.

(** [r.sub(repl, text)] for a replacement without escapes *)
Definition sub (r : regex) (repl : string) (text : string) : string :=
  let '(l, tl) := all_pieces r text in
  foldr (λ pc acc, fst pc +:+ repl +:+ acc) tl l.

(** [r.findall(text)] for a pattern with one group: a group that did not
    take part yields the empty string. *)
Definition findall1 (r : regex) (text : string) : list string :=
  (λ pc, default "" (group (snd pc) 1)) <$> fst (all_pieces r text).

(** *** Pattern syntax *)

Definition eqc (a : ascii) : ascii → bool := Ascii.eqb a.

(** A literal run of characters *)
Fixpoint lit (s : string) : regex :=
  match s with
  | "" => Eps
  | String a "" => Chr (eqc a)
  | String a s' => Seq (Chr (eqc a)) (lit s')
  end.

Definition between (lo hi : nat) (a : ascii) : bool :=
  let n := nat_of_ascii a in (lo <=? n) && (n <=? hi).

(** [.] : anything but a newline *)
Definition any (a : ascii) : bool := negb (Ascii.eqb a newline).
(** [\d] *)
Definition digit (a : ascii) : bool := between 48 57 a.
(** [\w] *)
Definition word (a : ascii) : bool :=
  between 48 57 a || between 65 90 a || eqc "_" a || between 97 122 a
  || between 170 170 a || between 178 179 a || between 181 181 a
  || between 185 186 a || between 188 190 a || between 192 214 a
  || between 216 246 a || between 248 255 a.
(** [\s] *)
Definition space (a : ascii) : bool :=
  between 9 13 a || between 28 32 a || between 133 133 a || between 160 160 a.
(** [[...]] over a list of characters, and its negation [[^...]] *)
Definition oneof (s : string) (a : ascii) : bool := contains a s.
Definition cor (p q : ascii → bool) (a : ascii) : bool := p a || q a.
Definition cnot (p : ascii → bool) (a : ascii) : bool := negb (p a).

Definition star (r : regex) : regex := Star true r.
Definition lazy_star (r : regex) : regex := Star false r.
Definition plus (r : regex) : regex := Seq r (Star true r).
Definition opt (r : regex) : regex := Alt r Eps.

Fixpoint seqs (l : list regex) : regex :=
  match l with
  | [] => Eps
  | [r] => r
  | r :: l' => Seq r (seqs l')
  end.

End Re.

(** ** [os.path] on a POSIX system *)
Module PosixPath.
Import PyStr.

Definition isabs (p : string) : bool := startswith "/" p.

Fixpoint endswith_slash (s : string) : bool :=
  match s with
  | "" => false
  | String a "" => Ascii.eqb a "/"
  | String _ s' => endswith_slash s'
  end.

(** [posixpath.join(a, b)] *)
Definition join2 (a b : string) : string :=
  if startswith "/" b then b
  else if bool_decide (a = "") || endswith_slash a then a +:+ b
  else a +:+ "/" +:+ b.

(** One round of the loop of [normpath] over the components. *)
Definition norm_step (initial_slashes : nat) (new_comps : list string)
    (comp : string) : list string :=
  if bool_decide (comp = "") || bool_decide (comp = ".") then new_comps
  else if bool_decide (comp ≠ "..")
          || (bool_decide (initial_slashes = 0) && bool_decide (new_comps = []))
          || bool_decide (last new_comps = Some "..")
  then new_comps ++ [comp]
  else removelast new_comps.

Definition initial_slashes_of (path : string) : nat :=
  if startswith "/" path then
    if startswith "//" path && negb (startswith "///" path) then 2 else 1
  else 0.

Fixpoint slashes (n : nat) : string :=
  match n with 0 => "" | S n' => String "/" (slashes n') end.

(** [posixpath.normpath(path)] *)
Definition normpath (path : string) : string :=
  if bool_decide (path = "") then "."
  else
    let initial_slashes := initial_slashes_of path in
    let comps := foldl (norm_step initial_slashes) [] (split "/" path) in
    let path' := slashes initial_slashes +:+ join "/" comps in
    if bool_decide (path' = "") then "." else path'.

(** [posixpath.abspath(path)] with [os.getcwd()] being [cwd] *)
Definition abspath (cwd path : string) : string :=
  normpath (if isabs path then path else join2 cwd path).

Fixpoint commonprefix_len (l1 l2 : list string) : nat :=
  match l1, l2 with
  | x :: l1', y :: l2' => if bool_decide (x = y) then S (commonprefix_len l1' l2') else 0
  | _, _ => 0
  end.

(** The non-empty components of a path. *)
Definition parts (p : string) : list string :=
  List.filter (λ x, negb (bool_decide (x = ""))) (split "/" p).

(** [posixpath.relpath(path)] from the current directory; [None] is the
    [ValueError] raised for an empty path.  Joining components that are
    non-empty and free of slashes puts one slash between them. *)
Definition relpath (cwd path : string) : option string :=
  if bool_decide (path = "") then None
  else
    let start_list := parts (abspath cwd ".") in
    let path_list := parts (abspath cwd path) in
    let i := commonprefix_len start_list path_list in
    let rel_list := replicate (length start_list - i) ".." ++ List.skipn i path_list in
    Some (if bool_decide (rel_list = []) then "." else join "/" rel_list).

(** [posixpath.dirname(p)] of a normalised absolute path *)
Definition parent (p : string) : string :=
  match parts p with
  | [] => "/"
  | l => "/" +:+ join "/" (removelast l)
  end.

End PosixPath.

(** ** The world the program runs in *)
Module World.
Import PyStr PosixPath.

(** The exceptions the modelled code can raise. *)
Inductive exn : Type :=
| AttributeError          (* [.group] on a failed match *)
| NameError (name : string)
| TypeError               (* a missing header or [None] given to [re] *)
| ValueError              (* [relpath] of the empty path *)
| URLError (url : string)
| FileExistsError (path : string)
| FileNotFoundError (path : string)
| NotADirectoryError (path : string)
| IsADirectoryError (path : string)
| Diverges.               (* a loop without end *)

Inductive result (A : Type) : Type :=
| Ok (a : A)
| Raise (e : exn).
Global Arguments Ok {A} a.
Global Arguments Raise {A} e.

(** What an observer of the process sees, in order. *)
Inductive event : Type :=
| EvPrint (text : string)              (* [print(...)] *)
| EvWarn (text : string)               (* [print(..., file=stderr)] *)
| EvOpen (url : string)                (* [opener.open(url)] *)
| EvMkdir (path : string)              (* [os.makedirs(path)] *)
| EvWrite (path content : string)      (* [open(path, 'w')], [open(path, 'w+b')] *)
| EvAppend (path line : string).       (* [open(path, 'a')] *)

Definition is_fs_write (e : event) : bool :=
  match e with
  | EvMkdir _ | EvWrite _ _ | EvAppend _ _ => true
  | _ => false
  end.

Inductive node : Type :=
| Dir
| File (content : string).

(** The file system maps normalised absolute paths to nodes; the root is
    always there. *)
Record world : Type := { fs : gmap string node; trace : list event }.

Definition lookup_node (m : gmap string node) (p : string) : option node :=
  if bool_decide (p = "/") then Some Dir else m !! p.

(** The headers and the (decoded) body of an HTTP response. *)
Record response : Type :=
  { content_type : option string;
    content_disposition : option string;
    body : string }.

(** What the program takes from outside its source file. *)
Record env : Type :=
  { DEBUG : bool;                                (* the module-level flag *)
    FILE_EXT_MAP : gmap string (option string);  (* [extension_map.FILE_EXT_MAP] *)
    cwd : string;                                (* [os.getcwd()] *)
    net : string → option response;              (* the portal *)
    unquote : string → string;                   (* [urllib.parse.unquote] *)
    cp850 : string → string }.                   (* [.encode('cp850','replace').decode('cp850')] *)

Definition M (A : Type) : Type := world → result A * world.

Definition ret {A} (a : A) : M A := λ w, (Ok a, w).
Definition raise {A} (e : exn) : M A := λ w, (Raise e, w).
Definition bind {A B} (m : M A) (k : A → M B) : M B :=
  λ w, match m w with
       | (Ok a, w') => k a w'
       | (Raise e, w') => (Raise e, w')
       end.

Definition emit (e : event) : M unit :=
  λ w, (Ok (), {| fs := fs w; trace := trace w ++ [e] |}).
Definition get_fs : M (gmap string node) := λ w, (Ok (fs w), w).
Definition put_fs (m : gmap string node) : M unit :=
  λ w, (Ok (), {| fs := m; trace := trace w |}).

Global Instance M_ret : MRet M := @ret.
Global Instance M_bind : MBind M := λ A B k m, bind m k.

(** [x.attr] on a value that may be [None] *)
Definition some_or {A} (e : exn) (o : option A) : M A :=
  match o with Some a => ret a | None => raise e end.

(** [for x in l: body x] *)
Fixpoint for_each {A} (l : list A) (body : A → M unit) : M unit :=
  match l with
  | [] => ret ()
  | x :: l' => body x;; for_each l' body
  end.

(** [[f x for x in l]] with an effectful [f] *)
Fixpoint map_m {A B} (f : A → M B) (l : list A) : M (list B) :=
  match l with
  | [] => ret []
  | x :: l' => y ← f x; ys ← map_m f l'; ret (y :: ys)
  end.

End World.

(** ** File-system and network primitives *)
Module Sys.
Import PyStr PosixPath World.

Section WithEnv.
Context (E : env).

(** [os.path.exists(p)] *)
Definition exists_in (m : gmap string node) (p : string) : bool :=
  bool_decide (is_Some (lookup_node m (abspath (cwd E) p))).

Definition path_exists (p : string) : M bool :=
  m ← get_fs; ret (exists_in m p).

(** The directories [os.makedirs] creates below [pre], leaf last. *)
Fixpoint mkdirs (pre : string) (comps : list string) (m : gmap string node)
  : result (gmap string node) :=
  match comps with
  | [] => Ok m
  | c :: cs =>
      let p := (if bool_decide (pre = "/") then "/" else pre +:+ "/") +:+ c in
      match m !! p, cs with
      | Some (File _), [] => Raise (FileExistsError p)
      | Some (File _), _ :: _ => Raise (NotADirectoryError p)
      | Some Dir, [] => Raise (FileExistsError p)
      | Some Dir, _ :: _ => mkdirs p cs m
      | None, _ => mkdirs p cs (<[p := Dir]> m)
      end
  end.

(** [os.makedirs(p)] *)
Definition makedirs (p : string) : M unit :=
  let q := abspath (cwd E) p in
  emit (EvMkdir q);;
  m ← get_fs;
  match parts q with
  | [] => raise (FileExistsError q)
  | comps =>
      match mkdirs "/" comps m with
      | Ok m' => put_fs m'
      | Raise e => raise e
      end
  end.

(** Opening [p] for writing or appending: the directory must be there
    and [p] must not be a directory.  Returns the normalised path and
    what the file held. *)
Definition open_out (p : string) : M (string * option string) :=
  let q := abspath (cwd E) p in
  m ← get_fs;
  match lookup_node m (parent q) with
  | None => raise (FileNotFoundError q)
  | Some (File _) => raise (NotADirectoryError q)
  | Some Dir =>
      match lookup_node m q with
      | Some Dir => raise (IsADirectoryError q)
      | Some (File old) => ret (q, Some old)
      | None => ret (q, None)
      end
  end.

(** [with open(p, 'w') as f: f.write(content)] *)
Definition write_file (p content : string) : M unit :=
  '(q, _) ← open_out p;
  emit (EvWrite q content);;
  m ← get_fs;
  put_fs (<[q := File content]> m).

(** [with open(p, 'a') as f: f.write(line)] *)
Definition append_file (p line : string) : M unit :=
  '(q, old) ← open_out p;
  emit (EvAppend q line);;
  m ← get_fs;
  put_fs (<[q := File (default "" old +:+ line)]> m).

(** [self.opener.open(url)] *)
Definition opener_open (url : string) : M response :=
  emit (EvOpen url);;
  some_or (URLError url) (net E url).

(** [print(text)] and [print(text, file=stderr)], without the final
    newline *)
Definition print (text : string) : M unit := emit (EvPrint text).
Definition eprint (text : string) : M unit := emit (EvWarn text).

End WithEnv.
End Sys.

(** ** LearnFileDownloader.py

    Where a comment quotes a pattern of the source, ['] stands for the
    double quote and a blank is put between a star and a closing bracket. *)
Module Learn.
Import PyStr Re PosixPath World Sys.

Definition MAX_FILE_NAME_LEN : nat := 259.
Definition PATH_STORAGE_FN : string := "OrigFNames.txt".
(** [- 1] accounts for the slash divider *)
Definition MAX_FOLDER_NAME_LEN : nat := MAX_FILE_NAME_LEN - len PATH_STORAGE_FN - 1.

(** [[:\*\?'<>\|]] *)
Definition forbidden_chars : string := ":*?" +:+ dq +:+ "<>|".
Definition forbidden_fn_chars_re : regex := Chr (oneof forbidden_chars).

(** [&amp;?] *)
Definition amp_re : regex := Seq (lit "&amp") (opt (Chr (eqc ";"))).

(** [([^;\s]* )(?:\s*;.*charset=(.*?)(?:\s|;|$))?] *)
Definition content_re : regex :=
  Seq (Group 1 (star (Chr (cnot (cor (eqc ";") space)))))
      (opt (seqs [star (Chr space); lit ";"; star (Chr any); lit "charset=";
                  Group 2 (lazy_star (Chr any));
                  Alt (Chr space) (Alt (Chr (eqc ";")) Eos)])).

(** [filename='(.*?)\.\w*'] *)
Definition fn_re : regex :=
  seqs [lit ("filename=" +:+ dq); Group 1 (lazy_star (Chr any)); lit ".";
        star (Chr word); lit dq].

(** [charset=(.* )?] *)
Definition charset_re : regex :=
  Seq (lit "charset=") (opt (Group 1 (star (Chr any)))).

(** [https://learn\.canterbury\.ac\.nz/.*] *)
Definition learn_url_re : regex :=
  Seq (lit "https://learn.canterbury.ac.nz/") (star (Chr any)).

(** [Click <a href='(.*?)'>(.*?)\.pdf</a> link to download the file\.] *)
Definition dl_url_re : regex :=
  seqs [lit ("Click <a href=" +:+ dq); Group 1 (lazy_star (Chr any));
        lit (dq +:+ ">"); Group 2 (lazy_star (Chr any));
        lit ".pdf</a> link to download the file."].

(** [<form.*?action='(.*?)' >\n.*?name='id' value='(\d+)'>] *)
Definition folder_re : regex :=
  seqs [lit "<form"; lazy_star (Chr any); lit ("action=" +:+ dq);
        Group 1 (lazy_star (Chr any)); lit (dq +:+ " >" +:+ nl);
        lazy_star (Chr any);
        lit ("name=" +:+ dq +:+ "id" +:+ dq +:+ " value=" +:+ dq);
        Group 2 (plus (Chr digit)); lit (dq +:+ ">")].

(** [<div role='main'>.*?<h2>(.*?)</h2>.*?href='(.*?)'] *)
Definition dl_re : regex :=
  seqs [lit ("<div role=" +:+ dq +:+ "main" +:+ dq +:+ ">");
        lazy_star (Chr any); lit "<h2>"; Group 1 (lazy_star (Chr any));
        lit "</h2>"; lazy_star (Chr any); lit ("href=" +:+ dq);
        Group 2 (lazy_star (Chr any)); lit dq].

(** [<div role='main'><span id='maincontent'></span><table class='generaltable mod_index'>] *)
Definition table_re_s : regex :=
  lit ("<div role=" +:+ dq +:+ "main" +:+ dq +:+ "><span id=" +:+ dq
       +:+ "maincontent" +:+ dq +:+ "></span><table class=" +:+ dq
       +:+ "generaltable mod_index" +:+ dq +:+ ">").

(** [</table>\n*</div>] *)
Definition table_re_e : regex :=
  seqs [lit "</table>"; star (Chr (eqc newline)); lit "</div>"].

(** [<td class='cell c1' style='text-align:left;'>(.*?)</td>] *)
Definition cell_re : regex :=
  seqs [lit ("<td class=" +:+ dq +:+ "cell c1" +:+ dq +:+ " style=" +:+ dq
             +:+ "text-align:left;" +:+ dq +:+ ">");
        Group 1 (lazy_star (Chr any)); lit "</td>"].

(** [href='(.* )'.*src='.*/(?:icon|f/(\w+))'.*alt='([\w|\s]* )' />\s?(.+)</a>] *)
Definition text_re : regex :=
  seqs [lit ("href=" +:+ dq); Group 1 (star (Chr any)); lit dq;
        star (Chr any); lit ("src=" +:+ dq); star (Chr any); lit "/";
        Alt (lit "icon") (Seq (lit "f/") (Group 2 (plus (Chr word))));
        lit dq; star (Chr any); lit ("alt=" +:+ dq);
        Group 3 (star (Chr (cor word (cor (eqc "|") space))));
        lit (dq +:+ " />"); opt (Chr space); Group 4 (plus (Chr any));
        lit "</a>"].

(** [get_encoding(content_type, url)] *)
Definition get_encoding (content_type : option string) (url : string) : M string :=
  ct ← some_or TypeError content_type;
  match findall1 charset_re ct with
  | encoding :: more =>
      (if bool_decide (more ≠ []) then
         eprint (nl +:+ "Warning: more than one encoding type declared!");;
         eprint ("Will attempt to use the first type found (" +:+ encoding +:+ ")" +:+ nl)
       else mret ());;
      mret encoding
  | [] =>
      eprint ("Error: content_type = '" +:+ ct +:+ "', attempting to decode with latin-1");;
      eprint url;;
      mret "latin-1"
  end.

(** [extract_between_res(html_txt, start_re, end_re)] *)
Definition extract_between_res (html_txt : string) (start_re end_re : regex)
  : option string :=
  match search start_re html_txt 0 with
  | Some start_match =>
      let start_index := m_end start_match in
      match search end_re html_txt start_index with
      | Some end_match =>
          let end_index := m_start end_match in
          Some (slice start_index end_index html_txt)
      | None => None
      end
  | None => None
  end.

(** [get_resource_url(course_id_number)] *)
Definition get_resource_url (course_id_number : string) : string :=
  "https://learn.canterbury.ac.nz/course/resources.php?id=" +:+ course_id_number.

(** [get_type(item_type, file_type, url)], with [None] for the type of an
    item that is ignored *)
Definition get_type (item_type : string) (file_type : option string)
    (url : string) : M (option string) :=
  (if bool_decide (file_type = Some "") then
     print ("A non-file item of type '" +:+ item_type +:+ "' was found")
   else mret ());;
  if bool_decide (item_type = "File") then mret (Some "file")
  else if bool_decide (item_type = "Folder") then mret (Some "folder")
  else if bool_decide (item_type = "URL") then mret (Some "url")
  else if bool_decide (item_type = "Page") then mret (Some "page")
  else if bool_decide (item_type = "Course Material") then mret (Some "material")
  else
    print ("An item of unknown type '" +:+ item_type
           +:+ "' was found, this item will be ignored!");;
    mret None.

(** The body of the loop of [extract_download_info] for one cell. *)
Definition extract_cell (cell_text : string) : M (option string * string * string) :=
  text_match ← some_or AttributeError (search text_re cell_text 0);
  (* groups 1, 3 and 4 take part in every match *)
  let url := default "" (mgroup text_match 1) in
  let file_type := mgroup text_match 2 in
  let item_type := default "" (mgroup text_match 3) in
  let learn_name := default "" (mgroup text_match 4) in
  type ← get_type item_type file_type url;
  mret (type, url, learn_name).

(** [extract_download_info(courseResourceText)] *)
Definition extract_download_info (courseResourceText : string)
  : M (list (option string * string * string)) :=
  table_text ← some_or TypeError
    (extract_between_res courseResourceText table_re_s table_re_e);
  let cell_texts := findall1 cell_re table_text in
  map_m extract_cell cell_texts.

Section WithEnv.
Context (E : env).

(** [learnUserObj.openWebpage(url)], the body of a response being taken
    as already decoded *)
Definition openWebpage (url : string) : M string :=
  response ← opener_open E url;
  _ ← get_encoding (content_type response) url;
  mret (body response).

(** [learnUserObj.get_header(url)] *)
Definition get_header (url : string) : M response := opener_open E url.

(** [learnUserObj.get_content_type(response)] *)
Definition get_content_type (response : response) : M (string * option string) :=
  ct ← some_or TypeError (content_type response);
  content_match ← some_or AttributeError (search content_re ct 0);
  mret (default "" (mgroup content_match 1), mgroup content_match 2).

(** [learnUserObj.get_filename(response, learn_name)] *)
Definition get_filename (response : response) (learn_name : string) : M string :=
  filename ←
    match content_disposition response with
    | None => mret learn_name
    | Some cd =>
        m ← some_or AttributeError (search fn_re cd 0);
        mret (default "" (mgroup m 1))
    end;
  let filename := unquote E filename in
  let filename := sub amp_re "&" filename in
  mret filename.

(** The [while os.path.exists(...)] loop of [downloadFile]. *)
Fixpoint next_free (fuel : nat) (m : gmap string node) (dest_folder : string)
    (i : nat) : option nat :=
  match fuel with
  | 0 => None
  | S fuel' =>
      if exists_in E m (dest_folder +:+ "/" +:+ "rn" +:+ str i)
      then next_free fuel' m dest_folder (i + 1)
      else Some i
  end.

(** The destination [downloadFile] settles on. *)
Record target : Type :=
  { t_dest_folder : string; t_full_fn : string;
    t_dest : string; t_orig_path : string }.

(** Lines 198-210 of [downloadFile]: the characters that cannot be used
    are taken out of the folder and the file name, with a warning. *)
Definition strip_names (dest_folder full_fn dest : string)
  : M (string * string * string) :=
  rel_path ← some_or ValueError (relpath (cwd E) dest);
  rel_path2 ← some_or ValueError
    (relpath (cwd E) (sub forbidden_fn_chars_re "" rel_path));
  if bool_decide (rel_path ≠ rel_path2) then
    eprint (nl +:+ "Warning! The following characters cannot be used in file and folder names:");;
    eprint "    \ / : * ? < > |";;
    eprint ("The file named '" +:+ rel_path +:+ "' has been renamed to '"
            +:+ rel_path2 +:+ "' accordingly." +:+ nl);;
    rel_dest_folder ← some_or ValueError (relpath (cwd E) dest_folder);
    let rel_dest_folder2 := sub forbidden_fn_chars_re "" rel_dest_folder in
    let dest_folder := abspath (cwd E) rel_dest_folder2 in
    let full_fn := sub forbidden_fn_chars_re "" full_fn in
    let dest := abspath (cwd E) (dest_folder +:+ "/" +:+ full_fn) in
    mret (dest_folder, full_fn, dest)
  else mret (dest_folder, full_fn, dest).

(** Lines 212-229 of [downloadFile]: the folder is cut at its ceiling and
    a path that is still too long gets a synthetic file name. [ext] is
    [Some] when [is_known_type]. *)
Definition shorten (dest_folder full_fn dest : string) (ext : option string)
  : M target :=
  let orig_path := dest in
  let '(dest_folder, dest) :=
    if MAX_FOLDER_NAME_LEN <? len dest_folder then
      let dest_folder := take MAX_FOLDER_NAME_LEN dest_folder in
      (dest_folder, abspath (cwd E) (dest_folder +:+ "/" +:+ full_fn))
    else (dest_folder, dest) in
  '(full_fn, dest) ←
    (if MAX_FILE_NAME_LEN <? len dest then
       let renamed_file := "rn" in
       m ← get_fs;
       i ← some_or Diverges (next_free (S (size m)) m dest_folder 1);
       let full_fn :=
         match ext with
         | Some ext => renamed_file +:+ str i +:+ "." +:+ ext
         | None => renamed_file +:+ str i
         end in
       mret (full_fn, abspath (cwd E) (dest_folder +:+ "/" +:+ full_fn))
     else mret (full_fn, dest));
  mret {| t_dest_folder := dest_folder; t_full_fn := full_fn;
          t_dest := dest; t_orig_path := orig_path |}.

(** Lines 191-229 of [downloadFile]: from the intended folder and file
    name to the destination. *)
Definition resolve_target (dest_folder full_fn : string) (ext : option string)
  : M target :=
  let dest_folder := sub amp_re "&" dest_folder in
  let dest_folder := unquote E dest_folder in
  let dest_folder := abspath (cwd E) dest_folder in
  let dest := abspath (cwd E) (dest_folder +:+ "/" +:+ full_fn) in
  '(dest_folder, full_fn, dest) ← strip_names dest_folder full_fn dest;
  shorten dest_folder full_fn dest ext.

(** Lines 231-244 of [downloadFile]: the directory, the side-car entry
    and the file. *)
Definition store (t : target) (response : response) : M unit :=
  ex ← path_exists E (t_dest_folder t);
  (if negb ex then
     if negb (DEBUG E) then makedirs E (t_dest_folder t) else mret ()
   else mret ());;
  (if bool_decide (t_orig_path t ≠ t_dest t) then
     eprint ("Warning! File name too long:" +:+ nl +:+ "'" +:+ t_orig_path t
             +:+ "' shortened to '" +:+ t_dest t +:+ "'");;
     let storage_file_path :=
       abspath (cwd E) (t_dest_folder t +:+ "/" +:+ PATH_STORAGE_FN) in
     append_file E storage_file_path
       ("'" +:+ t_dest t +:+ "' ==> '" +:+ t_orig_path t +:+ "'" +:+ nl)
   else mret ());;
  if negb (DEBUG E) then write_file E (t_dest t) (body response) else mret ().

(** [learnUserObj.downloadFile(url, dest_folder, learn_name)] *)
Definition downloadFile (url dest_folder learn_name : string) : M unit :=
  response ← opener_open E url;
  filename ← get_filename response learn_name;
  print ("Downloading '" +:+ filename +:+ "'");;
  '(media_type, encoding) ← get_content_type response;
  '(ext, full_fn) ←
    (match FILE_EXT_MAP E !! media_type with
     | Some (Some ext) => mret (Some ext, filename +:+ "." +:+ ext)
     | _ =>
         (* the warning's f-string reads [content_type], a name that is
            bound neither in this function nor in the module *)
         _ ← raise (A := unit) (NameError "content_type");
         mret (None, filename)
     end);
  t ← resolve_target dest_folder full_fn ext;
  store t response.

(** [extract_pdf_url(learnUser, url)] *)
Definition extract_pdf_url (url : string) : M string :=
  if bool_decide (is_Some (rematch learn_url_re url)) then
    dl_page_text ← openWebpage url;
    write_file E "ouput.txt" (cp850 E dl_page_text +:+ nl);;
    dl_url_match ← some_or AttributeError (search dl_url_re dl_page_text 0);
    mret (default "" (mgroup dl_url_match 1))
  else mret url.

(** [download_file(learnUser, url, target_dest, learn_name)] *)
Definition download_file (url target_dest learn_name : string) : M unit :=
  header ← get_header url;
  '(media_type, encoding) ← get_content_type header;
  dl_url ←
    (if bool_decide (media_type = "text/html") then extract_pdf_url url
     else mret url);
  let dest_folder := target_dest +:+ "/Single Files/" +:+ learn_name in
  downloadFile dl_url dest_folder learn_name.

(** [download_folder(learnUser, url, target_dest, learn_name)] *)
Definition download_folder (url target_dest learn_name : string) : M unit :=
  print (nl +:+ "Extracting download links for files nested in '"
         +:+ target_dest +:+ "' folder");;
  folder_text ← openWebpage url;
  folder_match ← some_or AttributeError (search folder_re folder_text 0);
  let base_url := default "" (mgroup folder_match 1) in
  let download_ext := default "" (mgroup folder_match 2) in
  let dl_url := base_url +:+ "?id=" +:+ download_ext in
  let dest_folder := target_dest +:+ "/" +:+ learn_name in
  downloadFile dl_url dest_folder learn_name.

(** [download_url(learnUser, url, target_dest, learn_name)] *)
Definition download_url (url target_dest learn_name : string) : M unit :=
  dl_page_text ← openWebpage url;
  dl_match ← some_or AttributeError (search dl_re dl_page_text 0);
  let title := default "" (mgroup dl_match 1) in
  let target := default "" (mgroup dl_match 2) in
  let target_dest := target_dest +:+ "/Single Files/" in
  dest ← some_or ValueError
    (relpath (cwd E) (target_dest +:+ "/" +:+ title +:+ ".url"));
  dest2 ← some_or ValueError
    (relpath (cwd E) (sub forbidden_fn_chars_re "" dest));
  (if bool_decide (dest ≠ dest2) then
     eprint (nl +:+ "Warning! The following characters cannot be used in file and folder names:");;
     eprint "    \ / : * ? < > |";;
     eprint ("The file named '" +:+ dest +:+ "' has been renamed to '"
             +:+ dest2 +:+ "' accordingly." +:+ nl)
   else mret ());;
  let abs_target_dest := abspath (cwd E) target_dest in
  ex ← path_exists E abs_target_dest;
  (if negb ex then makedirs E abs_target_dest else mret ());;
  let dest := abspath (cwd E) dest2 in
  write_file E dest ("[InternetShortcut]" +:+ nl +:+ "URL=" +:+ target +:+ nl).

(** [download_page(learnUser, url, target_dest, learn_name)] *)
Definition download_page (url target_dest learn_name : string) : M unit :=
  let target_dest := target_dest +:+ "/Single Files/" in
  downloadFile url target_dest learn_name.

(** [download_resource_page(learnUser, target_dest, courseResourceURL)] *)
Definition download_resource_page (target_dest courseResourceURL : string)
  : M unit :=
  print "Extracting file and folder links from Resource Page";;
  resource_page ← openWebpage courseResourceURL;
  item_array ← extract_download_info resource_page;
  for_each item_array (λ '(item_type, item_url, item_name),
    print ("downloading " +:+ item_name);;
    if bool_decide (item_type = Some "file") then
      download_file item_url target_dest item_name
    else if bool_decide (item_type = Some "folder") then
      download_folder item_url target_dest item_name
    else if bool_decide (item_type = Some "url") then
      download_url item_url target_dest item_name
    else if bool_decide (item_type = Some "page") then
      download_page item_url target_dest item_name
    else mret ()).

End WithEnv.
End Learn.


(** ** Notions used to state the properties *)
Module Spec.
Import PyStr Re.

(** [s'] is what is left of [s] after reading some of it. *)
Definition suffix_of (s' s : string) : Prop := ∃ p, s = p +:+ s'.

(** [hay.find(needle)], with [None] for [-1] *)
Fixpoint find_from (i : nat) (needle hay : string) : option nat :=
  if startswith needle hay then Some i
  else match hay with
       | "" => None
       | String _ h => find_from (S i) needle h
       end.
Definition find (needle hay : string) : option nat := find_from 0 needle hay.

(** What a greedy and a lazy repetition of one character class do: the
    candidates are the ends of the run of characters in the class, the
    farthest first for the greedy one, the nearest first for the lazy
    one. *)
Fixpoint greedy_chr {R} (p : ascii → bool) (s : string) (c : caps)
    (k : string → caps → option R) : option R :=
  match s with
  | String a s' =>
      if p a then
        match greedy_chr p s' c k with Some x => Some x | None => k s c end
      else k s c
  | "" => k s c
  end.

Fixpoint lazy_chr {R} (p : ascii → bool) (s : string) (c : caps)
    (k : string → caps → option R) : option R :=
  match k s c with
  | Some x => Some x
  | None =>
      match s with
      | String a s' => if p a then lazy_chr p s' c k else None
      | "" => None
      end
  end.

(** The pattern [r] matches [text] from index [j]: the end of the match
    the engine settles on, and its groups. *)
Definition match_at (r : regex) (text : string) (j : nat) : option (nat * caps) :=
  match run r (drop j text) [] (accept false (drop j text)) with
  | Some (s', c) => Some (len text - len s', c)
  | None => None
  end.

(** [m] is the leftmost match of [r] in [text] that starts at or after
    [pos]. *)
Definition first_match (r : regex) (text : string) (pos : nat) (m : rmatch) : Prop :=
  pos ≤ m_start m ∧ m_start m ≤ m_end m ∧ m_end m ≤ len text
  ∧ match_at r text (m_start m) = Some (m_end m, m_groups m)
  ∧ ∀ j, pos ≤ j < m_start m → match_at r text j = None.

(** [r] matches nowhere in [text] at or after [pos]. *)
Definition no_match (r : regex) (text : string) (pos : nat) : Prop :=
  ∀ j, pos ≤ j ≤ len text → match_at r text j = None.

(** The characters a pattern class rejects. *)
Definition free_of (p : ascii → bool) (s : string) : bool := forallb (cnot p) s.

(** The claim's reading of the file name in a header: the quoted name cut
    at its first dot. *)
Fixpoint before_first_dot (s : string) : string :=
  match s with
  | "" => ""
  | String a s' => if Ascii.eqb a "." then "" else String a (before_first_dot s')
  end.

(** A path component that [normpath] keeps as it is. *)
Definition plain (c : string) : Prop :=
  c ≠ "" ∧ c ≠ "." ∧ c ≠ ".." ∧ contains "/" c = false.

(** The characters of a path with its separators counted: the sum over
    the components of their length plus one. *)
Fixpoint weight (l : list string) : nat :=
  match l with
  | [] => 0
  | c :: l' => S (len c) + weight l'
  end.

(** The same sum over the components that are not empty. *)
Fixpoint weight_ne (l : list string) : nat :=
  match l with
  | [] => 0
  | c :: l' => (if bool_decide (c = "") then 0 else S (len c)) + weight_ne l'
  end.

(** The path whose existence the renaming loop tests for the counter [i]. *)
Definition rn_path (folder : string) (i : nat) : string :=
  folder +:+ "/" +:+ "rn" +:+ str i.

(** The synthetic file name for the counter [i]. *)
Definition synthetic_name (i : nat) (ext : option string) : string :=
  match ext with
  | Some ext => "rn" +:+ str i +:+ "." +:+ ext
  | None => "rn" +:+ str i
  end.

(** The class of the characters taken out of names. *)
Definition forbidden : ascii → bool := oneof Learn.forbidden_chars.

(** The side-car entries among the events. *)
Definition is_append (e : World.event) : bool :=
  match e with World.EvAppend _ _ => true | _ => false end.
Definition appends (t : list World.event) : list World.event := List.filter is_append t.

(** The three lines of the warning about characters. *)
Definition strip_warning (rel_path rel_path2 : string) : list World.event :=
  [World.EvWarn (nl +:+ "Warning! The following characters cannot be used in file and folder names:");
   World.EvWarn "    \ / : * ? < > |";
   World.EvWarn ("The file named '" +:+ rel_path +:+ "' has been renamed to '"
                 +:+ rel_path2 +:+ "' accordingly." +:+ nl)].

(** A computation that records no side-car entry. *)
Definition quiet {A} (m : World.M A) : Prop :=
  ∀ w, appends (World.trace (snd (m w))) = appends (World.trace w).

(** The fixed pieces of text the patterns look for. *)
Definition FN : string := "filename=" +:+ dq.
Definition FORM : string := "<form".
Definition ACTION : string := "action=" +:+ dq.
Definition CLOSE : string := dq +:+ " >" +:+ nl.
Definition IDVAL : string := "name=" +:+ dq +:+ "id" +:+ dq +:+ " value=" +:+ dq.
Definition TAGEND : string := dq +:+ ">".
Definition CLICK : string := "Click <a href=" +:+ dq.
Definition PDFTAIL : string := ".pdf</a> link to download the file.".
Definition LEARN : string := "https://learn.canterbury.ac.nz/".

End Spec.


(** ** Concrete worlds for the examples *)
Module Examples.
Import PyStr Re PosixPath World Sys Learn.

(** A media-type table with a known type, a long extension and a type
    marked as having no extension. *)
Definition table : gmap string (option string) :=
  {[ "application/pdf" := Some "pdf";
     "application/zip" := Some "zip";
     "text/html" := Some "html";
     "application/manifest+json" := Some "webmanifest";
     "application/octet-stream" := None ]}.

Definition resp (ct : string) (cd : option string) (b : string) : response :=
  {| content_type := Some ct; content_disposition := cd; body := b |}.

(** A server given by its pages. *)
Fixpoint serve (pages : list (string * response)) (url : string) : option response :=
  match pages with
  | [] => None
  | (u, r) :: pages' => if bool_decide (u = url) then Some r else serve pages' url
  end.

Definition mk_env (debug : bool) (pages : list (string * response)) : env :=
  {| DEBUG := debug; FILE_EXT_MAP := table; cwd := "/home/u";
     net := serve pages; unquote := id; cp850 := id |}.

Definition empty_world : world := {| fs := ∅; trace := [] |}.

(** [n] times the character [a] *)
Fixpoint rep (n : nat) (a : ascii) : string :=
  match n with 0 => "" | S n' => String a (rep n' a) end.

(** The file-system writes among the events. *)
Definition fs_writes (t : list event) : list event := List.filter is_fs_write t.

(** An attachment header naming a file. *)
Definition attachment (name : string) : string :=
  "attachment; filename=" +:+ dq +:+ name +:+ dq.

(** The world of the spec's scenario for an unknown media type. *)
Definition unknown_env : env :=
  mk_env false [("http://learn/f", resp "application/x-unknown" None "DATA")].

(** A response that suggests the name [archive.tar.gz]. *)
Definition archive_resp : response :=
  resp "application/zip" (Some (attachment "archive.tar.gz")) "DATA".

(** A folder page: [sep] is what stands between the closing quote of the
    form's action and the hidden field. *)
Definition folder_page (sep : string) : string :=
  "<html><form method=" +:+ dq +:+ "post" +:+ dq +:+ " action=" +:+ dq
  +:+ "http://learn/dl.php" +:+ dq +:+ sep +:+ "<input type=" +:+ dq +:+ "hidden"
  +:+ dq +:+ " name=" +:+ dq +:+ "id" +:+ dq +:+ " value=" +:+ dq +:+ "42" +:+ dq
  +:+ "></form></html>".

Definition folder_env (sep : string) : env :=
  mk_env false
    [("http://learn/folder", resp "text/html; charset=utf-8" None (folder_page sep));
     ("http://learn/dl.php?id=42",
      resp "application/zip" (Some (attachment "week1.zip")) "ZIPDATA")].

(** The cell of the spec's scenario, and a resource page holding it. *)
Definition syllabus_cell : string :=
  "<td class=" +:+ dq +:+ "cell c1" +:+ dq +:+ " style=" +:+ dq
  +:+ "text-align:left;" +:+ dq +:+ "><a href=" +:+ dq
  +:+ "/mod/resource/view.php?id=5" +:+ dq +:+ ">...src=" +:+ dq +:+ ".../f/pdf"
  +:+ dq +:+ " alt=" +:+ dq +:+ "File" +:+ dq +:+ " />  Syllabus</a></td>".

Definition syllabus_page : string :=
  "<div role=" +:+ dq +:+ "main" +:+ dq +:+ "><span id=" +:+ dq +:+ "maincontent"
  +:+ dq +:+ "></span><table class=" +:+ dq +:+ "generaltable mod_index" +:+ dq
  +:+ "><tr>" +:+ syllabus_cell +:+ "</tr></table>" +:+ nl +:+ "</div>".

(** A page outside the portal that is served as HTML and holds the
    sentence with a link. *)
Definition indirect_page : string :=
  "<p>Click <a href=" +:+ dq +:+ "http://files.example.org/real.pdf" +:+ dq
  +:+ ">notes.pdf</a> link to download the file.</p>".

Definition indirect_env : env :=
  mk_env false
    [("http://files.example.org/notes",
      resp "text/html; charset=utf-8" None indirect_page);
     ("http://files.example.org/real.pdf", resp "application/pdf" None "PDFDATA")].

(** A world in which the working directory exists. *)
Definition home_world : world :=
  {| fs := {[ "/home" := Dir; "/home/u" := Dir ]}; trace := [] |}.

(** A URL resource and an indirection page of the portal. *)
Definition url_page : string :=
  "<div role=" +:+ dq +:+ "main" +:+ dq +:+ "><h2>Course site</h2><a href=" +:+ dq
  +:+ "http://example.org/" +:+ dq +:+ ">open</a></div>".

Definition portal_page : string :=
  "<p>Click <a href=" +:+ dq +:+ "https://learn.canterbury.ac.nz/f/notes.pdf" +:+ dq
  +:+ ">notes.pdf</a> link to download the file.</p>".

(** Names too long for the path ceiling, and a folder that exists. *)
Definition long_name (a : ascii) : string := rep 40 a.
Definition deep_folder : string := "/home/u/dl/" +:+ rep 229 "d".

Definition portal_pages : list (string * response) :=
  [("https://learn.canterbury.ac.nz/mod/url/view.php?id=9",
    resp "text/html; charset=utf-8" None url_page);
   ("https://learn.canterbury.ac.nz/mod/resource/view.php?id=5",
    resp "text/html; charset=utf-8" None portal_page);
   ("https://learn.canterbury.ac.nz/f/notes.pdf",
    resp "application/pdf" (Some (attachment "notes.pdf")) "PDFDATA");
   ("https://learn.canterbury.ac.nz/f/first.pdf",
    resp "application/pdf" (Some (attachment (long_name "x" +:+ ".pdf"))) "FIRST");
   ("https://learn.canterbury.ac.nz/f/second.pdf",
    resp "application/pdf" (Some (attachment (long_name "y" +:+ ".pdf"))) "SECOND");
   ("https://learn.canterbury.ac.nz/f/app.webmanifest",
    resp "application/manifest+json" (Some (attachment (long_name "z" +:+ ".webmanifest")))
      "MANIFEST")].

(** The portal under the debug flag, and without it. *)
Definition debug_env : env := mk_env true portal_pages.
Definition live_env : env := mk_env false portal_pages.

Definition deep_world : world :=
  {| fs := {[ "/home" := Dir; "/home/u" := Dir; "/home/u/dl" := Dir;
              deep_folder := Dir ]};
     trace := [] |}.

Definition url_item : string := "https://learn.canterbury.ac.nz/mod/url/view.php?id=9".
Definition file_item : string :=
  "https://learn.canterbury.ac.nz/mod/resource/view.php?id=5".
Definition first_pdf : string := "https://learn.canterbury.ac.nz/f/first.pdf".
Definition second_pdf : string := "https://learn.canterbury.ac.nz/f/second.pdf".

(** The world after the first of two downloads into the same folder. *)
Definition after_first : world :=
  snd (downloadFile live_env first_pdf deep_folder "first" deep_world).
Definition after_second : world :=
  snd (downloadFile live_env second_pdf deep_folder "second" after_first).

Definition notes_pdf : string := "https://learn.canterbury.ac.nz/f/notes.pdf".

(** A folder name with a colon and a backslash. *)
Definition odd_folder : string := "dl/Week 1: a\b".

End Examples.


(** ** The courses of the user (lines 289-316 and 544-560)

    The menu of courses and the reading of the user's selection.  Logging
    in, with its cookie jar and posted form, and the prompts of [main]
    are not part of the model.  Where a comment quotes a pattern of the
    source, ['] stands for the double quote. *)
Module Session.
Import PyStr Re PosixPath World Sys Learn.

(** [[A-Z]] *)
Definition upper (a : ascii) : bool := between 65 90 a.

(** [r{n}] *)
Fixpoint times (n : nat) (r : regex) : regex :=
  match n with
  | 0 => Eps
  | 1 => r
  | S n' => Seq r (times n' r)
  end.

(** [(<li class='dropdown nav-item'>\s+<a .*>\s+My Courses\s+</a>)] *)
Definition course_list_re_start : regex :=
  Group 1
    (seqs [lit ("<li class=" +:+ dq +:+ "dropdown nav-item" +:+ dq +:+ ">");
           plus (Chr space); lit "<a "; star (Chr any); lit ">";
           plus (Chr space); lit "My Courses"; plus (Chr space); lit "</a>"]).

(** [(</li>)] *)
Definition course_list_re_end : regex := Group 1 (lit "</li>").

(** [[A-Z]{4}\d{3}] *)
Definition code_re : regex := Seq (times 4 (Chr upper)) (times 3 (Chr digit)).

(** [<a class='dropdown-item' role='menuitem' href='.*?id=(\d* )'
    title='((?:[A-Z]{4}\d{3})(?:-[A-Z]{4}\d{3})* ).*?'>(.*?)</a>] *)
Definition course_re : regex :=
  seqs [lit ("<a class=" +:+ dq +:+ "dropdown-item" +:+ dq +:+ " role=" +:+ dq
             +:+ "menuitem" +:+ dq +:+ " href=" +:+ dq);
        lazy_star (Chr any); lit "id="; Group 1 (star (Chr digit));
        lit (dq +:+ " title=" +:+ dq);
        Group 2 (Seq code_re (star (Seq (lit "-") code_re)));
        lazy_star (Chr any); lit (dq +:+ ">"); Group 3 (lazy_star (Chr any));
        lit "</a>"].

(** [r.findall(text)] for a pattern with three groups *)
Definition findall3 (r : regex) (text : string) : list (string * string * string) :=
  (λ pc, (default "" (group (snd pc) 1), default "" (group (snd pc) 2),
          default "" (group (snd pc) 3))) <$> fst (all_pieces r text).

(** The loop that fills the dictionary: [courses[course_code] =
    (course_id, course_name)]. *)
Definition add_course (courses : gmap string (string * string))
    (g : string * string * string) : gmap string (string * string) :=
  let '(course_id, course_code, course_name) := g in
  <[course_code := (course_id, course_name)]> courses.

(** [extract_course_codes_and_ids(learnUser)] *)
Definition extract_course_codes_and_ids (E : env)
  : M (gmap string (string * string)) :=
  webpage ← openWebpage E "https://learn.canterbury.ac.nz/";
  course_list_txt ← some_or TypeError
    (extract_between_res webpage course_list_re_start course_list_re_end);
  let groups := findall3 course_re course_list_txt in
  mret (foldl add_course ∅ groups).

(** [a < b] on strings: by code points, a proper prefix first. *)
Fixpoint str_ltb (a b : string) : bool :=
  match a, b with
  | _, "" => false
  | "", String _ _ => true
  | String x a', String y b' =>
      if nat_of_ascii x <? nat_of_ascii y then true
      else if nat_of_ascii y <? nat_of_ascii x then false
      else str_ltb a' b'
  end.

(** [l.sort()] on a list of strings: a stable sort. *)
Fixpoint insert_sorted (x : string) (l : list string) : list string :=
  match l with
  | [] => [x]
  | y :: l' => if str_ltb y x then y :: insert_sorted x l' else x :: y :: l'
  end.
Definition sort (l : list string) : list string := foldr insert_sorted [] l.

(** [course_list = list(courses); course_list.sort()] *)
Definition course_list (courses : gmap string (string * string)) : list string :=
  sort (fst <$> map_to_list courses).

(** The white space [int] skips at both ends of its argument: the
    ASCII blanks, and the blanks above U+007F. *)
Definition int_space (a : ascii) : bool :=
  between 9 13 a || between 32 32 a || between 133 133 a || between 160 160 a.

Fixpoint lstrip (s : string) : string :=
  match s with
  | String a s' => if int_space a then lstrip s' else s
  | "" => ""
  end.
Fixpoint rstrip (s : string) : string :=
  match s with
  | String a s' =>
      match rstrip s' with
      | "" => if int_space a then "" else String a ""
      | t => String a t
      end
  | "" => ""
  end.

(** The digits of a decimal literal, in which single underscores may
    stand between digits; [prev] tells that the last character read was
    a digit. *)
Fixpoint digits_val (acc : Z) (prev : bool) (s : string) : option Z :=
  match s with
  | "" => if prev then Some acc else None
  | String a s' =>
      if digit a then digits_val (acc * 10 + (Z.of_nat (nat_of_ascii a) - 48))%Z true s'
      else if Ascii.eqb a "_" && prev then digits_val acc false s'
      else None
  end.

(** [int(s)] for a string, with [None] for [ValueError]; the
    interpreter's limit on the number of digits is left out. *)
Definition int (s : string) : option Z :=
  match rstrip (lstrip s) with
  | String "+" t => digits_val 0 false t
  | String "-" t => Z.opp <$> digits_val 0 false t
  | t => digits_val 0 false t
  end.

(** [l[k]] for an integer [k], with [None] for [IndexError] *)
Definition index {A} (l : list A) (k : Z) : option A :=
  if (0 <=? k)%Z then l !! Z.to_nat k
  else if (0 <=? k + Z.of_nat (length l))%Z then l !! Z.to_nat (k + Z.of_nat (length l))
  else None.

(** What can go wrong while the selection is read. *)
Inductive selection_error : Type :=
| SelValueError (course_number : string)   (* [int(course_number)] *)
| SelIndexError (k : Z)                    (* [course_list[k]] *)
| SelKeyError (course_code : string).      (* [courses[course_code]] *)

(** The body of the loop of [main] over the course numbers: the name
    of the course and the address of its resources. *)
Definition select_course (courses : gmap string (string * string))
    (course_number : string) : selection_error + (string * string) :=
  match int course_number with
  | None => inl (SelValueError course_number)
  | Some n =>
      match index (course_list courses) (n - 1) with
      | None => inl (SelIndexError (n - 1))
      | Some course_code =>
          match courses !! course_code with
          | None => inl (SelKeyError course_code)
          | Some (course_id, course_name) =>
              inr (course_name, get_resource_url course_id)
          end
      end
  end.

Fixpoint select_all (courses : gmap string (string * string))
    (course_numbers : list string) : selection_error + list (string * string) :=
  match course_numbers with
  | [] => inr []
  | course_number :: rest =>
      match select_course courses course_number with
      | inl e => inl e
      | inr c =>
          match select_all courses rest with
          | inl e => inl e
          | inr cs => inr (c :: cs)
          end
      end
  end.

(** Lines 553-560 of [main]: from the answer to the prompt to the
    courses to download, zipped as the last loop of [main] reads
    them. *)
Definition select_courses (courses : gmap string (string * string))
    (selected_courses : string) : selection_error + list (string * string) :=
  select_all courses (split "," selected_courses).

End Session.

(** ** What a pattern can read *)
Module Sem.
Import PyStr Re Session.

(** The texts a pattern can read, whatever the order in which the
    matcher tries them; the end-of-text test reads nothing. *)
Inductive lang : regex → string → Prop :=
| lang_eps : lang Eps ""
| lang_chr p a : p a = true → lang (Chr p) (String a "")
| lang_seq r1 r2 u v : lang r1 u → lang r2 v → lang (Seq r1 r2) (u +:+ v)
| lang_alt_l r1 r2 u : lang r1 u → lang (Alt r1 r2) u
| lang_alt_r r1 r2 u : lang r2 u → lang (Alt r1 r2) u
| lang_star_0 g r : lang (Star g r) ""
| lang_star_S g r u v : lang r u → lang (Star g r) v → lang (Star g r) (u +:+ v)
| lang_group n r u : lang r u → lang (Group n r) u
| lang_eos : lang Eos "".

(** The numbered groups of a pattern, each with its sub-pattern. *)
Fixpoint groups_of (r : regex) : list (nat * regex) :=
  match r with
  | Seq r1 r2 | Alt r1 r2 => groups_of r1 ++ groups_of r2
  | Star _ r1 => groups_of r1
  | Group n r1 => (n, r1) :: groups_of r1
  | _ => []
  end.

(** Every binding in [c] is a text its group's sub-pattern can read. *)
Definition caps_from (r : regex) (c : caps) : Prop :=
  Forall (λ b, ∃ r1, In (fst b, r1) (groups_of r) ∧ lang r1 (snd b)) c.

(** The groups that take part in every match of a pattern. *)
Fixpoint binds (r : regex) (n : nat) : bool :=
  match r with
  | Seq r1 r2 => binds r1 n || binds r2 n
  | Alt r1 r2 => binds r1 n && binds r2 n
  | Group m r1 => (m =? n) || binds r1 n
  | _ => false
  end.

(** The bindings [c] give a value to each of those groups. *)
Definition bound (r : regex) (c : caps) : Prop :=
  ∀ n, binds r n = true → is_Some (group c n).

(** The longest prefix of [s] whose characters are all in the class. *)
Fixpoint span (p : ascii → bool) (s : string) : string :=
  match s with
  | String a s' => if p a then String a (span p s') else ""
  | "" => ""
  end.

(** The opening of the table of resources, and the start of its end. *)
Definition TABLE_OPEN : string :=
  "<div role=" +:+ dq +:+ "main" +:+ dq +:+ "><span id=" +:+ dq
  +:+ "maincontent" +:+ dq +:+ "></span><table class=" +:+ dq
  +:+ "generaltable mod_index" +:+ dq +:+ ">".
Definition TABLE_CLOSE : string := "</table>".

(** The item types [download_resource_page] has a handler for, and the
    ones [get_type] can return. *)
Definition handled : list (option string) :=
  [Some "file"; Some "folder"; Some "url"; Some "page"].
Definition known_types : list (option string) := handled ++ [Some "material"].

(** A computation that leaves the file system as it is. *)
Definition keeps_fs {A} (m : World.M A) : Prop :=
  ∀ w, World.fs (snd (m w)) = World.fs w.

(** The path of the side-car file as [downloadFile] opens it. *)
Definition sidecar (E : World.env) (folder : string) : string :=
  PosixPath.abspath (World.cwd E)
    (PosixPath.abspath (World.cwd E) (folder +:+ "/" +:+ Learn.PATH_STORAGE_FN)).

(** A computation that changes the file system at most by giving the
    side-car file of some folder a new content. *)
Definition sidecar_only (E : World.env) {A} (m : World.M A) : Prop :=
  ∀ w, World.fs (snd (m w)) = World.fs w
       ∨ ∃ folder content,
           World.fs (snd (m w))
           = <[sidecar E folder := World.File content]> (World.fs w).

(** A block of a course code: four capital letters and three digits. *)
Definition code_block (b : string) : Prop :=
  ∃ l d, b = l +:+ d ∧ len l = 4 ∧ forallb upper l = true
         ∧ len d = 3 ∧ forallb digit d = true.

(** Further blocks, each after a hyphen. *)
Inductive code_tail : string → Prop :=
| code_tail_nil : code_tail ""
| code_tail_cons b t : code_block b → code_tail t → code_tail ("-" +:+ b +:+ t).

(** A course code: one block or more, joined by hyphens. *)
Definition course_code (s : string) : Prop :=
  ∃ b t, s = b +:+ t ∧ code_block b ∧ code_tail t.

(** The entry of the menu that is found last for a code. *)
Definition last_entry (code : string) (groups : list (string * string * string))
  : option (string * string) :=
  (λ g, (g.1.1, g.2)) <$> last (List.filter (λ g, bool_decide (g.1.2 = code)) groups).

(** The opening of the menu of courses, and the end of an item. *)
Definition MENU_OPEN : string :=
  "<li class=" +:+ dq +:+ "dropdown nav-item" +:+ dq +:+ ">".
Definition ITEM_CLOSE : string := "</li>".

(** The course at place [i], from 0, of the sorted list of codes: its
    name and the address of its resources. *)
Definition course_at (courses : gmap string (string * string)) (i : nat)
  : option (string * string) :=
  code ← course_list courses !! i;
  entry ← courses !! code;
  Some (entry.2, Learn.get_resource_url entry.1).

(** A hidden id field with a numeric value starts the text. *)
Definition numeric_id_at (s : string) : Prop :=
  ∃ d rest, s = Spec.IDVAL +:+ d +:+ Spec.TAGEND +:+ rest
            ∧ d ≠ "" ∧ forallb digit d = true.

(** The body of the loop of [download_resource_page] for one item. *)
Definition handle_item (E : World.env) (target_dest : string)
    (item : option string * string * string) : World.M unit :=
  let '(item_type, item_url, item_name) := item in
  Sys.print ("downloading " +:+ item_name);;
  if bool_decide (item_type = Some "file") then
    Learn.download_file E item_url target_dest item_name
  else if bool_decide (item_type = Some "folder") then
    Learn.download_folder E item_url target_dest item_name
  else if bool_decide (item_type = Some "url") then
    Learn.download_url E item_url target_dest item_name
  else if bool_decide (item_type = Some "page") then
    Learn.download_page E item_url target_dest item_name
  else mret ().

End Sem.

(** ** Further pages and worlds for the examples *)
Module Cases.
Import PyStr Re PosixPath World Sys Learn Examples Sem Session.

(** A cell of the table of resources. *)
Definition cell (href icon alt name : string) : string :=
  "<td class=" +:+ dq +:+ "cell c1" +:+ dq +:+ " style=" +:+ dq
  +:+ "text-align:left;" +:+ dq +:+ "><a href=" +:+ dq +:+ href +:+ dq
  +:+ "><img src=" +:+ dq +:+ "http://learn/pix/" +:+ icon +:+ dq
  +:+ " alt=" +:+ dq +:+ alt +:+ dq +:+ " />" +:+ name +:+ "</a></td>".

(** A resources page with the given cells. *)
Definition resources (cells : list string) : string :=
  "<html>" +:+ TABLE_OPEN +:+ join "" ((λ c, "<tr>" +:+ c +:+ "</tr>") <$> cells)
  +:+ "</table>" +:+ nl +:+ "</div></html>".

Definition course_url : string := "http://learn/course/resources.php?id=7".

(** A course whose items have no handler. *)
Definition quiet_course : env :=
  mk_env false
    [(course_url,
      resp "text/html; charset=utf-8" None
        (resources [cell "http://learn/book" "icon" "Course Material" "Reader";
                    cell "http://learn/quiz" "icon" "Quiz" "Test 1"]))].

(** A course whose first file is of a media type the table lacks. *)
Definition broken_course : env :=
  mk_env false
    [(course_url,
      resp "text/html; charset=utf-8" None
        (resources [cell "http://learn/f" "f/unknown" "File" "notes";
                    cell "http://learn/folder" "icon" "Folder" "Week 1"]));
     ("http://learn/f", resp "application/x-unknown" None "DATA");
     ("http://learn/folder",
      resp "text/html; charset=utf-8" None (folder_page (" >" +:+ nl)));
     ("http://learn/dl.php?id=42",
      resp "application/zip" (Some (attachment "week1.zip")) "ZIPDATA")].

(** A folder page on which a search form stands before the form of the
    folder. *)
Definition search_folder_page : string :=
  "<html><form method=" +:+ dq +:+ "get" +:+ dq +:+ " action=" +:+ dq
  +:+ "http://learn/search.php" +:+ dq +:+ "><input name=" +:+ dq +:+ "q" +:+ dq
  +:+ "></form>" +:+ nl +:+ "<form method=" +:+ dq +:+ "post" +:+ dq +:+ " action="
  +:+ dq +:+ "http://learn/dl.php" +:+ dq +:+ " >" +:+ nl +:+ "<input type=" +:+ dq
  +:+ "hidden" +:+ dq +:+ " name=" +:+ dq +:+ "id" +:+ dq +:+ " value=" +:+ dq
  +:+ "42" +:+ dq +:+ "></form></html>".

Definition search_folder_env : env :=
  mk_env false
    [("http://learn/folder",
      resp "text/html; charset=utf-8" None search_folder_page);
     ("http://learn/dl.php?id=42",
      resp "application/zip" (Some (attachment "week1.zip")) "ZIPDATA")].

(** An entry of the menu of courses. *)
Definition menu_item (id title name : string) : string :=
  "<a class=" +:+ dq +:+ "dropdown-item" +:+ dq +:+ " role=" +:+ dq +:+ "menuitem"
  +:+ dq +:+ " href=" +:+ dq +:+ "https://learn.canterbury.ac.nz/course/view.php?id="
  +:+ id +:+ dq +:+ " title=" +:+ dq +:+ title +:+ dq +:+ ">" +:+ name +:+ "</a>".

(** A front page with the menu of courses. *)
Definition front_page (items : list string) : string :=
  "<ul><li class=" +:+ dq +:+ "dropdown nav-item" +:+ dq +:+ ">" +:+ nl
  +:+ "<a class=" +:+ dq +:+ "dropdown-toggle" +:+ dq +:+ " href=" +:+ dq +:+ "#"
  +:+ dq +:+ ">" +:+ nl +:+ "My Courses" +:+ nl +:+ "</a>" +:+ nl
  +:+ join nl items +:+ nl +:+ "</li></ul>".

Definition front_url : string := "https://learn.canterbury.ac.nz/".

(** A user with three entries in the menu, two of them for one code. *)
Definition student : env :=
  mk_env false
    [(front_url,
      resp "text/html; charset=utf-8" None
        (front_page [menu_item "101" "ENCE360-20S2 Operating Systems" "ENCE360";
                     menu_item "7" "COSC261-ENCE261 Foundations" "COSC261";
                     menu_item "102" "ENCE360-20S2 Operating Systems" "ENCE360 (new)"]))].

Definition two_courses : gmap string (string * string) :=
  {[ "ENCE360" := ("102", "ENCE360 (new)");
     "COSC261-ENCE261" := ("7", "COSC261") ]}.

End Cases.

(** * Properties *)

Import PyStr Re PosixPath World Sys Learn Spec Examples.

(** ** Strings *)
Module PyStrFacts.

Lemma app_nil_r (s : string) : s +:+ "" = s.
Proof. induction s as [|a s IH]; [done|]. unfold String.app in *. simpl. by rewrite IH. Qed.

Lemma app_cons (a : ascii) (s t : string) : String a s +:+ t = String a (s +:+ t).
Proof. done. Qed.

Lemma app_nil_l (s : string) : "" +:+ s = s.
Proof. done. Qed.

Lemma app_assoc (s t u : string) : (s +:+ t) +:+ u = s +:+ t +:+ u.
Proof. induction s as [|a s IH]; [done|]. rewrite !app_cons. by rewrite IH. Qed.

Lemma len_cons (a : ascii) (s : string) : len (String a s) = S (len s).
Proof. done. Qed.

Lemma len_app (s t : string) : len (s +:+ t) = len s + len t.
Proof.
  induction s as [|a s IH]; [done|].
  rewrite app_cons, !len_cons, IH. done.
Qed.

Lemma len_0 (s : string) : len s = 0 → s = "".
Proof. by destruct s. Qed.

Lemma len_take (n : nat) (s : string) : len (take n s) = Nat.min n (len s).
Proof.
  revert s. induction n as [|n IH]; intros [|a s]; try done.
  change (take (S n) (String a s)) with (String a (take n s)).
  rewrite !len_cons, IH. done.
Qed.


Lemma len_drop (n : nat) (s : string) : len (drop n s) = len s - n.
Proof.
  revert s. induction n as [|n IH]; intros [|a s]; try done.
  change (drop (S n) (String a s)) with (drop n s).
  rewrite IH, len_cons. lia.
Qed.

Lemma take_S (n : nat) (a : ascii) (s : string) :
  take (S n) (String a s) = String a (take n s).
Proof. done. Qed.

Lemma drop_S (n : nat) (a : ascii) (s : string) : drop (S n) (String a s) = drop n s.
Proof. done. Qed.

Lemma take_drop (n : nat) (s : string) : take n s +:+ drop n s = s.
Proof.
  revert s. induction n as [|n IH]; intros [|a s]; try done.
  rewrite take_S, drop_S, app_cons, IH. done.
Qed.

Lemma take_app (s t : string) : take (len s) (s +:+ t) = s.
Proof.
  induction s as [|a s IH]; [by destruct t|].
  rewrite app_cons, len_cons, take_S, IH. done.
Qed.

Lemma drop_app (s t : string) : drop (len s) (s +:+ t) = t.
Proof.
  induction s as [|a s IH]; [done|].
  rewrite app_cons, len_cons, drop_S. done.
Qed.

Lemma take_all (n : nat) (s : string) : len s ≤ n → take n s = s.
Proof.
  revert s. induction n as [|n IH]; intros [|a s]; try done.
  - rewrite len_cons. lia.
  - rewrite len_cons. intros H. rewrite take_S, IH; [done|lia].
Qed.

Lemma drop_all (n : nat) (s : string) : len s ≤ n → drop n s = "".
Proof.
  revert s. induction n as [|n IH]; intros [|a s]; try done.
  - rewrite len_cons. lia.
  - rewrite len_cons. intros H. rewrite drop_S. apply IH. lia.
Qed.

Lemma drop_drop (n m : nat) (s : string) : drop n (drop m s) = drop (m + n) s.
Proof.
  revert s. induction m as [|m IH]; intros s; [done|].
  destruct s as [|a s]; [by destruct n|].
  change (S m + n) with (S (m + n)). rewrite !drop_S. apply IH.
Qed.

Lemma startswith_cons (a b : ascii) (p s : string) :
  startswith (String a p) (String b s)
  = if Ascii.eqb a b then startswith p s else false.
Proof. done. Qed.

Lemma startswith_app (p s : string) : startswith p (p +:+ s) = true.
Proof.
  induction p as [|a p IH]; [done|].
  rewrite app_cons, startswith_cons, Ascii.eqb_refl. done.
Qed.

Lemma startswith_spec (p s : string) :
  startswith p s = true ↔ ∃ t, s = p +:+ t.
Proof.
  split.
  - revert s. induction p as [|a p IH]; intros s H; [by exists s|].
    destruct s as [|b s]; [done|]. rewrite startswith_cons in H.
    destruct (Ascii.eqb_spec a b) as [->|]; [|done].
    destruct (IH s H) as [t ->]. by exists t.
  - intros [t ->]. apply startswith_app.
Qed.

Lemma startswith_drop (p s : string) :
  startswith p s = true → s = p +:+ drop (len p) s.
Proof. intros [t ->]%startswith_spec. by rewrite drop_app. Qed.

(** Only the first [len p] characters are read. *)
Lemma startswith_longer (p s t : string) :
  len p ≤ len s → startswith p (s +:+ t) = startswith p s.
Proof.
  revert s. induction p as [|a p IH]; intros s H; [done|].
  destruct s as [|b s]; [rewrite len_cons in H; unfold len in H; simpl in H; lia|].
  rewrite app_cons, !startswith_cons. destruct (Ascii.eqb a b); [|done].
  apply IH. rewrite !len_cons in H. lia.
Qed.

Lemma forallb_cons (p : ascii → bool) (a : ascii) (s : string) :
  forallb p (String a s) = p a && forallb p s.
Proof. done. Qed.

Lemma forallb_app (p : ascii → bool) (s t : string) :
  forallb p (s +:+ t) = forallb p s && forallb p t.
Proof.
  induction s as [|a s IH]; [done|].
  rewrite app_cons, !forallb_cons, IH, andb_assoc. done.
Qed.

Lemma forallb_filter (p : ascii → bool) (s : string) : forallb p (filter p s) = true.
Proof.
  induction s as [|a s IH]; [done|]. simpl. destruct (p a) eqn:Hp; [|done].
  rewrite forallb_cons, Hp, IH. done.
Qed.

Lemma filter_id (p : ascii → bool) (s : string) : forallb p s = true → filter p s = s.
Proof.
  induction s as [|a s IH]; [done|]. rewrite forallb_cons.
  intros [Ha Hs]%andb_prop. simpl. by rewrite Ha, IH.
Qed.

Lemma len_filter (p : ascii → bool) (s : string) : len (filter p s) ≤ len s.
Proof.
  induction s as [|a s IH]; [done|]. simpl. destruct (p a); rewrite !len_cons; lia.
Qed.

End PyStrFacts.
Import PyStrFacts.

(** ** The matcher *)
Module ReFacts.

Lemma suffix_of_refl (s : string) : suffix_of s s.
Proof. by exists "". Qed.

Lemma suffix_of_trans (s1 s2 s3 : string) :
  suffix_of s1 s2 → suffix_of s2 s3 → suffix_of s1 s3.
Proof. intros [p ->] [q ->]. exists (q +:+ p). by rewrite app_assoc. Qed.

Lemma suffix_of_cons (a : ascii) (s : string) : suffix_of s (String a s).
Proof. by exists (String a ""). Qed.

Lemma suffix_of_len (s' s : string) : suffix_of s' s → len s' ≤ len s.
Proof. intros [p ->]. rewrite len_app. lia. Qed.

Lemma suffix_of_drop (s' s : string) :
  suffix_of s' s → s' = drop (len s - len s') s.
Proof.
  intros [p ->]. rewrite len_app.
  replace (len p + len s' - len s') with (len p) by lia.
  by rewrite drop_app.
Qed.

Lemma consumed_app (p s : string) : consumed (p +:+ s) s = p.
Proof.
  unfold consumed. rewrite len_app.
  replace (len p + len s - len s) with (len p) by lia.
  apply take_app.
Qed.

Section Run.
Context {R : Type}.
Implicit Types (k : string → caps → option R) (s : string) (c : caps).

Lemma run_seq r1 r2 s c k :
  run (Seq r1 r2) s c k = run r1 s c (λ s' c', run r2 s' c' k).
Proof. done. Qed.

Lemma run_group n r s c k :
  run (Group n r) s c k = run r s c (λ s' c', k s' ((n, consumed s s') :: c')).
Proof. done. Qed.

Lemma run_alt r1 r2 s c k :
  run (Alt r1 r2) s c k
  = match run r1 s c k with Some x => Some x | None => run r2 s c k end.
Proof. done. Qed.

Lemma run_chr p s c k :
  run (Chr p) s c k
  = match s with String a s' => if p a then k s' c else None | "" => None end.
Proof. done. Qed.

(** A literal is read off the front of the text, or the match fails. *)
Lemma run_lit t s c k :
  run (lit t) s c k = if startswith t s then k (drop (len t) s) c else None.
Proof.
  revert s. induction t as [|a t IH]; intros s; [done|].
  assert (run (lit (String a t)) s c k
          = run (Chr (eqc a)) s c (λ s' c', run (lit t) s' c' k)) as ->.
  { destruct t; [|done]. simpl. by destruct s. }
  rewrite run_chr. destruct s as [|b s]; [done|].
  rewrite startswith_cons. unfold eqc. destruct (Ascii.eqb a b); [|done].
  rewrite IH. done.
Qed.

Lemma run_lit_app t s c k : run (lit t) (t +:+ s) c k = k s c.
Proof. by rewrite run_lit, startswith_app, drop_app. Qed.

(** Repetition of a character class, greedy and lazy. *)
Lemma run_star_chr p s c k :
  run (Star true (Chr p)) s c k = greedy_chr p s c k.
Proof.
  simpl. generalize (Nat.le_refl (len s)). generalize (len s) at 2 3 as fuel.
  intros fuel. revert s c. induction fuel as [|fuel IH]; intros s c Hf.
  - assert (s = "") as -> by (apply len_0; lia). done.
  - destruct s as [|a s]; [done|]. simpl. destruct (p a); [|done].
    rewrite len_cons in Hf |- *.
    replace (len s <? S (len s)) with true by (symmetry; apply Nat.ltb_lt; lia).
    rewrite IH by lia. done.
Qed.

Lemma run_lazy_chr p s c k :
  run (Star false (Chr p)) s c k = lazy_chr p s c k.
Proof.
  simpl. generalize (Nat.le_refl (len s)). generalize (len s) at 2 3 as fuel.
  intros fuel. revert s c. induction fuel as [|fuel IH]; intros s c Hf.
  - assert (s = "") as -> by (apply len_0; lia). simpl. by destruct (k "" c).
  - destruct s as [|a s]; [simpl; by destruct (k "" c)|]. simpl.
    destruct (k (String a s) c); [done|]. destruct (p a); [|done].
    rewrite len_cons in Hf |- *.
    replace (len s <? S (len s)) with true by (symmetry; apply Nat.ltb_lt; lia).
    rewrite IH by lia. done.
Qed.


(** Whatever the continuation is handed is a suffix of the text. *)
Lemma run_suffix r s c k x :
  run r s c k = Some x → ∃ s' c', suffix_of s' s ∧ k s' c' = Some x.
Proof.
  revert s c k x.
  induction r as [|p|r1 IH1 r2 IH2|r1 IH1 r2 IH2|g r IH|n r IH|];
    intros s c k x H.
  - exists s, c. split; [apply suffix_of_refl|done].
  - rewrite run_chr in H. destruct s as [|a s]; [done|].
    destruct (p a); [|done]. exists s, c. split; [apply suffix_of_cons|done].
  - rewrite run_seq in H. apply IH1 in H as (s1 & c1 & Hs1 & H).
    apply IH2 in H as (s2 & c2 & Hs2 & H). exists s2, c2.
    split; [by eapply suffix_of_trans|done].
  - rewrite run_alt in H. destruct (run r1 s c k) eqn:H1.
    + inversion H; subst. by apply IH1 in H1.
    + by apply IH2 in H.
  - simpl in H. revert H. generalize (len s) at 1 as fuel. intros fuel.
    revert s c x. induction fuel as [|fuel IHf]; intros s c x H.
    + exists s, c. split; [apply suffix_of_refl|done].
    + assert (∀ y, run r s c (λ s' c',
                if len s' <? len s
                then (fix loop (fuel : nat) (s : string) (c : caps) {struct fuel} :=
                        match fuel with
                        | 0 => k s c
                        | S fuel' =>
                            let more :=
                              run r s c (λ s' c',
                                if len s' <? len s then loop fuel' s' c' else None) in
                            if g then
                              match more with Some x => Some x | None => k s c end
                            else
                              match k s c with Some x => Some x | None => more end
                        end) fuel s' c'
                else None) = Some y →
              ∃ s' c', suffix_of s' s ∧ k s' c' = Some y) as Hmore.
      { intros y Hy. apply IH in Hy as (s1 & c1 & Hs1 & Hy).
        destruct (len s1 <? len s); [|done].
        apply IHf in Hy as (s2 & c2 & Hs2 & Hy). exists s2, c2.
        split; [by eapply suffix_of_trans|done]. }
      cbv zeta in H. destruct g.
      * match type of H with
        | match ?m with _ => _ end = _ => destruct m eqn:Hm
        end.
        -- inversion H; subst. by apply Hmore.
        -- exists s, c. split; [apply suffix_of_refl|done].
      * destruct (k s c) eqn:Hk.
        -- exists s, c. split; [apply suffix_of_refl|]. by rewrite Hk.
        -- by apply Hmore.
  - rewrite run_group in H. apply IH in H as (s1 & c1 & Hs1 & H). eauto.
  - simpl in H. case_decide; [|done]. exists s, c.
    split; [apply suffix_of_refl|done].
Qed.

End Run.

Lemma accept_false (s0 s' : string) (c : caps) : accept false s0 s' c = Some (s', c).
Proof. done. Qed.

(** A match ends inside the text it started in. *)
Lemma run_accept_suffix r s s' c :
  run r s [] (accept false s) = Some (s', c) → suffix_of s' s.
Proof.
  intros (s1 & c1 & Hs & H)%run_suffix. rewrite accept_false in H.
  by inversion H; subst.
Qed.

(** [scan] returns the first suffix from which the pattern matches. *)
Lemma scan_some r i s j s1 s2 c :
  scan r false i s = Some (j, s1, s2, c) →
  ∃ pre, s = pre +:+ s1 ∧ j = i + len pre
    ∧ run r s1 [] (accept false s1) = Some (s2, c)
    ∧ ∀ p1 p2, pre = p1 +:+ p2 → p2 ≠ "" →
        run r (p2 +:+ s1) [] (accept false (p2 +:+ s1)) = None.
Proof.
  revert i. induction s as [|a s IH]; intros i H.
  - simpl in H. destruct (run r "" [] (accept false "")) as [[s' c']|] eqn:Hr; [|done].
    inversion H; subst. exists "". split_and!; [done|by rewrite Nat.add_0_r|done|].
    intros [|??] [|??] ??; done.
  - simpl in H.
    destruct (run r (String a s) [] (accept false (String a s))) as [[s' c']|] eqn:Hr.
    + inversion H; subst. exists "". split_and!; [done|by rewrite Nat.add_0_r|done|].
      intros [|??] [|??] ??; done.
    + apply IH in H as (pre & -> & -> & Hrun & Hpre).
      exists (String a pre). split_and!; [done|rewrite len_cons; lia|done|].
      intros p1 p2 Hp Hne. destruct p1 as [|b p1].
      * rewrite app_nil_l in Hp. subst p2. by rewrite app_cons.
      * rewrite app_cons in Hp. inversion Hp; subst. by apply (Hpre p1 p2).
Qed.

Lemma scan_none r i s :
  scan r false i s = None →
  ∀ p1 p2, s = p1 +:+ p2 → run r p2 [] (accept false p2) = None.
Proof.
  revert i. induction s as [|a s IH]; intros i H p1 p2 Hp.
  - destruct p1; [|done]. rewrite app_nil_l in Hp. subst p2. simpl in H.
    by destruct (run r "" [] (accept false "")) as [[??]|].
  - simpl in H.
    destruct (run r (String a s) [] (accept false (String a s))) as [[s' c']|] eqn:Hr;
      [done|].
    destruct p1 as [|b p1].
    + rewrite app_nil_l in Hp. by subst p2.
    + rewrite app_cons in Hp. inversion Hp; subst. by eapply IH.
Qed.

(** Conversely, a prefix from which the pattern never matches is skipped. *)
Lemma scan_skip r i pre s s2 c :
  (∀ p1 p2, pre = p1 +:+ p2 → p2 ≠ "" →
     run r (p2 +:+ s) [] (accept false (p2 +:+ s)) = None) →
  run r s [] (accept false s) = Some (s2, c) →
  scan r false i (pre +:+ s) = Some (i + len pre, s, s2, c).
Proof.
  revert i. induction pre as [|a pre IH]; intros i Hpre Hrun.
  - rewrite app_nil_l, Nat.add_0_r. destruct s; simpl; by rewrite Hrun.
  - rewrite app_cons. simpl. rewrite <-app_cons, (Hpre "" (String a pre)) by done.
    rewrite IH; [by rewrite len_cons, Nat.add_succ_r| |done].
    intros p1 p2 -> Hne. by apply (Hpre (String a p1) p2).
Qed.

End ReFacts.
Import ReFacts.

(** ** Searching *)
Module SearchFacts.

Lemma drop_app_le (n : nat) (p s : string) :
  n ≤ len p → drop n (p +:+ s) = drop n p +:+ s.
Proof.
  revert p. induction n as [|n IH]; intros p H; [by destruct p|].
  destruct p as [|a p]; [rewrite len_cons in H || (unfold len in H; simpl in H); lia|].
  rewrite app_cons, !drop_S. apply IH. rewrite len_cons in H. lia.
Qed.

Lemma drop_nonempty (n : nat) (p : string) : n < len p → drop n p ≠ "".
Proof.
  intros H Hd. pose proof (len_drop n p) as Hl. rewrite Hd in Hl.
  unfold len at 1 in Hl. simpl in Hl. lia.
Qed.

Lemma search_some r text pos m :
  search r text pos = Some m → pos ≤ len text → first_match r text pos m.
Proof.
  unfold search. intros H Hpos. rewrite Nat.min_l in H by done.
  destruct (scan r false pos (drop pos text)) as [[[[j s1] s2] c]|] eqn:Hs; [|done].
  inversion H; subst; clear H. simpl.
  apply scan_some in Hs as (pre & Hd & -> & Hrun & Hpre).
  pose proof (run_accept_suffix _ _ _ _ Hrun) as Hsuf%suffix_of_len.
  pose proof (len_drop pos text) as Hl. rewrite Hd, len_app in Hl.
  assert (drop (pos + len pre) text = s1) as Hd1.
  { by rewrite <-drop_drop, Hd, drop_app. }
  unfold first_match, match_at. simpl. split_and!; [lia|lia|lia| |].
  - by rewrite Hd1, Hrun.
  - intros j Hj.
    replace (drop j text) with (drop (j - pos) (drop pos text))
      by (rewrite drop_drop; f_equal; lia).
    rewrite Hd, drop_app_le by lia.
    rewrite (Hpre (take (j - pos) pre) (drop (j - pos) pre)); [done| |].
    + by rewrite take_drop.
    + apply drop_nonempty. lia.
Qed.

Lemma search_none r text pos :
  search r text pos = None → pos ≤ len text → no_match r text pos.
Proof.
  unfold search. intros H Hpos. rewrite Nat.min_l in H by done.
  destruct (scan r false pos (drop pos text)) as [[[[j s1] s2] c]|] eqn:Hs; [done|].
  intros j Hj. unfold match_at.
  rewrite (scan_none _ _ _ Hs (take (j - pos) (drop pos text)) (drop j text)); [done|].
  replace (drop j text) with (drop (j - pos) (drop pos text))
    by (rewrite drop_drop; f_equal; lia).
  by rewrite take_drop.
Qed.

Lemma slice_split (i j : nat) (s : string) :
  i ≤ j → s = take i s +:+ slice i j s +:+ drop j s.
Proof.
  intros H. unfold slice.
  replace (drop j s) with (drop (j - i) (drop i s))
    by (rewrite drop_drop; f_equal; lia).
  by rewrite !take_drop.
Qed.

End SearchFacts.
Import SearchFacts.

(** ** The download of one file *)
Module DownloadFacts.

Lemma bind_ok {A B} (m : M A) (k : A → M B) (w w' : world) (a : A) :
  m w = (Ok a, w') → (m ≫= k) w = k a w'.
Proof. intros H. unfold mbind, M_bind, bind. by rewrite H. Qed.

Lemma bind_raise {A B} (m : M A) (k : A → M B) (w w' : world) (e : exn) :
  m w = (Raise e, w') → (m ≫= k) w = (Raise e, w').
Proof. intros H. unfold mbind, M_bind, bind. by rewrite H. Qed.

Lemma opener_open_ok (E : env) (url : string) (r : response) (w : world) :
  net E url = Some r →
  opener_open E url w
  = (Ok r, {| fs := fs w; trace := trace w ++ [EvOpen url] |}).
Proof.
  intros H. unfold opener_open. unfold mbind, M_bind, bind, emit. simpl.
  by rewrite H.
Qed.

Ltac unfold_monad :=
  unfold mbind, M_bind, bind, mret, M_ret, some_or, ret, raise; cbn beta iota.

(** Reading the headers leaves the world as it is. *)
Lemma get_filename_world (E : env) (r : response) (name : string) (w w' : world) x :
  get_filename E r name w = (x, w') → w' = w ∧ ∀ v, get_filename E r name v = (x, v).
Proof.
  unfold get_filename. unfold_monad.
  destruct (content_disposition r) as [cd|]; cbn beta iota.
  - destruct (search fn_re cd 0); cbn beta iota; intros H; inversion H;
      (split; [reflexivity|intros; reflexivity]).
  - intros H. inversion H. split; [reflexivity|intros; reflexivity].
Qed.

Lemma get_content_type_world (r : response) (w w' : world) x :
  get_content_type r w = (x, w') → w' = w ∧ ∀ v, get_content_type r v = (x, v).
Proof.
  unfold get_content_type. unfold_monad.
  destruct (content_type r) as [ct|]; cbn beta iota.
  - destruct (search content_re ct 0); cbn beta iota; intros H; inversion H;
      (split; [reflexivity|intros; reflexivity]).
  - intros H. inversion H. split; [reflexivity|intros; reflexivity].
Qed.

End DownloadFacts.
Import DownloadFacts.

(** ** Repetition of a character class on a text of known shape *)
Module StarFacts.

Section Chr.
Context {R : Type}.
Implicit Types (k : string → caps → option R) (s : string) (c : caps).

Lemma lazy_chr_here p s c k x : k s c = Some x → lazy_chr p s c k = Some x.
Proof. intros H. destruct s; simpl; by rewrite H. Qed.

(** A lazy repetition walks over a run on which the continuation
    fails. *)
Lemma lazy_chr_skip p b rest c k :
  forallb p b = true →
  (∀ b1 b2, b = b1 +:+ b2 → b2 ≠ "" → k (b2 +:+ rest) c = None) →
  lazy_chr p (b +:+ rest) c k = lazy_chr p rest c k.
Proof.
  induction b as [|a b IH]; intros Hp Hk; [done|].
  rewrite forallb_cons in Hp. apply andb_prop in Hp as [Ha Hb].
  rewrite app_cons. simpl. rewrite <-app_cons, (Hk "" (String a b)) by done.
  rewrite Ha. apply IH; [done|].
  intros b1 b2 -> Hne. by apply (Hk (String a b1) b2).
Qed.

(** A greedy repetition fails when the continuation fails after every
    prefix in the class. *)
Lemma greedy_chr_none p s c k :
  (∀ s1 s2, s = s1 +:+ s2 → forallb p s1 = true → k s2 c = None) →
  greedy_chr p s c k = None.
Proof.
  induction s as [|a s IH]; intros Hk.
  - by apply (Hk "" "").
  - simpl. destruct (p a) eqn:Ha.
    + rewrite IH.
      * by apply (Hk "" (String a s)).
      * intros s1 s2 -> Hs1. apply (Hk (String a s1) s2); [done|].
        by rewrite forallb_cons, Ha, Hs1.
    + by apply (Hk "" (String a s)).
Qed.

(** A greedy repetition takes a whole run when the continuation
    accepts what follows it. *)
Lemma greedy_chr_all p e rest c k x :
  forallb p e = true →
  match rest with String a _ => p a = false | "" => True end →
  k rest c = Some x →
  greedy_chr p (e +:+ rest) c k = Some x.
Proof.
  induction e as [|a e IH]; intros Hp Hrest Hk.
  - rewrite app_nil_l. destruct rest as [|b rest]; [done|]. simpl.
    by rewrite Hrest.
  - rewrite forallb_cons in Hp. apply andb_prop in Hp as [Ha He].
    rewrite app_cons. simpl. by rewrite Ha, IH.
Qed.

End Chr.

(** A prefix in the class stops before a character outside it. *)
Lemma app_split_class (p : ascii → bool) (s1 s2 b : string) (a : ascii) (t : string) :
  s1 +:+ s2 = b +:+ String a t → forallb p s1 = true → p a = false →
  ∃ b', b = s1 +:+ b' ∧ s2 = b' +:+ String a t.
Proof.
  revert b. induction s1 as [|x s1 IH]; intros b H Hp Ha.
  - exists b. by rewrite app_nil_l in H.
  - rewrite forallb_cons in Hp. apply andb_prop in Hp as [Hx Hs1].
    destruct b as [|y b].
    + rewrite app_nil_l, app_cons in H. inversion H; subst. congruence.
    + rewrite !app_cons in H. inversion H; subst.
      destruct (IH b) as (b' & -> & ->); [done..|]. by exists b'.
  Qed.

(** The first occurrence of [needle] in [pre +:+ needle] being the final
    one, no earlier position starts with it. *)
Lemma find_from_some (i : nat) (needle hay : string) (j : nat) :
  find_from i needle hay = Some j →
  ∀ p1 p2, hay = p1 +:+ p2 → i + len p1 < j → startswith needle p2 = false.
Proof.
  revert i. induction hay as [|a hay IH]; intros i H p1 p2 Hp Hlt.
  - simpl in H. destruct (startswith needle "") eqn:Hs; [|done].
    inversion H; subst. lia.
  - simpl in H. destruct (startswith needle (String a hay)) eqn:Hs.
    + inversion H; subst. lia.
    + destruct p1 as [|b p1].
      * rewrite app_nil_l in Hp. by subst.
      * rewrite app_cons in Hp. inversion Hp; subst.
        apply (IH (S i) H p1 p2); [done|]. rewrite len_cons in Hlt. lia.
Qed.

Lemma first_occurrence (needle pre rest : string) :
  find needle (pre +:+ needle) = Some (len pre) →
  ∀ p1 p2, pre = p1 +:+ p2 → p2 ≠ "" →
    startswith needle (p2 +:+ needle +:+ rest) = false.
Proof.
  intros H p1 p2 -> Hne.
  rewrite <-app_assoc, startswith_longer by (rewrite len_app; lia).
  apply (find_from_some 0 needle ((p1 +:+ p2) +:+ needle) _ H p1 (p2 +:+ needle)).
  - by rewrite app_assoc.
  - rewrite len_app. destruct p2; [done|]. rewrite len_cons. lia.
Qed.

End StarFacts.
Import StarFacts.

(** ** The file name in a Content-Disposition header *)
Module FilenameFacts.

Lemma free_of_app (p : ascii → bool) (s t : string) :
  free_of p (s +:+ t) = free_of p s && free_of p t.
Proof. apply forallb_app. Qed.

Lemma free_of_cons (p : ascii → bool) (a : ascii) (s : string) :
  free_of p (String a s) = negb (p a) && free_of p s.
Proof. done. Qed.

(** After a dot, [\w*] followed by the closing quote fails as long as the
    text up to the next dot holds no quote. *)
Lemma word_then_quote_none {R} (b t : string) (c : caps)
    (k : string → caps → option R) :
  free_of (eqc quote) b = true →
  greedy_chr word (b +:+ String "." t) c (λ s' c', run (lit dq) s' c' k) = None.
Proof.
  intros Hb. apply greedy_chr_none. intros s1 s2 Hs Hw.
  symmetry in Hs. apply app_split_class with (p := word) in Hs as (b' & -> & ->);
    [|done|by vm_compute].
  rewrite free_of_app in Hb. apply andb_prop in Hb as [_ Hb'].
  unfold dq. change (lit (String quote "")) with (Chr (eqc quote)). rewrite run_chr.
  destruct b' as [|y b'].
  - rewrite app_nil_l. by vm_compute.
  - rewrite app_cons. rewrite free_of_cons in Hb'. apply andb_prop in Hb' as [Hy _].
    by destruct (eqc quote y).
Qed.

(** The pattern read from the start of the file-name attribute. *)
Lemma fn_re_run (base ext post s0 : string) :
  free_of (eqc quote) base = true →
  forallb any base = true →
  forallb word ext = true →
  run fn_re (FN +:+ base +:+ "." +:+ ext +:+ dq +:+ post) [] (accept false s0)
  = Some (post, [(1, base)]).
Proof.
  intros Hq Hany Hw. unfold fn_re, seqs, FN, star, lazy_star.
  rewrite run_seq, run_lit_app.
  rewrite run_seq, run_group, run_lazy_chr.
  rewrite lazy_chr_skip; [|done|].
  - apply lazy_chr_here.
    rewrite run_seq, run_lit_app, run_seq, run_star_chr.
    erewrite greedy_chr_all; [reflexivity|done|by vm_compute|].
    unfold dq. change (lit (String quote "")) with (Chr (eqc quote)).
    rewrite app_cons, run_chr. change (eqc quote quote) with true. cbn beta iota.
    rewrite app_nil_l, accept_false.
    change (String quote post) with (dq +:+ post).
    by rewrite <-(app_assoc ext), <-(app_assoc "."), consumed_app.
  - intros b1 b2 -> Hne. rewrite run_seq, run_lit.
    destruct b2 as [|x b2]; [done|]. rewrite app_cons, startswith_cons.
    destruct (Ascii.eqb_spec "." x) as [<-|]; [|done].
    change (startswith "" ?s) with true. cbn beta iota.
    change (drop (len ".") (String "." ?s)) with s.
    rewrite run_seq, run_star_chr.
    rewrite free_of_app, free_of_cons in Hq.
    apply andb_prop in Hq as [_ [_ Hq]%andb_prop].
    change ("." +:+ ?s) with (String "." s).
    by apply word_then_quote_none.
Qed.

Lemma fn_re_search (pre base ext post : string) :
  find FN (pre +:+ FN) = Some (len pre) →
  free_of (eqc quote) base = true →
  forallb any base = true →
  forallb word ext = true →
  search fn_re (pre +:+ FN +:+ base +:+ "." +:+ ext +:+ dq +:+ post) 0
  = Some {| m_start := len pre;
            m_end := len (pre +:+ FN +:+ base +:+ "." +:+ ext +:+ dq);
            m_groups := [(1, base)] |}.
Proof.
  intros Hpre Hq Hany Hw. unfold search.
  rewrite Nat.min_0_l. change (drop 0 ?s) with s.
  erewrite scan_skip; [|..|by apply fn_re_run].
  - cbn beta iota. f_equal. f_equal. rewrite !len_app. lia.
  - intros p1 p2 Hp Hne. unfold fn_re, seqs. rewrite run_seq, run_lit.
    fold FN. by rewrite (first_occurrence FN pre _ Hpre p1 p2).
Qed.

End FilenameFacts.
Import FilenameFacts.

(** ** The form on a folder page *)
Module FolderFacts.

(** A literal that starts with a quote does not start a text that starts
    otherwise. *)
Lemma startswith_quote_free (t a : string) (x : ascii) (s : string) :
  negb (eqc quote x) = true → startswith (String quote t) (String x s) = false.
Proof.
  intros H. rewrite startswith_cons. unfold eqc in H. by destruct (Ascii.eqb quote x).
Qed.

(** From the hidden field on: the digits and the end of the tag. *)
Lemma folder_id_run (N post s0 : string) (c : caps) :
  N ≠ "" → forallb digit N = true →
  run (seqs [Group 2 (plus (Chr digit)); lit TAGEND]) (N +:+ TAGEND +:+ post) c
    (accept false s0)
  = Some (post, (2, N) :: c).
Proof.
  intros Hne Hd. unfold seqs, plus. rewrite run_seq, run_group, run_seq.
  destruct N as [|d N]; [done|]. rewrite forallb_cons in Hd.
  apply andb_prop in Hd as [Hd HN].
  rewrite app_cons at 1. rewrite run_chr, Hd, run_star_chr.
  erewrite greedy_chr_all; [reflexivity|done|by vm_compute|].
  rewrite run_lit_app, accept_false. by rewrite consumed_app.
Qed.

(** The pattern read from the start of the form tag. *)
Lemma folder_re_run (attrs A mid N post s0 : string) :
  forallb any attrs = true →
  find ACTION (attrs +:+ ACTION) = Some (len attrs) →
  forallb any A = true →
  free_of (eqc quote) A = true →
  forallb any mid = true →
  find IDVAL (mid +:+ IDVAL) = Some (len mid) →
  N ≠ "" → forallb digit N = true →
  run folder_re
    (FORM +:+ attrs +:+ ACTION +:+ A +:+ CLOSE +:+ mid +:+ IDVAL +:+ N
     +:+ TAGEND +:+ post) [] (accept false s0)
  = Some (post, [(2, N); (1, A)]).
Proof.
  intros Hattrs Hact HA HAq Hmid Hid HN HNd.
  unfold folder_re. fold FORM ACTION CLOSE IDVAL TAGEND.
  unfold lazy_star.
  change (seqs (?a :: ?b :: ?l)) with (Seq a (seqs (b :: l))).
  rewrite run_seq, run_lit_app.
  change (seqs (?a :: ?b :: ?l)) with (Seq a (seqs (b :: l))).
  rewrite run_seq, run_lazy_chr, lazy_chr_skip; [|done|].
  2:{ intros p1 p2 Hp Hne.
      change (seqs (?a :: ?b :: ?l)) with (Seq a (seqs (b :: l))).
      by rewrite run_seq, run_lit, (first_occurrence ACTION attrs _ Hact p1 p2). }
  apply lazy_chr_here.
  change (seqs (?a :: ?b :: ?l)) with (Seq a (seqs (b :: l))).
  rewrite run_seq, run_lit_app.
  change (seqs (?a :: ?b :: ?l)) with (Seq a (seqs (b :: l))).
  rewrite run_seq, run_group, run_lazy_chr, lazy_chr_skip; [|done|].
  2:{ intros a1 a2 -> Hne.
      change (seqs (?a :: ?b :: ?l)) with (Seq a (seqs (b :: l))).
      rewrite run_seq, run_lit. destruct a2 as [|x a2]; [done|].
      rewrite free_of_app, free_of_cons in HAq.
      apply andb_prop in HAq as [_ [Hx _]%andb_prop].
      rewrite app_cons. unfold CLOSE, dq at 1. rewrite app_cons.
      by rewrite startswith_quote_free. }
  apply lazy_chr_here.
  change (seqs (?a :: ?b :: ?l)) with (Seq a (seqs (b :: l))).
  rewrite run_seq, run_lit_app.
  change (seqs (?a :: ?b :: ?l)) with (Seq a (seqs (b :: l))).
  rewrite run_seq, run_lazy_chr, lazy_chr_skip; [|done|].
  2:{ intros p1 p2 Hp Hne.
      change (seqs (?a :: ?b :: ?l)) with (Seq a (seqs (b :: l))).
      by rewrite run_seq, run_lit, (first_occurrence IDVAL mid _ Hid p1 p2). }
  apply lazy_chr_here.
  change (seqs (?a :: ?b :: ?l)) with (Seq a (seqs (b :: l))).
  rewrite run_seq, run_lit_app.
  rewrite folder_id_run by done.
  do 3 f_equal.
  replace (A +:+ CLOSE +:+ mid +:+ IDVAL +:+ N +:+ TAGEND +:+ post)
    with (A +:+ (CLOSE +:+ mid +:+ IDVAL +:+ N +:+ TAGEND +:+ post)) by done.
  by rewrite consumed_app.
Qed.

Lemma folder_re_search (pre attrs A mid N post : string) :
  find FORM (pre +:+ FORM) = Some (len pre) →
  forallb any attrs = true →
  find ACTION (attrs +:+ ACTION) = Some (len attrs) →
  forallb any A = true →
  free_of (eqc quote) A = true →
  forallb any mid = true →
  find IDVAL (mid +:+ IDVAL) = Some (len mid) →
  N ≠ "" → forallb digit N = true →
  ∃ m, search folder_re
         (pre +:+ FORM +:+ attrs +:+ ACTION +:+ A +:+ CLOSE +:+ mid +:+ IDVAL
          +:+ N +:+ TAGEND +:+ post) 0 = Some m
       ∧ m_start m = len pre ∧ mgroup m 1 = Some A ∧ mgroup m 2 = Some N.
Proof.
  intros Hpre Hattrs Hact HA HAq Hmid Hid HN HNd. unfold search.
  rewrite Nat.min_0_l. change (drop 0 ?s) with s.
  erewrite scan_skip; [|..|by apply folder_re_run].
  - eexists. split; [reflexivity|]. done.
  - intros p1 p2 Hp Hne. unfold folder_re. fold FORM.
    change (seqs (?a :: ?b :: ?l)) with (Seq a (seqs (b :: l))).
    by rewrite run_seq, run_lit, (first_occurrence FORM pre _ Hpre p1 p2).
Qed.

End FolderFacts.
Import FolderFacts.

(** ** The indirection page of a file *)
Module FileFacts.

Lemma greedy_chr_accept (p : ascii → bool) (s s0 : string) (c : caps) :
  is_Some (greedy_chr p s c (accept false s0)).
Proof.
  induction s as [|a s IH]; [done|]. simpl. destruct (p a); [|done].
  by destruct IH as [x ->].
Qed.

(** [learn_url_re.match(url)] succeeds exactly on the URLs of the portal. *)
Lemma learn_url_match (url : string) :
  bool_decide (is_Some (rematch learn_url_re url)) = startswith LEARN url.
Proof.
  unfold rematch, learn_url_re, star. fold LEARN.
  rewrite run_seq, run_lit. destruct (startswith LEARN url).
  - rewrite run_star_chr.
    destruct (greedy_chr_accept any (drop (len LEARN) url) url []) as [[s' c] ->].
    by apply bool_decide_eq_true.
  - apply bool_decide_eq_false. by intros [? ?].
Qed.

Lemma bind_assoc {A B C} (m : M A) (f : A → M B) (g : B → M C) (w : world) :
  ((m ≫= f) ≫= g) w = (m ≫= (λ x, f x ≫= g)) w.
Proof. unfold mbind, M_bind, bind. by destruct (m w) as [[a|e] w']. Qed.

Lemma bind_ext {A B} (m : M A) (f g : A → M B) (w : world) :
  (∀ a v, f a v = g a v) → (m ≫= f) w = (m ≫= g) w.
Proof. intros H. unfold mbind, M_bind, bind. by destruct (m w) as [[a|e] w']. Qed.

Lemma bind_ret {A B} (a : A) (f : A → M B) (w : world) : (mret a ≫= f) w = f a w.
Proof. done. Qed.

(** The sentence with the link, read from its first word. *)
Lemma dl_url_re_search (pre L T post : string) :
  find CLICK (pre +:+ CLICK) = Some (len pre) →
  forallb any L = true →
  free_of (eqc quote) L = true →
  forallb any T = true →
  find PDFTAIL (T +:+ PDFTAIL) = Some (len T) →
  ∃ m, search dl_url_re (pre +:+ CLICK +:+ L +:+ TAGEND +:+ T +:+ PDFTAIL +:+ post) 0
       = Some m ∧ mgroup m 1 = Some L.
Proof.
  intros Hpre HL HLq HT Htail. unfold search.
  rewrite Nat.min_0_l. change (drop 0 ?s) with s.
  erewrite scan_skip with (s2 := post) (c := [(2, T); (1, L)]).
  - eexists. split; [reflexivity|]. done.
  - intros p1 p2 Hp Hne. unfold dl_url_re. fold CLICK.
    change (seqs (?a :: ?b :: ?l)) with (Seq a (seqs (b :: l))).
    by rewrite run_seq, run_lit, (first_occurrence CLICK pre _ Hpre p1 p2).
  - unfold dl_url_re, lazy_star. fold CLICK TAGEND PDFTAIL.
    change (seqs (?a :: ?b :: ?l)) with (Seq a (seqs (b :: l))).
    rewrite run_seq, run_lit_app.
    change (seqs (?a :: ?b :: ?l)) with (Seq a (seqs (b :: l))).
    rewrite run_seq, run_group, run_lazy_chr, lazy_chr_skip; [|done|].
    2:{ intros a1 a2 -> Hne.
        change (seqs (?a :: ?b :: ?l)) with (Seq a (seqs (b :: l))).
        rewrite run_seq, run_lit. destruct a2 as [|x a2]; [done|].
        rewrite free_of_app, free_of_cons in HLq.
        apply andb_prop in HLq as [_ [Hx _]%andb_prop].
        rewrite app_cons. unfold TAGEND, dq at 1. rewrite app_cons.
        by rewrite startswith_quote_free. }
    apply lazy_chr_here.
    change (seqs (?a :: ?b :: ?l)) with (Seq a (seqs (b :: l))).
    rewrite run_seq, run_lit_app.
    change (seqs (?a :: ?b :: ?l)) with (Seq a (seqs (b :: l))).
    rewrite run_seq, run_group, run_lazy_chr, lazy_chr_skip; [|done|].
    2:{ intros p1 p2 Hp Hne. cbn [seqs].
        by rewrite run_lit, (first_occurrence PDFTAIL T _ Htail p1 p2). }
    apply lazy_chr_here. cbn [seqs]. rewrite run_lit_app, accept_false.
    do 3 f_equal.
    + by rewrite consumed_app.
    + replace (L +:+ TAGEND +:+ T +:+ PDFTAIL +:+ post)
        with (L +:+ (TAGEND +:+ T +:+ PDFTAIL +:+ post)) by done.
      by rewrite consumed_app.
Qed.

End FileFacts.
Import FileFacts.

(** ** Paths *)
Module PathFacts.

(** *** Decimal numerals *)

Lemma pretty_N_char_digit (x : N) : digit (pretty_N_char x) = true.
Proof. unfold pretty_N_char. by repeat case_match. Qed.

Lemma pretty_N_go_digits (x : N) (s : string) :
  forallb digit s = true → forallb digit (pretty_N_go x s) = true.
Proof.
  revert s. induction (N.lt_wf_0 x) as [x _ IH]. intros s Hs.
  destruct (decide (x = 0%N)) as [->|Hx].
  - by rewrite pretty_N_go_0.
  - rewrite pretty_N_go_step by lia. apply IH.
    + apply N.div_lt; lia.
    + by rewrite forallb_cons, pretty_N_char_digit, Hs.
Qed.

Lemma str_digits (n : nat) : forallb digit (str n) = true.
Proof.
  unfold str, pretty, pretty_nat, pretty, pretty_N. case_decide; [done|].
  by apply pretty_N_go_digits.
Qed.

Lemma str_inj (i j : nat) : str i = str j → i = j.
Proof. apply pretty_nat_inj. Qed.

Lemma contains_cons (a b : ascii) (s : string) :
  contains a (String b s) = if Ascii.eqb a b then true else contains a s.
Proof. done. Qed.

Lemma contains_app (a : ascii) (s t : string) :
  contains a (s +:+ t) = contains a s || contains a t.
Proof.
  induction s as [|b s IH]; [done|]. rewrite app_cons, !contains_cons.
  destruct (Ascii.eqb a b); [done|]. apply IH.
Qed.

Lemma digits_no_slash (s : string) : forallb digit s = true → contains "/" s = false.
Proof.
  induction s as [|a s IH]; [done|]. rewrite forallb_cons.
  intros [Ha Hs]%andb_prop. rewrite contains_cons, IH by done.
  destruct (Ascii.eqb_spec "/" a) as [<-|]; [by vm_compute in Ha|done].
Qed.

(** The synthetic names are plain components. *)
Lemma rn_plain (i : nat) : plain ("rn" +:+ str i).
Proof.
  change ("rn" +:+ str i) with (String "r" (String "n" (str i))).
  split_and!; [done..|].
  rewrite !contains_cons. change (Ascii.eqb "/" "r") with false.
  change (Ascii.eqb "/" "n") with false. apply digits_no_slash, str_digits.
Qed.

(** *** Splitting and joining *)

Lemma split_cons (c a : ascii) (s : string) :
  split c (String a s)
  = if Ascii.eqb a c then "" :: split c s
    else match split c s with [] => [String a ""] | w :: ws => String a w :: ws end.
Proof. done. Qed.

Lemma split_nonempty (c : ascii) (s : string) : ∃ w ws, split c s = w :: ws.
Proof.
  destruct s as [|a s]; [by eexists _, _|]. rewrite split_cons.
  destruct (Ascii.eqb a c); [by eexists _, _|].
  destruct (split c s); by eexists _, _.
Qed.

Lemma split_sep (c : ascii) (s : string) : split c (String c s) = "" :: split c s.
Proof. by rewrite split_cons, Ascii.eqb_refl. Qed.

Lemma split_app_sep (c : ascii) (p s : string) :
  split c (p +:+ String c s) = split c p ++ split c s.
Proof.
  induction p as [|a p IH]; [by rewrite app_nil_l, split_sep|].
  rewrite app_cons, !split_cons, IH. destruct (Ascii.eqb a c); [done|].
  by destruct (split_nonempty c p) as (w & ws & ->).
Qed.

Lemma split_plain (c : ascii) (s : string) : contains c s = false → split c s = [s].
Proof.
  induction s as [|a s IH]; [done|]. rewrite split_cons, contains_cons.
  rewrite (Ascii.eqb_sym a c). destruct (Ascii.eqb c a); [done|].
  intros H. by rewrite IH.
Qed.

Lemma weight_app (l1 l2 : list string) : weight (l1 ++ l2) = weight l1 + weight l2.
Proof. induction l1 as [|c l1 IH]; [done|]. simpl. rewrite IH. lia. Qed.

Lemma weight_ne_le (l : list string) : weight_ne l ≤ weight l.
Proof. induction l as [|c l IH]; [done|]. simpl. case_bool_decide; lia. Qed.

Lemma weight_split (c : ascii) (s : string) : weight (split c s) = S (len s).
Proof.
  induction s as [|a s IH]; [done|]. rewrite split_cons. destruct (Ascii.eqb a c).
  - simpl. rewrite IH, len_cons. done.
  - destruct (split c s) as [|w ws]; simpl in *; rewrite !len_cons in *; lia.
Qed.

Lemma join_cons (sep x : string) (y : string) (l : list string) :
  join sep (x :: y :: l) = x +:+ sep +:+ join sep (y :: l).
Proof. done. Qed.

Lemma join_snoc (sep : string) (l : list string) (c : string) :
  l ≠ [] → join sep (l ++ [c]) = join sep l +:+ sep +:+ c.
Proof.
  induction l as [|x l IH]; [done|]. intros _. destruct l as [|y l].
  - done.
  - change ((x :: y :: l) ++ [c]) with (x :: (y :: l) ++ [c]).
    change ((y :: l) ++ [c]) with (y :: (l ++ [c])) at 1.
    rewrite join_cons. change (y :: l ++ [c]) with ((y :: l) ++ [c]).
    rewrite IH by done. rewrite join_cons. by rewrite !app_assoc.
Qed.

Lemma len_join (l : list string) : len (join "/" l) ≤ weight l.
Proof.
  induction l as [|x l IH]; [done|]. destruct l as [|y l].
  - simpl. lia.
  - rewrite join_cons, !len_app. change (weight (x :: y :: l)) with (S (len x) + weight (y :: l)).
    change (len "/") with 1. lia.
Qed.

Lemma len_join_ne (l : list string) : l ≠ [] → S (len (join "/" l)) = weight l.
Proof.
  induction l as [|x l IH]; [done|]. intros _. destruct l as [|y l].
  - simpl. lia.
  - rewrite join_cons, !len_app. change (weight (x :: y :: l)) with (S (len x) + weight (y :: l)).
    change (len "/") with 1. rewrite <-IH by done. lia.
Qed.

End PathFacts.
Import PathFacts.

(** ** Normalised paths *)
Module NormFacts.

Lemma weight_removelast (l : list string) : weight (removelast l) ≤ weight l.
Proof.
  induction l as [|x l IH]; [done|]. destruct l as [|y l]; [simpl; lia|].
  change (removelast (x :: y :: l)) with (x :: removelast (y :: l)).
  change (weight (x :: ?l')) with (S (len x) + weight l'). lia.
Qed.

Lemma norm_step_weight (n : nat) (acc : list string) (c : string) :
  weight (norm_step n acc c)
  ≤ weight acc + (if bool_decide (c = "") then 0 else S (len c)).
Proof.
  unfold norm_step. case_bool_decide as Hc; [simpl; lia|]. simpl.
  destruct (bool_decide (c = ".")); [lia|].
  destruct (_ || _ || _).
  - rewrite weight_app. simpl. lia.
  - pose proof (weight_removelast acc). lia.
Qed.

Lemma foldl_weight (n : nat) (l acc : list string) :
  weight (foldl (norm_step n) acc l) ≤ weight acc + weight_ne l.
Proof.
  revert acc. induction l as [|c l IH]; intros acc; [simpl; lia|].
  simpl. etrans; [apply IH|]. pose proof (norm_step_weight n acc c). lia.
Qed.

Lemma isabs_cons (p : string) : isabs p = true → ∃ t, p = String "/" t.
Proof. unfold isabs. intros [t ->]%startswith_spec. by exists t. Qed.

Lemma slashes_len (n : nat) : len (slashes n) = n.
Proof. induction n as [|n IH]; [done|]. simpl. by rewrite len_cons, IH. Qed.

(** The shape of [normpath] on an absolute path. *)
Lemma normpath_abs_shape (p : string) :
  isabs p = true →
  ∃ n l, (n = 1 ∨ n = 2) ∧ n = initial_slashes_of p
    ∧ l = foldl (norm_step n) [] (split "/" p)
    ∧ normpath p = slashes n +:+ join "/" l
    ∧ n + weight l ≤ S (len p) ∧ n ≤ len p.
Proof.
  intros Habs. destruct (isabs_cons p Habs) as [t ->].
  unfold normpath. rewrite bool_decide_eq_false_2 by done. cbv zeta.
  set (n := initial_slashes_of (String "/" t)).
  set (l := foldl (norm_step n) [] (split "/" (String "/" t))).
  exists n, l.
  assert (n = 1 ∧ weight_ne (split "/" (String "/" t)) ≤ S (len t)
          ∨ n = 2 ∧ weight_ne (split "/" (String "/" t)) ≤ len t ∧ 1 ≤ len t) as Hn.
  { unfold n, initial_slashes_of. rewrite split_sep.
    change (startswith "/" (String "/" t)) with true. cbn iota.
    destruct t as [|b t].
    - left. split; [done|]. simpl. lia.
    - change (startswith "//" (String "/" (String b t)))
        with (if Ascii.eqb "/" b then true else false).
      destruct (Ascii.eqb_spec "/" b) as [<-|Hb].
      + destruct (_ && _).
        * right. rewrite len_cons. split_and!; [done| |lia]. rewrite split_sep.
          change (weight_ne ("" :: "" :: ?l')) with (weight_ne l').
          etrans; [apply weight_ne_le|]. by rewrite weight_split.
        * left. split; [done|].
          change (weight_ne ("" :: ?l')) with (weight_ne l').
          etrans; [apply weight_ne_le|]. by rewrite weight_split.
      + left. split; [done|].
        change (weight_ne ("" :: ?l')) with (weight_ne l').
        etrans; [apply weight_ne_le|]. by rewrite weight_split. }
  assert (slashes n +:+ join "/" l ≠ "") as Hne.
  { destruct Hn as [[-> _]|[-> _]]; done. }
  rewrite bool_decide_eq_false_2 by done.
  pose proof (foldl_weight n (split "/" (String "/" t)) []) as Hw.
  fold l in Hw. rewrite len_cons. change (weight []) with 0 in Hw.
  split_and!; [by destruct Hn as [[? _]|[? _]]; [left|right]|done..| |];
    destruct Hn as [[? ?]|[? [? ?]]]; lia.
Qed.

(** Normalising an absolute path does not make it longer, and leaves it
    absolute. *)
Lemma normpath_len (p : string) : isabs p = true → len (normpath p) ≤ len p.
Proof.
  intros Habs.
  destruct (normpath_abs_shape p Habs) as (n & l & Hn & _ & _ & -> & Hw & Hle).
  rewrite len_app, slashes_len. destruct (decide (l = [])) as [->|Hl].
  - change (len (join "/" [])) with 0. lia.
  - pose proof (len_join_ne l Hl). lia.
Qed.

Lemma normpath_isabs (p : string) : isabs p = true → isabs (normpath p) = true.
Proof.
  intros Habs.
  destruct (normpath_abs_shape p Habs) as (n & l & Hn & _ & _ & -> & _).
  by destruct Hn as [->| ->].
Qed.

Lemma isabs_app (p s : string) : isabs p = true → isabs (p +:+ s) = true.
Proof. intros [t ->]%isabs_cons. done. Qed.

Lemma abspath_of_abs (cwd p : string) : isabs p = true → abspath cwd p = normpath p.
Proof. unfold abspath. by intros ->. Qed.

Lemma abspath_isabs (cwd p : string) : isabs cwd = true → isabs (abspath cwd p) = true.
Proof.
  intros Hcwd. unfold abspath. destruct (isabs p) eqn:Hp; [by apply normpath_isabs|].
  apply normpath_isabs. unfold join2. unfold isabs in Hp. rewrite Hp.
  destruct (_ || _); by apply isabs_app.
Qed.

Lemma abspath_len (cwd p : string) : isabs p = true → len (abspath cwd p) ≤ len p.
Proof. intros Hp. rewrite abspath_of_abs by done. by apply normpath_len. Qed.

Lemma isabs_take (n : nat) (p : string) :
  isabs p = true → 0 < n → isabs (take n p) = true.
Proof. intros [t ->]%isabs_cons Hn. by destruct n; [lia|]. Qed.

End NormFacts.
Import NormFacts.

(** ** A file directly below a folder *)
Module ChildFacts.

Lemma plain_cons (c : string) :
  plain c → ∃ x s, c = String x s ∧ Ascii.eqb "/" x = false.
Proof.
  intros (Hne & _ & _ & Hs). destruct c as [|x s]; [done|]. exists x, s.
  split; [done|]. rewrite contains_cons in Hs. by destruct (Ascii.eqb "/" x).
Qed.

Lemma norm_step_plain (n : nat) (acc : list string) (c : string) :
  plain c → norm_step n acc c = acc ++ [c].
Proof.
  intros (H1 & H2 & H3 & _). unfold norm_step.
  rewrite (bool_decide_eq_false_2 (c = "")), (bool_decide_eq_false_2 (c = ".")) by done.
  by rewrite (bool_decide_eq_true_2 (c ≠ "..")) by done.
Qed.

Lemma initial_slashes_child (p c c' : string) :
  plain c → plain c' →
  initial_slashes_of (p +:+ "/" +:+ c) = initial_slashes_of (p +:+ "/" +:+ c').
Proof.
  intros (x & s & -> & Hx)%plain_cons (x' & s' & -> & Hx')%plain_cons.
  unfold initial_slashes_of.
  destruct p as [|a [|b [|d p]]];
    repeat (rewrite ?app_cons, ?app_nil_l, ?startswith_cons);
    change ("/" +:+ ?t) with (String "/" t);
    repeat (rewrite ?app_cons, ?app_nil_l, ?startswith_cons);
    change (startswith "" ?t) with true;
    rewrite ?Ascii.eqb_refl, ?Hx, ?Hx'; done.
Qed.

Lemma str_app_eq_nil (s t : string) : s +:+ t = "" → s = "" ∧ t = "".
Proof. destruct s; [by rewrite app_nil_l|done]. Qed.

Lemma join_snoc_ne (l : list string) (c : string) : c ≠ "" → join "/" (l ++ [c]) ≠ "".
Proof.
  intros Hc. destruct (decide (l = [])) as [->|Hl]; [done|].
  rewrite join_snoc by done. intros [_ [_ ?]%str_app_eq_nil]%str_app_eq_nil. done.
Qed.

(** The normal form of [p/c] is the normal form of [p] followed by [c]. *)
Lemma normpath_child (p c : string) :
  plain c →
  normpath (p +:+ "/" +:+ c)
  = let n := initial_slashes_of (p +:+ "/" +:+ c) in
    slashes n +:+ join "/" (foldl (norm_step n) [] (split "/" p) ++ [c]).
Proof.
  intros Hc. unfold normpath.
  rewrite bool_decide_eq_false_2
    by (intros [_ ?]%str_app_eq_nil; done).
  cbv zeta. change ("/" +:+ c) with (String "/" c).
  rewrite split_app_sep, (split_plain "/" c) by apply Hc.
  rewrite foldl_app. simpl. rewrite norm_step_plain by done.
  rewrite bool_decide_eq_false_2; [done|].
  intros [_ H]%str_app_eq_nil. revert H. apply join_snoc_ne, Hc.
Qed.

Lemma normpath_child_inj (p c c' : string) :
  plain c → plain c' →
  normpath (p +:+ "/" +:+ c) = normpath (p +:+ "/" +:+ c') → c = c'.
Proof.
  intros Hc Hc'. rewrite !normpath_child by done. cbv zeta.
  rewrite (initial_slashes_child p c c') by done.
  set (n := initial_slashes_of _). set (l := foldl _ _ _).
  intros H%(inj (String.app _)). destruct (decide (l = [])) as [Hl|Hl].
  - by rewrite Hl in H.
  - rewrite !join_snoc in H by done.
    by apply (inj (String.app _)), (inj (String.app _)) in H.
Qed.

Lemma normpath_child_not_root (p c : string) : plain c → normpath (p +:+ "/" +:+ c) ≠ "/".
Proof.
  intros Hc. rewrite normpath_child by done. cbv zeta.
  set (n := initial_slashes_of _). set (l := foldl _ _ _). intros H.
  pose proof (join_snoc_ne l c (proj1 Hc)) as Hj.
  assert (len (slashes n +:+ join "/" (l ++ [c])) = 1) as Hlen by (by rewrite H).
  rewrite len_app, slashes_len in Hlen.
  destruct (join "/" (l ++ [c])) as [|y t] eqn:Hjoin; [done|].
  rewrite len_cons in Hlen. assert (n = 0) as Hn by lia. rewrite Hn in H.
  rewrite app_nil_l in H. inversion H; subst.
  destruct Hc as (Hne & _ & _ & Hslash). clear Hj.
  destruct (decide (l = [])) as [Hl|Hl].
  - rewrite Hl in Hjoin. simpl in Hjoin. by subst c.
  - rewrite join_snoc in Hjoin by done.
    assert (len (join "/" l +:+ "/" +:+ c) = 1) as Hl1 by (by rewrite Hjoin).
    rewrite !len_app in Hl1. change (len "/") with 1 in Hl1.
    destruct c; [done|]. rewrite len_cons in Hl1. lia.
Qed.

(** Below a folder, [abspath] is [normpath] of a path that ends in the
    child's name. *)
Lemma abspath_child (cwd folder : string) :
  ∃ p, ∀ c, abspath cwd (folder +:+ "/" +:+ c) = normpath (p +:+ "/" +:+ c).
Proof.
  unfold abspath, isabs. destruct folder as [|a f].
  - exists "". intros c. done.
  - destruct (Ascii.eqb "/" a) eqn:Ha.
    + exists (String a f). intros c. by rewrite app_cons, startswith_cons, Ha.
    + unfold join2. destruct (bool_decide (cwd = "") || endswith_slash cwd).
      * exists (cwd +:+ String a f). intros c.
        by rewrite app_cons, startswith_cons, Ha, app_assoc.
      * exists (cwd +:+ "/" +:+ String a f). intros c.
        by rewrite app_cons, startswith_cons, Ha, !app_assoc.
Qed.

Lemma abspath_child_inj (cwd folder c c' : string) :
  plain c → plain c' →
  abspath cwd (folder +:+ "/" +:+ c) = abspath cwd (folder +:+ "/" +:+ c') → c = c'.
Proof.
  intros Hc Hc'. destruct (abspath_child cwd folder) as [p Hp].
  rewrite !Hp. by apply normpath_child_inj.
Qed.

Lemma abspath_child_not_root (cwd folder c : string) :
  plain c → abspath cwd (folder +:+ "/" +:+ c) ≠ "/".
Proof.
  intros Hc. destruct (abspath_child cwd folder) as [p Hp]. rewrite Hp.
  by apply normpath_child_not_root.
Qed.

End ChildFacts.
Import ChildFacts.

(** ** The counter of the synthetic names *)
Module RenameFacts.

Section WithEnv.
Context (E : env).
Implicit Types (m : gmap string node) (folder : string).

(** The loop stops at the first counter whose name is free. *)
Lemma next_free_some fuel m folder i j :
  next_free E fuel m folder i = Some j →
  i ≤ j ∧ exists_in E m (rn_path folder j) = false
  ∧ ∀ k, i ≤ k < j → exists_in E m (rn_path folder k) = true.
Proof.
  revert i. induction fuel as [|fuel IH]; intros i H; [done|]. simpl in H.
  fold (rn_path folder i) in H.
  destruct (exists_in E m (rn_path folder i)) eqn:Hi.
  - apply IH in H as (Hle & Hj & Hk). split_and!; [lia|done|].
    intros k Hik. destruct (decide (k = i)) as [->|]; [done|]. apply Hk. lia.
  - inversion H; subst. split_and!; [done..|]. intros k Hk. lia.
Qed.

Lemma next_free_none fuel m folder i :
  next_free E fuel m folder i = None →
  ∀ k, i ≤ k < i + fuel → exists_in E m (rn_path folder k) = true.
Proof.
  revert i. induction fuel as [|fuel IH]; intros i H k Hk; [lia|]. simpl in H.
  fold (rn_path folder i) in H.
  destruct (exists_in E m (rn_path folder i)) eqn:Hi; [|done].
  destruct (decide (k = i)) as [->|]; [done|]. apply (IH (i + 1)); [done|lia].
Qed.

Lemma rn_abspath_inj folder : Inj (=) (=) (λ i, abspath (cwd E) (rn_path folder i)).
Proof.
  intros i j H. apply abspath_child_inj in H; [|apply rn_plain..].
  by apply (inj (String.app "rn")), str_inj in H.
Qed.

Lemma exists_in_dom m folder i :
  exists_in E m (rn_path folder i) = true →
  abspath (cwd E) (rn_path folder i) ∈ dom m.
Proof.
  unfold exists_in, lookup_node. intros H%bool_decide_eq_true.
  rewrite bool_decide_eq_false_2 in H by apply abspath_child_not_root, rn_plain.
  by apply elem_of_dom.
Qed.

(** A finite file system leaves a name free: the loop of [downloadFile]
    comes to an end. *)
Lemma next_free_total m folder i : is_Some (next_free E (S (size m)) m folder i).
Proof.
  destruct (next_free E (S (size m)) m folder i) as [j|] eqn:H; [done|].
  exfalso. pose proof (next_free_none _ _ _ _ H) as Hall.
  set (f := λ k, abspath (cwd E) (rn_path folder k)).
  set (l := f <$> seq i (S (size m))).
  assert (NoDup l) as Hnd.
  { apply (@NoDup_fmap_2 _ _ f (rn_abspath_inj folder)), NoDup_seq. }
  assert (list_to_set l ⊆ dom m) as Hsub.
  { intros q [k [-> Hk%elem_of_seq]]%elem_of_list_to_set%list_elem_of_fmap.
    apply exists_in_dom, Hall. lia. }
  apply subseteq_size in Hsub.
  rewrite size_list_to_set, size_dom in Hsub by done.
  unfold l in Hsub. rewrite length_fmap, length_seq in Hsub. lia.
Qed.

End WithEnv.
End RenameFacts.
Import RenameFacts.

(** ** The two stages of the path sanitiser *)
Module SanitizerFacts.

Section WithEnv.
Context (E : env).

(** What [strip_names] does, case by case. *)
Lemma strip_names_inv folder fn dest w r w' :
  strip_names E folder fn dest w = (r, w') →
  match relpath (cwd E) dest with
  | None => r = Raise ValueError ∧ w' = w
  | Some rel_path =>
      match relpath (cwd E) (sub forbidden_fn_chars_re "" rel_path) with
      | None => r = Raise ValueError ∧ w' = w
      | Some rel_path2 =>
          if bool_decide (rel_path ≠ rel_path2) then
            fs w' = fs w
            ∧ trace w' = trace w ++
                [EvWarn (nl +:+ "Warning! The following characters cannot be used in file and folder names:");
                 EvWarn "    \ / : * ? < > |";
                 EvWarn ("The file named '" +:+ rel_path +:+ "' has been renamed to '"
                         +:+ rel_path2 +:+ "' accordingly." +:+ nl)]
            ∧ match relpath (cwd E) folder with
              | None => r = Raise ValueError
              | Some rel_dest_folder =>
                  let folder' :=
                    abspath (cwd E) (sub forbidden_fn_chars_re "" rel_dest_folder) in
                  let fn' := sub forbidden_fn_chars_re "" fn in
                  r = Ok (folder', fn', abspath (cwd E) (folder' +:+ "/" +:+ fn'))
              end
          else r = Ok (folder, fn, dest) ∧ w' = w
      end
  end.
Proof.
  unfold strip_names, mbind, M_bind, bind, mret, M_ret, some_or, eprint, emit.
  destruct (relpath (cwd E) dest) as [rel_path|]; unfold ret, raise;
    cbn beta iota; [|by intros [= <- <-]].
  destruct (relpath (cwd E) (sub forbidden_fn_chars_re "" rel_path)) as [rel_path2|];
    cbn beta iota; [|by intros [= <- <-]].
  case_bool_decide; cbn beta iota; [|by intros [= <- <-]].
  destruct (relpath (cwd E) folder) as [rdf|]; cbn beta iota; intros [= <- <-];
    cbn [fs trace]; by rewrite <-!(assoc_L (++)).
Qed.

(** [shorten] always returns, without touching the world. *)
Lemma shorten_inv folder fn dest ext w :
  ∃ t, shorten E folder fn dest ext w = (Ok t, w)
    ∧ t_orig_path t = dest
    ∧ t_dest_folder t
      = (if MAX_FOLDER_NAME_LEN <? len folder then take MAX_FOLDER_NAME_LEN folder
         else folder)
    ∧ let dest1 :=
        if MAX_FOLDER_NAME_LEN <? len folder
        then abspath (cwd E) (take MAX_FOLDER_NAME_LEN folder +:+ "/" +:+ fn)
        else dest in
      if MAX_FILE_NAME_LEN <? len dest1 then
        ∃ i, next_free E (S (size (fs w))) (fs w) (t_dest_folder t) 1 = Some i
          ∧ t_full_fn t = synthetic_name i ext
          ∧ t_dest t = abspath (cwd E) (t_dest_folder t +:+ "/" +:+ t_full_fn t)
      else t_full_fn t = fn ∧ t_dest t = dest1.
Proof.
  unfold shorten. cbv zeta.
  set (folder1 := if MAX_FOLDER_NAME_LEN <? len folder
                  then take MAX_FOLDER_NAME_LEN folder else folder).
  set (dest1 := if MAX_FOLDER_NAME_LEN <? len folder
                then abspath (cwd E) (take MAX_FOLDER_NAME_LEN folder +:+ "/" +:+ fn)
                else dest).
  assert ((if MAX_FOLDER_NAME_LEN <? len folder
           then (take MAX_FOLDER_NAME_LEN folder,
                 abspath (cwd E) (take MAX_FOLDER_NAME_LEN folder +:+ "/" +:+ fn))
           else (folder, dest)) = (folder1, dest1)) as ->.
  { unfold folder1, dest1. by destruct (_ <? _). }
  unfold mbind, M_bind, bind, mret, M_ret, some_or, get_fs.
  destruct (MAX_FILE_NAME_LEN <? len dest1) eqn:Hlen.
  - destruct (next_free_total E (fs w) folder1 1) as [i Hi].
    rewrite Hi. unfold ret. cbn beta iota.
    eexists. split; [reflexivity|]. cbn [t_orig_path t_dest_folder t_full_fn t_dest].
    split_and!; [done..|]. exists i. split_and!; [done..|].
    unfold synthetic_name. by destruct ext.
  - unfold ret. cbn beta iota. eexists. split; [reflexivity|].
    cbn [t_orig_path t_dest_folder t_full_fn t_dest]. done.
Qed.

Lemma shorten_folder_len folder fn dest ext w t w' :
  shorten E folder fn dest ext w = (Ok t, w') →
  len (t_dest_folder t) ≤ MAX_FOLDER_NAME_LEN.
Proof.
  destruct (shorten_inv folder fn dest ext w) as (t0 & -> & _ & Hf & _).
  intros [= <- <-]. rewrite Hf.
  destruct (MAX_FOLDER_NAME_LEN <? len folder) eqn:Hlt.
  - rewrite len_take. lia.
  - by apply Nat.ltb_ge in Hlt.
Qed.

(** The folder [strip_names] returns is absolute when the one it was
    given is. *)
Lemma strip_names_isabs folder fn dest w folder' fn' dest' w' :
  isabs (cwd E) = true → isabs folder = true →
  strip_names E folder fn dest w = (Ok (folder', fn', dest'), w') →
  isabs folder' = true.
Proof.
  intros Hcwd Hf H%strip_names_inv.
  destruct (relpath (cwd E) dest) as [rel_path|]; [|by destruct H].
  destruct (relpath (cwd E) _) as [rel_path2|]; [|by destruct H].
  case_bool_decide.
  - destruct H as (_ & _ & H). destruct (relpath (cwd E) folder); [|done].
    cbv zeta in H. inversion H; subst. by apply abspath_isabs.
  - destruct H as [[= <- <- <-] _]. done.
Qed.

End WithEnv.
End SanitizerFacts.
Import SanitizerFacts.

(** ** Substitution of a character class *)
Module SubFacts.

Lemma filter_app (p : ascii → bool) (s t : string) :
  filter p (s +:+ t) = filter p s +:+ filter p t.
Proof.
  induction s as [|a s IH]; [done|]. rewrite app_cons. simpl.
  destruct (p a); [by rewrite app_cons, IH|done].
Qed.

Lemma scan_unfold (r : regex) (adv : bool) (i : nat) (s : string) :
  scan r adv i s
  = match run r s [] (accept adv s) with
    | Some (s', c) => Some (i, s, s', c)
    | None => match s with "" => None | String _ t => scan r false (S i) t end
    end.
Proof. by destruct s. Qed.

(** [scan] stops at the first character of the class. *)
Lemma scan_chr (p : ascii → bool) (adv : bool) (i : nat) (s : string) :
  match scan (Chr p) adv i s with
  | None => forallb (cnot p) s = true
  | Some (_, s1, s2, _) =>
      ∃ pre a, s = pre +:+ s1 ∧ s1 = String a s2
               ∧ forallb (cnot p) pre = true ∧ p a = true
  end.
Proof.
  revert adv i. induction s as [|a s IH]; intros adv i; [done|].
  rewrite scan_unfold, run_chr. destruct (p a) eqn:Ha.
  - unfold accept. rewrite len_cons.
    replace (len s =? S (len s)) with false by (symmetry; apply Nat.eqb_neq; lia).
    rewrite andb_false_r. by exists "", a.
  - specialize (IH false (S i)).
    destruct (scan (Chr p) false (S i) s) as [[[[j s1] s2] c]|].
    + destruct IH as (pre & b & -> & -> & Hpre & Hb). exists (String a pre), b.
      split_and!; [done..| |done]. rewrite forallb_cons. unfold cnot at 1.
      by rewrite Ha.
    + rewrite forallb_cons. unfold cnot at 1. by rewrite Ha.
Qed.

Lemma pieces_chr (p : ascii → bool) (fuel : nat) (adv : bool) (s : string) :
  len s < fuel →
  foldr (λ pc acc, fst pc +:+ "" +:+ acc)
    (snd (pieces fuel (Chr p) adv s)) (fst (pieces fuel (Chr p) adv s))
  = filter (cnot p) s.
Proof.
  revert adv s. induction fuel as [|fuel IH]; intros adv s Hlen; [lia|].
  simpl. pose proof (scan_chr p adv 0 s) as Hscan.
  destruct (scan (Chr p) adv 0 s) as [[[[j s1] s2] c]|].
  - destruct Hscan as (pre & a & -> & -> & Hpre & Ha).
    specialize (IH (len s2 =? len (String a s2)) s2).
    destruct (pieces fuel (Chr p) _ s2) as [l tl]. simpl in *.
    rewrite IH by (rewrite len_app, len_cons in Hlen; lia).
    rewrite consumed_app, filter_app, (filter_id _ pre) by done. simpl.
    unfold cnot at 2. by rewrite Ha.
  - simpl. by rewrite filter_id.
Qed.

(** Substituting nothing for a class of characters filters them out. *)
Lemma sub_chr (p : ascii → bool) (s : string) : sub (Chr p) "" s = filter (cnot p) s.
Proof.
  unfold sub, all_pieces.
  pose proof (pieces_chr p (2 * len s + 2) false s) as H.
  destruct (pieces _ _ _ _) as [l tl]. apply H. lia.
Qed.

Lemma strip_free (s : string) :
  free_of forbidden (sub forbidden_fn_chars_re "" s) = true.
Proof. unfold forbidden_fn_chars_re. rewrite sub_chr. apply forallb_filter. Qed.

End SubFacts.
Import SubFacts.

(** ** Paths free of a class of characters *)
Module CleanFacts.

Section Class.
Context (p : ascii → bool) (Hslash : p "/"%char = false) (Hdot : p "."%char = false).

Local Abbreviation free := (λ s : string, free_of p s = true).

Lemma free_nil : free_of p "" = true.
Proof. done. Qed.

Lemma free_cons_iff (a : ascii) (s : string) :
  free_of p (String a s) = true ↔ p a = false ∧ free_of p s = true.
Proof.
  rewrite free_of_cons, andb_true_iff, negb_true_iff. done.
Qed.

Lemma free_app_iff (s t : string) :
  free_of p (s +:+ t) = true ↔ free_of p s = true ∧ free_of p t = true.
Proof. by rewrite free_of_app, andb_true_iff. Qed.

Lemma free_split (s : string) : free_of p s = true → Forall free (split "/" s).
Proof.
  induction s as [|a s IH]; [by repeat constructor|].
  intros [Ha Hs]%free_cons_iff. rewrite split_cons.
  specialize (IH Hs). destruct (Ascii.eqb a "/"); [by constructor|].
  destruct (split "/" s) as [|w ws]; [by repeat constructor; apply free_cons_iff|].
  inversion IH; subst. constructor; [by apply free_cons_iff|done].
Qed.

Lemma free_split_inv (s : string) : Forall free (split "/" s) → free_of p s = true.
Proof.
  induction s as [|a s IH]; [done|]. rewrite split_cons.
  destruct (Ascii.eqb_spec a "/") as [->|Hne].
  - intros H. inversion H; subst. apply free_cons_iff. auto.
  - destruct (split_nonempty "/" s) as (w & ws & Hw). rewrite Hw in *.
    intros H. inversion H as [|?? Haw Hws]; subst.
    apply free_cons_iff in Haw as [Ha Hfw].
    apply free_cons_iff. split; [done|]. apply IH. by constructor.
Qed.

Lemma Forall_lfilter {A} (P : A → Prop) (f : A → bool) (l : list A) :
  Forall P l → Forall P (List.filter f l).
Proof.
  induction 1 as [|x l Hx Hl IH]; [constructor|]. simpl.
  destruct (f x); [by constructor|done].
Qed.

Lemma free_parts (s : string) : free_of p s = true → Forall free (parts s).
Proof. intros H. by apply Forall_lfilter, free_split. Qed.

Lemma free_parts_inv (s : string) : Forall free (parts s) → free_of p s = true.
Proof.
  intros H. apply free_split_inv. unfold parts in H.
  induction (split "/" s) as [|c l IH]; [constructor|]. simpl in H.
  case_bool_decide as Hc; simpl in H.
  - subst c. constructor; [done|by apply IH].
  - inversion H; subst. constructor; [done|by apply IH].
Qed.

Lemma free_join (l : list string) : Forall free l → free_of p (join "/" l) = true.
Proof.
  induction 1 as [|x l Hx Hl IH]; [done|]. destruct l as [|y l]; [done|].
  rewrite join_cons. apply free_app_iff. split; [done|].
  apply free_app_iff. split; [|done]. apply free_cons_iff. done.
Qed.

Lemma free_join_inv (l : list string) : free_of p (join "/" l) = true → Forall free l.
Proof.
  induction l as [|x l IH]; [constructor|]. destruct l as [|y l].
  - intros H. by repeat constructor.
  - rewrite join_cons. intros [Hx [_ H]%free_app_iff]%free_app_iff.
    constructor; [done|by apply IH].
Qed.

Lemma free_slashes (n : nat) : free_of p (slashes n) = true.
Proof. induction n as [|n IH]; [done|]. simpl. by apply free_cons_iff. Qed.

Lemma Forall_removelast {A} (P : A → Prop) (l : list A) :
  Forall P l → Forall P (removelast l).
Proof.
  induction 1 as [|x l Hx Hl IH]; [constructor|]. destruct l as [|y l]; [constructor|].
  change (removelast (x :: y :: l)) with (x :: removelast (y :: l)). by constructor.
Qed.

Lemma norm_step_free (n : nat) (acc : list string) (c : string) :
  Forall free acc → free_of p c = true → Forall free (norm_step n acc c).
Proof.
  intros Hacc Hc. unfold norm_step. destruct (_ || _); [done|].
  destruct (_ || _ || _); [|by apply Forall_removelast].
  apply Forall_app. split; [done|]. by repeat constructor.
Qed.

Lemma foldl_norm_free (n : nat) (l acc : list string) :
  Forall free acc → Forall free l → Forall free (foldl (norm_step n) acc l).
Proof.
  revert acc. induction l as [|c l IH]; intros acc Hacc Hl; [done|].
  inversion Hl; subst. simpl. apply IH; [|done]. by apply norm_step_free.
Qed.

Lemma free_dot : free_of p "." = true.
Proof. by apply free_cons_iff. Qed.

(** Normalising a path brings in no character of the class. *)
Lemma normpath_free (s : string) : free_of p s = true → free_of p (normpath s) = true.
Proof.
  intros Hs. unfold normpath. case_bool_decide; [apply free_dot|]. cbv zeta.
  case_bool_decide; [apply free_dot|].
  apply free_app_iff. split; [apply free_slashes|].
  apply free_join, foldl_norm_free; [constructor|by apply free_split].
Qed.

Lemma abspath_free (cwd x : string) :
  free_of p cwd = true → free_of p x = true → free_of p (abspath cwd x) = true.
Proof.
  intros Hc Hx. unfold abspath. apply normpath_free. destruct (isabs x); [done|].
  unfold join2. destruct (startswith "/" x); [done|].
  destruct (_ || _).
  - by apply free_app_iff.
  - apply free_app_iff. split; [done|]. apply free_app_iff. split; [|done].
    by apply free_cons_iff.
Qed.

Lemma Forall_skipn {A} (P : A → Prop) (n : nat) (l : list A) :
  Forall P l → Forall P (List.skipn n l).
Proof.
  revert l. induction n as [|n IH]; intros l Hl; [done|].
  destruct l as [|x l]; [done|]. inversion Hl; subst. simpl. by apply IH.
Qed.

Lemma Forall_replicate_dotdot (k : nat) : Forall free (replicate k "..").
Proof.
  induction k as [|k IH]; [constructor|]. simpl. constructor; [|done].
  apply free_cons_iff. split; [done|]. apply free_dot.
Qed.

(** The relative form of a path free of the class is free of it. *)
Lemma relpath_free (cwd x r : string) :
  free_of p (abspath cwd x) = true → relpath cwd x = Some r → free_of p r = true.
Proof.
  intros Habs. unfold relpath. case_bool_decide; [done|]. cbv zeta.
  intros [= <-]. case_bool_decide; [apply free_dot|].
  apply free_join, Forall_app. split; [apply Forall_replicate_dotdot|].
  by apply Forall_skipn, free_parts.
Qed.

Lemma commonprefix_take (l1 l2 : list string) :
  List.firstn (commonprefix_len l1 l2) l2 = List.firstn (commonprefix_len l1 l2) l1.
Proof.
  revert l2. induction l1 as [|x l1 IH]; intros [|y l2]; try done.
  simpl. case_bool_decide; [|done]. subst. simpl. by rewrite IH.
Qed.

Lemma Forall_firstn {A} (P : A → Prop) (n : nat) (l : list A) :
  Forall P l → Forall P (List.firstn n l).
Proof.
  revert l. induction n as [|n IH]; intros l Hl; [constructor|].
  destruct l as [|x l]; [constructor|]. inversion Hl; subst. simpl.
  constructor; [done|by apply IH].
Qed.

(** Conversely: below a working directory free of the class, a path
    whose relative form is free of it is free of it. *)
Lemma relpath_free_inv (cwd x r : string) :
  free_of p cwd = true → relpath cwd x = Some r → free_of p r = true →
  free_of p (abspath cwd x) = true.
Proof.
  intros Hcwd. unfold relpath. case_bool_decide; [done|]. cbv zeta.
  set (start_list := parts (abspath cwd ".")).
  set (path_list := parts (abspath cwd x)).
  set (i := commonprefix_len start_list path_list).
  intros [= <-] Hr. apply free_parts_inv. fold path_list.
  rewrite <-(firstn_skipn i path_list). apply Forall_app. split.
  - unfold i. rewrite commonprefix_take. apply Forall_firstn, free_parts.
    apply abspath_free; [done|apply free_dot].
  - case_bool_decide as Hnil.
    + apply List.app_eq_nil in Hnil as [_ ->]. constructor.
    + apply free_join_inv, Forall_app in Hr. by destruct Hr.
Qed.

Lemma free_take (n : nat) (s : string) : free_of p s = true → free_of p (take n s) = true.
Proof.
  revert s. induction n as [|n IH]; intros [|a s]; try done.
  intros [Ha Hs]%free_cons_iff. rewrite take_S. apply free_cons_iff. auto.
Qed.

End Class.

(** The class of the program. *)
Lemma forbidden_slash : forbidden "/" = false.
Proof. done. Qed.

Lemma forbidden_dot : forbidden "." = false.
Proof. done. Qed.

Lemma digit_not_forbidden (a : ascii) : digit a = true → forbidden a = false.
Proof. destruct a as [[] [] [] [] [] [] [] []]; by vm_compute. Qed.

Lemma digits_free (s : string) : forallb digit s = true → free_of forbidden s = true.
Proof.
  induction s as [|a s IH]; [done|]. rewrite forallb_cons.
  intros [Ha Hs]%andb_prop. apply free_cons_iff. split; [|by apply IH].
  by apply digit_not_forbidden.
Qed.

Lemma synthetic_name_free (i : nat) (ext : option string) :
  (∀ e, ext = Some e → free_of forbidden e = true) →
  free_of forbidden (synthetic_name i ext) = true.
Proof.
  intros Hext. unfold synthetic_name.
  assert (free_of forbidden ("rn" +:+ str i) = true) as Hrn.
  { apply free_app_iff. split; [done|]. apply digits_free, str_digits. }
  destruct ext as [e|]; [|done].
  rewrite <-(app_assoc "rn" (str i)). apply free_app_iff. split; [done|].
  apply free_app_iff. split; [done|]. by apply Hext.
Qed.

End CleanFacts.
Import CleanFacts.

(** ** Normalising twice *)
Module IdemFacts.

Lemma split_slash_free (s : string) :
  Forall (λ c, contains "/" c = false) (split "/" s).
Proof.
  induction s as [|a s IH]; [by repeat constructor|]. rewrite split_cons.
  destruct (Ascii.eqb_spec a "/") as [->|Hne]; [by constructor|].
  assert (Ascii.eqb "/" a = false) as Ha.
  { destruct (Ascii.eqb_spec "/" a) as [<-|]; done. }
  destruct (split "/" s) as [|w ws].
  - repeat constructor. by rewrite contains_cons, Ha.
  - inversion IH; subst. constructor; [|done]. by rewrite contains_cons, Ha.
Qed.

Lemma last_plain (acc : list string) : Forall plain acc → last acc ≠ Some "..".
Proof.
  induction 1 as [|x l Hx Hl IH]; [done|]. destruct l as [|y l].
  - simpl. intros [= ->]. by destruct Hx as (_ & _ & ? & _).
  - done.
Qed.

Lemma norm_step_keeps_plain (n : nat) (acc : list string) (c : string) :
  1 ≤ n → Forall plain acc → contains "/" c = false →
  Forall plain (norm_step n acc c).
Proof.
  intros Hn Hacc Hc. unfold norm_step.
  case_bool_decide as H1; [done|]. case_bool_decide as H2; [done|]. simpl.
  case_bool_decide as H3; simpl.
  - apply Forall_app. split; [done|]. by repeat constructor.
  - rewrite (bool_decide_eq_false_2 (n = 0)) by lia. simpl.
    rewrite bool_decide_eq_false_2 by (by apply last_plain).
    by apply Forall_removelast.
Qed.

Lemma foldl_keeps_plain (n : nat) (l acc : list string) :
  1 ≤ n → Forall plain acc → Forall (λ c, contains "/" c = false) l →
  Forall plain (foldl (norm_step n) acc l).
Proof.
  intros Hn. revert acc. induction l as [|c l IH]; intros acc Hacc Hl; [done|].
  inversion Hl; subst. simpl. apply IH; [|done]. by apply norm_step_keeps_plain.
Qed.

Lemma foldl_plain (n : nat) (l acc : list string) :
  Forall plain l → foldl (norm_step n) acc l = acc ++ l.
Proof.
  revert acc. induction l as [|c l IH]; intros acc Hl; [by rewrite List.app_nil_r|].
  inversion Hl; subst. simpl. rewrite norm_step_plain by done.
  rewrite IH by done. by rewrite <-List.app_assoc.
Qed.

Lemma split_join (l : list string) :
  Forall plain l → l ≠ [] → split "/" (join "/" l) = l.
Proof.
  induction 1 as [|x l Hx Hl IH]; [done|]. intros _. destruct l as [|y l].
  - simpl. apply split_plain, Hx.
  - rewrite join_cons. change ("/" +:+ ?t) with (String "/" t).
    rewrite split_app_sep, IH by done. by rewrite split_plain by apply Hx.
Qed.

Lemma join_head (l : list string) :
  Forall plain l → startswith "/" (join "/" l) = false.
Proof.
  intros Hl. destruct l as [|x l]; [done|]. inversion Hl as [|?? Hx _]; subst.
  apply plain_cons in Hx as (a & s & -> & Ha).
  destruct l as [|y l].
  - change (join "/" [String a s]) with (String a s). by rewrite startswith_cons, Ha.
  - by rewrite join_cons, app_cons, startswith_cons, Ha.
Qed.

(** A path in normal form is its own normal form. *)
Lemma normpath_normal (n : nat) (l : list string) :
  n = 1 ∨ n = 2 → Forall plain l →
  normpath (slashes n +:+ join "/" l) = slashes n +:+ join "/" l.
Proof.
  intros Hn Hl. pose proof (join_head l Hl) as Hhead.
  assert (foldl (norm_step n) [] (split "/" (join "/" l)) = l) as Hjoin.
  { destruct (decide (l = [])) as [->|Hne]; [done|].
    rewrite split_join by done. by rewrite foldl_plain. }
  assert (initial_slashes_of (slashes n +:+ join "/" l) = n
          ∧ foldl (norm_step n) [] (split "/" (slashes n +:+ join "/" l)) = l)
    as [Hinit Hfold].
  { unfold initial_slashes_of. destruct Hn as [-> | ->].
    - change (slashes 1 +:+ join "/" l) with (String "/" (join "/" l)).
      change (startswith "/" (String "/" ?t)) with true.
      change (startswith "//" (String "/" ?t)) with (startswith "/" t).
      rewrite Hhead, split_sep. done.
    - change (slashes 2 +:+ join "/" l) with (String "/" (String "/" (join "/" l))).
      change (startswith "/" (String "/" ?t)) with true.
      change (startswith "//" (String "/" (String "/" ?t))) with true.
      change (startswith "///" (String "/" (String "/" ?t))) with (startswith "/" t).
      rewrite Hhead, !split_sep. done. }
  unfold normpath. rewrite Hinit, Hfold.
  assert (slashes n +:+ join "/" l ≠ "") as Hne by (by destruct Hn as [-> | ->]).
  by rewrite !bool_decide_eq_false_2 by done.
Qed.

Lemma normpath_idem (s : string) : isabs s = true → normpath (normpath s) = normpath s.
Proof.
  intros Habs.
  destruct (normpath_abs_shape s Habs) as (n & l & Hn & _ & -> & -> & _).
  apply normpath_normal; [done|].
  apply foldl_keeps_plain; [destruct Hn; lia|constructor|].
  apply split_slash_free.
Qed.

Lemma abspath_idem (cwd x : string) :
  isabs cwd = true → abspath cwd (abspath cwd x) = abspath cwd x.
Proof.
  intros Hcwd. rewrite (abspath_of_abs cwd (abspath cwd x)) by (by apply abspath_isabs).
  unfold abspath. destruct (isabs x) eqn:Hx; [by apply normpath_idem|].
  apply normpath_idem. unfold join2. unfold isabs in Hx. rewrite Hx.
  destruct (_ || _); by apply isabs_app.
Qed.

End IdemFacts.
Import IdemFacts.

(** ** Writing the file and its side-car entry *)
Module StoreFacts.

Lemma appends_snoc (l : list event) (e : event) :
  appends (l ++ [e]) = appends l ++ (if is_append e then [e] else []).
Proof. unfold appends. rewrite List.filter_app. simpl. by destruct (is_append e). Qed.

Lemma quiet_ret {A} (a : A) : quiet (mret a : M A).
Proof. by intros w. Qed.

Lemma quiet_raise {A} (e : exn) : quiet (raise e : M A).
Proof. by intros w. Qed.

Lemma quiet_bind {A B} (m : M A) (k : A → M B) :
  quiet m → (∀ a, quiet (k a)) → quiet (m ≫= k).
Proof.
  intros Hm Hk w. unfold mbind, M_bind, bind. specialize (Hm w).
  destruct (m w) as [[a|e] w1]; simpl in *; [|done]. by rewrite Hk.
Qed.

Lemma quiet_emit (e : event) : is_append e = false → quiet (emit e).
Proof.
  intros He w. unfold emit. simpl. rewrite appends_snoc, He.
  by rewrite List.app_nil_r.
Qed.

Lemma quiet_get_fs : quiet get_fs.
Proof. by intros w. Qed.

Lemma quiet_put_fs (m : gmap string node) : quiet (put_fs m).
Proof. by intros w. Qed.

Section WithEnv.
Context (E : env).

Lemma quiet_path_exists (p : string) : quiet (path_exists E p).
Proof. apply quiet_bind; [apply quiet_get_fs|]. intros m. apply quiet_ret. Qed.

Lemma quiet_makedirs (p : string) : quiet (makedirs E p).
Proof.
  unfold makedirs. apply quiet_bind; [by apply quiet_emit|]. intros _.
  apply quiet_bind; [apply quiet_get_fs|]. intros m.
  destruct (parts _); [apply quiet_raise|].
  destruct (mkdirs _ _ _); [apply quiet_put_fs|apply quiet_raise].
Qed.

Lemma quiet_open_out (p : string) : quiet (open_out E p).
Proof.
  unfold open_out. apply quiet_bind; [apply quiet_get_fs|]. intros m.
  destruct (lookup_node m _) as [[|c]|]; try apply quiet_raise.
  destruct (lookup_node m _) as [[|c]|];
    first [apply quiet_raise|apply (quiet_ret (A := string * option string))].
Qed.

Lemma quiet_write_file (p content : string) : quiet (write_file E p content).
Proof.
  unfold write_file. apply quiet_bind; [apply quiet_open_out|]. intros [q old].
  apply quiet_bind; [by apply quiet_emit|]. intros _.
  apply quiet_bind; [apply quiet_get_fs|]. intros m. apply quiet_put_fs.
Qed.

(** A destination that the length rules left alone gets no side-car
    entry. *)
Lemma store_quiet (t : target) (r : response) :
  t_dest t = t_orig_path t → quiet (store E t r).
Proof.
  intros Heq. unfold store.
  apply quiet_bind; [apply quiet_path_exists|]. intros ex.
  apply quiet_bind.
  { destruct (negb ex); [|apply (quiet_ret (A := unit))].
    destruct (negb (DEBUG E)); [apply quiet_makedirs|apply (quiet_ret (A := unit))]. }
  intros _. apply quiet_bind.
  { rewrite bool_decide_eq_false_2 by (by rewrite Heq; intros ?).
    apply (quiet_ret (A := unit)). }
  intros _. destruct (negb (DEBUG E)); [apply quiet_write_file|].
  apply (quiet_ret (A := unit)).
Qed.

End WithEnv.
End StoreFacts.
Import StoreFacts.

(** ** The sanitiser and the characters it takes out *)
Module StripFacts.

Section WithEnv.
Context (E : env).
Context (Hfree : free_of forbidden (cwd E) = true).

(** From names free of the characters, [shorten] makes a destination
    free of them. *)
Lemma shorten_free folder fn dest ext w t w' :
  (∀ e, ext = Some e → free_of forbidden e = true) →
  free_of forbidden folder = true →
  free_of forbidden fn = true →
  free_of forbidden dest = true →
  shorten E folder fn dest ext w = (Ok t, w') →
  free_of forbidden (t_dest_folder t) = true ∧ free_of forbidden (t_dest t) = true.
Proof.
  intros Hext Hfolder Hfn Hdest Hs.
  destruct (shorten_inv E folder fn dest ext w) as (t0 & Ht0 & _ & Hf & Hd).
  rewrite Ht0 in Hs. inversion Hs; subst t0 w'. clear Hs Ht0. cbv zeta in Hd.
  assert (free_of forbidden (t_dest_folder t) = true) as Hf1.
  { rewrite Hf. destruct (MAX_FOLDER_NAME_LEN <? len folder); [|done].
    by apply free_take. }
  split; [done|].
  assert (∀ x, free_of forbidden x = true →
               free_of forbidden (abspath (cwd E) (t_dest_folder t +:+ "/" +:+ x)) = true)
    as Hchild.
  { intros x Hx. apply abspath_free; [done..|].
    apply free_app_iff. split; [done|]. apply free_app_iff. by split. }
  destruct (MAX_FILE_NAME_LEN <? len _).
  - destruct Hd as (i & _ & Hname & ->). apply Hchild. rewrite Hname.
    by apply synthetic_name_free.
  - destruct Hd as [_ ->]. rewrite Hf in Hchild.
    destruct (MAX_FOLDER_NAME_LEN <? len folder); [by apply Hchild|done].
Qed.

(** A destination within both ceilings is kept. *)
Lemma shorten_keeps folder fn dest ext w t w' :
  shorten E folder fn dest ext w = (Ok t, w') →
  len (t_dest_folder t) < MAX_FOLDER_NAME_LEN →
  len dest ≤ MAX_FILE_NAME_LEN →
  t_dest t = dest.
Proof.
  intros Hs Hshort Hlen.
  destruct (shorten_inv E folder fn dest ext w) as (t0 & Ht0 & _ & Hf & Hd).
  rewrite Ht0 in Hs. inversion Hs; subst t0 w'. clear Hs Ht0. cbv zeta in Hd.
  rewrite Hf in Hshort.
  destruct (MAX_FOLDER_NAME_LEN <? len folder) eqn:Hcut.
  - rewrite len_take in Hshort. apply Nat.ltb_lt in Hcut. lia.
  - replace (MAX_FILE_NAME_LEN <? len dest) with false in Hd
      by (symmetry; apply Nat.ltb_ge; lia).
    by destruct Hd.
Qed.

End WithEnv.
End StripFacts.
Import StripFacts.

Import Session Sem Cases.

(** ** What the matcher reads is in the language of the pattern *)
Module LangFacts.

Lemma caps_from_app (r : regex) (c1 c2 : caps) :
  caps_from r c1 → caps_from r c2 → caps_from r (c1 ++ c2).
Proof. apply Forall_app_2. Qed.

Lemma caps_from_mono (r r' : regex) (c : caps) :
  (∀ b, In b (groups_of r) → In b (groups_of r')) →
  caps_from r c → caps_from r' c.
Proof.
  intros Hsub H. unfold caps_from in *. eapply Forall_impl; [exact H|].
  intros b (r1 & Hin & Hl). exists r1. split; [by apply Hsub|done].
Qed.

Lemma group_app (c1 c2 : caps) (n : nat) :
  group (c1 ++ c2) n
  = match group c1 n with Some v => Some v | None => group c2 n end.
Proof.
  induction c1 as [|[m v] c1 IH]; [done|]. simpl. by destruct (Nat.eqb m n).
Qed.

Lemma bound_nil (r : regex) : (∀ n, binds r n = false) → bound r [].
Proof. intros H n Hn. by rewrite H in Hn. Qed.

Section Run.
Context {R : Type}.

(** Soundness of the matcher: whenever it succeeds, the continuation
    was handed the rest of the text after a text of the language, and
    the groups bound on the way hold texts of their sub-patterns. *)
Lemma run_lang r s c (k : string → caps → option R) x :
  run r s c k = Some x →
  ∃ v s' new, s = v +:+ s' ∧ lang r v ∧ caps_from r new ∧ bound r new
    ∧ k s' (new ++ c) = Some x.
Proof.
  revert s c k x.
  induction r as [|p|r1 IH1 r2 IH2|r1 IH1 r2 IH2|g r IH|n r IH|];
    intros s c k x H.
  - exists "", s, []. split_and!; [done|constructor|constructor|by apply bound_nil|done].
  - rewrite run_chr in H. destruct s as [|a s]; [done|].
    destruct (p a) eqn:Hp; [|done]. exists (String a ""), s, [].
    split_and!; [done|by constructor|constructor|by apply bound_nil|done].
  - rewrite run_seq in H.
    apply IH1 in H as (v1 & s1 & n1 & -> & Hl1 & Hc1 & Hb1 & H).
    apply IH2 in H as (v2 & s2 & n2 & -> & Hl2 & Hc2 & Hb2 & H).
    exists (v1 +:+ v2), s2, (n2 ++ n1). split_and!.
    + by rewrite app_assoc.
    + by constructor.
    + apply caps_from_app.
      * eapply caps_from_mono; [|done]. intros b Hb. simpl. apply in_or_app. by right.
      * eapply caps_from_mono; [|done]. intros b Hb. simpl. apply in_or_app. by left.
    + intros n Hn. simpl in Hn. rewrite group_app.
      destruct (group n2 n) eqn:Hg; [done|].
      apply orb_true_iff in Hn as [Hn|Hn]; [by apply Hb1|].
      apply Hb2 in Hn. rewrite Hg in Hn. by destruct Hn.
    + by rewrite <- List.app_assoc.
  - rewrite run_alt in H. destruct (run r1 s c k) eqn:H1.
    + inversion H; subst.
      apply IH1 in H1 as (v & s' & new & -> & Hl & Hc & Hb & H1).
      exists v, s', new. split_and!; [done|by apply lang_alt_l| | |done].
      * eapply caps_from_mono; [|done]. intros b Hb'. simpl. apply in_or_app. by left.
      * intros n Hn. simpl in Hn. apply andb_true_iff in Hn as [Hn _]. by apply Hb.
    + apply IH2 in H as (v & s' & new & -> & Hl & Hc & Hb & H).
      exists v, s', new. split_and!; [done|by apply lang_alt_r| | |done].
      * eapply caps_from_mono; [|done]. intros b Hb'. simpl. apply in_or_app. by right.
      * intros n Hn. simpl in Hn. apply andb_true_iff in Hn as [_ Hn]. by apply Hb.
  - simpl in H. revert H. generalize (len s) at 1 as fuel. intros fuel.
    revert s c x. induction fuel as [|fuel IHf]; intros s c x H.
    + exists "", s, []. split_and!; [done|constructor|constructor|by apply bound_nil|done].
    + assert (∀ y, run r s c (λ s' c',
                if len s' <? len s
                then (fix loop (fuel : nat) (s : string) (c : caps) {struct fuel} :=
                        match fuel with
                        | 0 => k s c
                        | S fuel' =>
                            let more :=
                              run r s c (λ s' c',
                                if len s' <? len s then loop fuel' s' c' else None) in
                            if g then
                              match more with Some x => Some x | None => k s c end
                            else
                              match k s c with Some x => Some x | None => more end
                        end) fuel s' c'
                else None) = Some y →
              ∃ v s' new, s = v +:+ s' ∧ lang (Star g r) v
                ∧ caps_from (Star g r) new ∧ bound (Star g r) new
                ∧ k s' (new ++ c) = Some y) as Hmore.
      { intros y Hy. apply IH in Hy as (v1 & s1 & n1 & -> & Hl1 & Hc1 & _ & Hy).
        destruct (len s1 <? len (v1 +:+ s1)); [|done].
        apply IHf in Hy as (v2 & s2 & n2 & -> & Hl2 & Hc2 & _ & Hy).
        exists (v1 +:+ v2), s2, (n2 ++ n1). split_and!.
        - by rewrite app_assoc.
        - by constructor.
        - by apply caps_from_app.
        - by intros n Hn.
        - by rewrite <- List.app_assoc. }
      cbv zeta in H. destruct g.
      * match type of H with
        | match ?m with _ => _ end = _ => destruct m eqn:Hm
        end.
        -- inversion H; subst. by apply Hmore.
        -- exists "", s, [].
           split_and!; [done|constructor|constructor|by apply bound_nil|done].
      * destruct (k s c) eqn:Hk.
        -- exists "", s, [].
           split_and!; [done|constructor|constructor|by apply bound_nil|].
           simpl. by rewrite Hk.
        -- by apply Hmore.
  - rewrite run_group in H. apply IH in H as (v & s' & new & -> & Hl & Hc & Hb & H).
    rewrite consumed_app in H.
    exists v, s', ((n, v) :: new). split_and!; [done|by constructor| | |done].
    + constructor.
      * exists r. split; [by left|done].
      * eapply caps_from_mono; [|done]. intros b Hb'. by right.
    + intros m Hm. simpl in Hm |- *. destruct (Nat.eqb n m); [done|].
      by apply Hb.
  - simpl in H. destruct (decide _); [|done].
    exists "", s, []. split_and!; [done|constructor|constructor|by apply bound_nil|done].
Qed.
End Run.

Lemma accept_some adv s0 s' c y :
  accept adv s0 s' c = Some y → y = (s', c).
Proof. unfold accept. destruct (_ && _); [done|]. by intros [= <-]. Qed.

(** A match found by scanning. *)
Lemma scan_lang r adv i s j s1 s2 c :
  scan r adv i s = Some (j, s1, s2, c) →
  ∃ pre v, s = pre +:+ s1 ∧ j = i + len pre ∧ s1 = v +:+ s2
           ∧ lang r v ∧ caps_from r c ∧ bound r c.
Proof.
  revert adv i. induction s as [|a s IH]; intros adv i H; rewrite scan_unfold in H.
  - destruct (run r "" [] (accept adv "")) as [[s' c']|] eqn:Hr; [|done].
    injection H as <- <- <- <-.
    apply run_lang in Hr as (v & s'' & new & Hs & Hl & Hc & Hb & Hk).
    apply accept_some in Hk. injection Hk as -> ->.
    exists "", v. rewrite List.app_nil_r.
    split_and!; [done|unfold len; simpl; lia|done|done|done|done].
  - destruct (run r (String a s) [] (accept adv (String a s))) as [[s' c']|] eqn:Hr.
    + injection H as <- <- <- <-.
      apply run_lang in Hr as (v & s'' & new & Hs & Hl & Hc & Hb & Hk).
      apply accept_some in Hk. injection Hk as -> ->.
      exists "", v. rewrite List.app_nil_r.
      split_and!; [done|unfold len; simpl; lia|done|done|done|done].
    + apply IH in H as (pre & v & -> & -> & -> & Hl & Hc & Hb).
      exists (String a pre), v.
      split_and!; [done|rewrite len_cons; lia|done|done|done|done].
Qed.

(** A match found by [search] from the start of the text. *)
Lemma search_lang r text m :
  search r text 0 = Some m →
  ∃ pre v post, text = pre +:+ v +:+ post ∧ m_start m = len pre
    ∧ m_end m = len pre + len v ∧ lang r v ∧ caps_from r (m_groups m)
    ∧ bound r (m_groups m).
Proof.
  unfold search. rewrite Nat.min_0_l. simpl drop.
  destruct (scan r false 0 text) as [[[[j s1] s2] c]|] eqn:Hs; [|done].
  intros [= <-]. simpl.
  apply scan_lang in Hs as (pre & v & -> & -> & -> & Hl & Hc & Hb).
  exists pre, v, s2. split_and!; [done|done| |done|done|done].
  rewrite !len_app. lia.
Qed.

(** The value of a group in a list of bindings. *)
Lemma group_lang r c n v :
  caps_from r c → group c n = Some v →
  ∃ r1, In (n, r1) (groups_of r) ∧ lang r1 v.
Proof.
  induction c as [|[m x] c IH]; intros Hc H; [done|].
  apply Forall_cons in Hc as [Hb Hc]. simpl in H.
  destruct (Nat.eqb m n) eqn:Hm.
  - apply Nat.eqb_eq in Hm as ->. injection H as <-. done.
  - by apply IH.
Qed.

(** *** Languages of the pattern shapes the program uses *)

Lemma lang_seq_inv r1 r2 v :
  lang (Seq r1 r2) v → ∃ u w, v = u +:+ w ∧ lang r1 u ∧ lang r2 w.
Proof. inversion 1; subst. eauto. Qed.

Lemma lang_chr_inv p v : lang (Chr p) v → ∃ a, v = String a "" ∧ p a = true.
Proof. inversion 1; subst. eauto. Qed.

Lemma lang_group_inv n r v : lang (Group n r) v → lang r v.
Proof. by inversion 1. Qed.

Lemma lang_alt_inv r1 r2 v : lang (Alt r1 r2) v → lang r1 v ∨ lang r2 v.
Proof. inversion 1; subst; eauto. Qed.

Lemma lang_eps_inv v : lang Eps v → v = "".
Proof. by inversion 1. Qed.

Lemma lang_eos_inv v : lang Eos v → v = "".
Proof. by inversion 1. Qed.

Lemma lang_star_chr g p v : lang (Star g (Chr p)) v → forallb p v = true.
Proof.
  intros H. remember (Star g (Chr p)) as r eqn:Hr.
  induction H; try discriminate; [done|].
  injection Hr as -> ->. apply lang_chr_inv in H as (a & -> & Hp).
  simpl. rewrite Hp. simpl. by apply IHlang2.
Qed.

Lemma lang_plus_chr p v :
  lang (plus (Chr p)) v → v ≠ "" ∧ forallb p v = true.
Proof.
  intros H. apply lang_seq_inv in H as (u & w & -> & Hu & Hw).
  apply lang_chr_inv in Hu as (a & -> & Hp). apply lang_star_chr in Hw.
  split; [done|]. rewrite PyStrFacts.forallb_app, Hw. simpl. by rewrite Hp.
Qed.

Lemma lang_lit t v : lang (lit t) v → v = t.
Proof.
  revert v. induction t as [|a t IH]; intros v H.
  - by apply lang_eps_inv in H.
  - destruct t as [|b t].
    + apply lang_chr_inv in H as (x & -> & Hx). unfold eqc in Hx.
      apply Ascii.eqb_eq in Hx as ->. done.
    + change (lit (String a (String b t)))
        with (Seq (Chr (eqc a)) (lit (String b t))) in H.
      apply lang_seq_inv in H as (u & w & -> & Hu & Hw).
      apply lang_chr_inv in Hu as (x & -> & Hx). unfold eqc in Hx.
      apply Ascii.eqb_eq in Hx as ->. apply IH in Hw as ->. done.
Qed.

End LangFacts.
Import LangFacts.

(** ** Texts in which a literal does not occur *)
Module OccurFacts.

Lemma find_from_none (i : nat) (needle hay : string) :
  find_from i needle hay = None →
  ∀ p1 p2, hay = p1 +:+ p2 → startswith needle p2 = false.
Proof.
  revert i. induction hay as [|a hay IH]; intros i H p1 p2 Hp.
  - symmetry in Hp. apply str_app_eq_nil in Hp as [-> ->]. simpl in H.
    by destruct (startswith needle "").
  - simpl in H. destruct (startswith needle (String a hay)) eqn:Hs; [done|].
    destruct p1 as [|b p1].
    + rewrite app_nil_l in Hp. by subst p2.
    + rewrite app_cons in Hp. injection Hp as -> ->. by eapply IH.
Qed.

Lemma find_from_absent (i : nat) (needle hay : string) :
  (∀ p1 p2, hay = p1 +:+ p2 → startswith needle p2 = false) →
  find_from i needle hay = None.
Proof.
  revert i. induction hay as [|a hay IH]; intros i H.
  - simpl. by rewrite (H "" "").
  - simpl. rewrite (H "" (String a hay)) by done. apply IH.
    intros p1 p2 ->. by apply (H (String a p1)).
Qed.

Lemma find_none (needle hay : string) :
  find needle hay = None →
  ∀ p1 p2, hay = p1 +:+ p2 → startswith needle p2 = false.
Proof. apply find_from_none. Qed.

(** A pattern that fails at every place of the text is not found. *)
Lemma scan_fail (r : regex) (adv : bool) (i : nat) (s : string) :
  (∀ p1 p2 b, s = p1 +:+ p2 → run r p2 [] (accept b p2) = None) →
  scan r adv i s = None.
Proof.
  revert adv i. induction s as [|a s IH]; intros adv i H; rewrite scan_unfold.
  - by rewrite (H "" "" adv).
  - rewrite (H "" (String a s) adv) by done. apply IH.
    intros p1 p2 b ->. by apply (H (String a p1)).
Qed.

(** A pattern that starts with a literal is not found where the literal
    does not occur. *)
Lemma scan_lit_absent (t : string) (r : regex) (adv : bool) (i : nat) (s : string) :
  find t s = None → scan (Seq (lit t) r) adv i s = None.
Proof.
  intros H. apply scan_fail. intros p1 p2 b Hs.
  rewrite run_seq, run_lit. by rewrite (find_none _ _ H p1 p2).
Qed.

Lemma scan_lit_only_absent (t : string) (adv : bool) (i : nat) (s : string) :
  find t s = None → scan (lit t) adv i s = None.
Proof.
  intros H. apply scan_fail. intros p1 p2 b Hs.
  rewrite run_lit. by rewrite (find_none _ _ H p1 p2).
Qed.

Lemma find_none_drop (t s : string) (n : nat) :
  find t s = None → find t (drop n s) = None.
Proof.
  intros H. apply find_from_absent. intros p1 p2 Hp.
  apply (find_none _ _ H (take n s +:+ p1) p2).
  by rewrite app_assoc, <- Hp, take_drop.
Qed.

End OccurFacts.
Import OccurFacts.

(** ** The character set of a header *)
Module EncodingFacts.

Local Abbreviation CS := "charset="%string.

Lemma charset_re_run (rest s0 : string) (adv : bool) :
  forallb any rest = true →
  run charset_re (CS +:+ rest) [] (accept adv (CS +:+ rest)) = Some ("", [(1, rest)]).
Proof.
  intros Hany. unfold charset_re. rewrite run_seq. rewrite run_lit_app.
  unfold opt. rewrite run_alt, run_group. unfold star. rewrite run_star_chr.
  rewrite <- (app_nil_r rest) at 1.
  erewrite greedy_chr_all; [done|done|done|].
  change (consumed rest "") with (take (len rest - len "") rest).
  rewrite take_all by (unfold len; simpl; lia). unfold accept.
  replace (len "" =? len (CS +:+ rest)) with false; [by rewrite andb_false_r|].
  symmetry. apply Nat.eqb_neq. rewrite len_app. unfold len at 1 2. simpl. lia.
Qed.

Lemma findall1_charset (pre rest : string) :
  find CS (pre +:+ CS) = Some (len pre) →
  forallb any rest = true →
  findall1 charset_re (pre +:+ CS +:+ rest) = [rest].
Proof.
  intros Hpre Hany. unfold findall1, all_pieces.
  replace (2 * len (pre +:+ CS +:+ rest) + 2)
    with (S (S (2 * len (pre +:+ CS +:+ rest)))) by lia.
  cbn [pieces].
  rewrite (scan_skip charset_re 0 pre (CS +:+ rest) "" [(1, rest)]).
  - rewrite scan_unfold.
    assert (run charset_re "" [] (accept (len "" =? len (CS +:+ rest)) "") = None) as ->.
    { unfold charset_re. by rewrite run_seq, run_lit. }
    done.
  - intros p1 p2 Hp Hne. unfold charset_re. rewrite run_seq, run_lit.
    by rewrite (first_occurrence CS pre rest Hpre p1 p2).
  - by apply (charset_re_run rest "" false).
Qed.

Lemma findall1_no_charset (ct : string) :
  find CS ct = None → findall1 charset_re ct = [].
Proof.
  intros H. unfold findall1, all_pieces.
  replace (2 * len ct + 2) with (S (S (2 * len ct))) by lia.
  cbn [pieces]. unfold charset_re. by rewrite scan_lit_absent.
Qed.

End EncodingFacts.
Import EncodingFacts.

(** ** The media type of a header *)
Module MediaFacts.

(** The class [[^;\s]] of the pattern for a Content-Type. *)
Local Abbreviation token := (cnot (cor (eqc ";") space)).

Lemma span_split (p : ascii → bool) (s : string) :
  ∃ rest, s = span p s +:+ rest ∧ forallb p (span p s) = true
    ∧ match rest with String a _ => p a = false | "" => True end.
Proof.
  induction s as [|a s (rest & Hs & Hp & Hr)].
  - by exists "".
  - simpl. destruct (p a) eqn:Ha.
    + exists rest. rewrite app_cons, <- Hs. simpl. by rewrite Ha, Hp.
    + exists (String a s). by rewrite app_nil_l.
Qed.

Lemma span_all (p : ascii → bool) (e rest : string) :
  forallb p e = true →
  match rest with String a _ => p a = false | "" => True end →
  span p (e +:+ rest) = e.
Proof.
  intros He Hr. induction e as [|a e IH].
  - rewrite app_nil_l. destruct rest as [|b rest]; [done|]. simpl. by rewrite Hr.
  - rewrite forallb_cons in He. apply andb_true_iff in He as [Ha He].
    rewrite app_cons. simpl. rewrite Ha. by rewrite IH.
Qed.

Section Greedy.
Context {R : Type}.

(** A greedy repetition gives back what it read until the rest of the
    pattern fits. *)
Lemma greedy_chr_here p s c (k : string → caps → option R) :
  (∀ b1 b2, s = b1 +:+ b2 → b1 ≠ "" → k b2 c = None) →
  greedy_chr p s c k = k s c.
Proof.
  intros H. destruct s as [|a s]; [done|]. simpl. destruct (p a); [|done].
  rewrite greedy_chr_none; [done|].
  intros s1 s2 -> _. by apply (H (String a s1)).
Qed.

Lemma greedy_chr_back p e1 e2 c (k : string → caps → option R) x :
  forallb p e1 = true →
  (∀ b1 b2, e2 = b1 +:+ b2 → b1 ≠ "" → k b2 c = None) →
  k e2 c = Some x →
  greedy_chr p (e1 +:+ e2) c k = Some x.
Proof.
  intros He H Hk. induction e1 as [|a e1 IH].
  - rewrite app_nil_l. by rewrite greedy_chr_here.
  - rewrite forallb_cons in He. apply andb_true_iff in He as [Ha He].
    rewrite app_cons. simpl. rewrite Ha. by rewrite IH.
Qed.
End Greedy.

(** The optional part of the pattern binds the second group at most. *)
Lemma group_1_kept (r : regex) (new : caps) (e : string) :
  caps_from r new → (∀ r1, ¬ In (1, r1) (groups_of r)) →
  group (new ++ [(1, e)]) 1 = Some e.
Proof.
  intros Hc Hno. induction new as [|[m v] new IH]; [done|].
  apply Forall_cons in Hc as [(r1 & Hin & _) Hc]. simpl in Hin |- *.
  destruct (Nat.eqb m 1) eqn:Hm.
  - apply Nat.eqb_eq in Hm as ->. by apply Hno in Hin.
  - by apply IH.
Qed.

(** The pattern fits at the start of every header, and its first group
    is the run of characters before the first semicolon or blank. *)
Lemma content_re_search (ct : string) :
  ∃ m, search content_re ct 0 = Some m ∧ mgroup m 1 = Some (span token ct).
Proof.
  unfold search. rewrite Nat.min_0_l. simpl drop. rewrite scan_unfold.
  destruct (span_split token ct) as (rest & Hs & Hp & Hr).
  set (tail := opt (seqs [star (Chr space); lit ";"; star (Chr any); lit "charset=";
                Group 2 (lazy_star (Chr any));
                Alt (Chr space) (Alt (Chr (eqc ";")) Eos)])).
  assert (∃ s' new, caps_from tail new
            ∧ run tail rest [(1, span token ct)] (accept false ct)
              = Some (s', new ++ [(1, span token ct)])) as (s' & new & Hc & Hrun).
  { unfold tail at 2. unfold opt. rewrite run_alt.
    match goal with |- context [match ?m with _ => _ end] => destruct m as [y|] eqn:Hy end.
    - apply run_lang in Hy as (v & s'' & new & _ & _ & Hc & _ & Hk).
      apply accept_some in Hk as ->. exists s'', new. split; [|done].
      eapply caps_from_mono; [|done]. intros b Hb. vm_compute in Hb |- *. exact Hb.
    - exists rest, []. split; [constructor|done]. }
  assert (run content_re ct [] (accept false ct)
          = Some (s', new ++ [(1, span token ct)])) as ->.
  { unfold content_re. fold tail. rewrite run_seq, run_group. unfold star.
    rewrite run_star_chr. rewrite Hs at 1.
    apply greedy_chr_all; [done|done|].
    rewrite Hs at 1. rewrite consumed_app. done. }
  eexists. split; [done|]. unfold mgroup. simpl.
  apply (group_1_kept tail); [done|].
  intros r1 Hin. vm_compute in Hin.
  destruct Hin as [Hin|[]]. discriminate Hin.
Qed.

(** A character that is neither a semicolon nor white space is not a
    line break. *)
Lemma token_any (s : string) :
  free_of (cor (eqc ";") space) s = true → forallb any s = true.
Proof.
  induction s as [|a s IH]; [done|]. rewrite free_of_cons, forallb_cons.
  intros [Ha Hs]%andb_true_iff. rewrite IH by done. rewrite andb_true_r.
  unfold any. destruct (Ascii.eqb a newline) eqn:He; [|done].
  apply Ascii.eqb_eq in He as ->. done.
Qed.

(** Past its first character, the text [charset=] followed by a text
    without [charset=] does not start with [charset=]. *)
Lemma charset_once (enc b1 b2 : string) :
  find "charset=" enc = None →
  "charset=" +:+ enc = b1 +:+ b2 → b1 ≠ "" →
  startswith "charset=" b2 = false.
Proof.
  intros Hfind Hb Hne.
  do 8 (destruct b1 as [|? b1];
        [first [done | rewrite app_nil_l in Hb; by subst b2]|];
        rewrite app_cons in Hb; injection Hb as <- Hb).
  by apply (find_none _ _ Hfind b1 b2).
Qed.

(** The end of a header value: a blank, a semicolon, or the end. *)
Local Abbreviation stop := (Alt (Chr space) (Alt (Chr (eqc ";")) Eos)).

Lemma stop_none (b2 s0 : string) (c : caps) :
  free_of (cor (eqc ";") space) b2 = true → b2 ≠ "" →
  run stop b2 c (accept false s0) = None.
Proof.
  intros Hf Hne. destruct b2 as [|a t]; [done|].
  rewrite free_of_cons in Hf. apply andb_true_iff in Hf as [Ha _].
  unfold cor in Ha. apply negb_true_iff, orb_false_iff in Ha as [Hsemi Hsp].
  rewrite !run_alt, !run_chr, Hsp, Hsemi. simpl.
  destruct (decide _) as [[H|H]|]; [done| |done].
  injection H as -> _. done.
Qed.

Lemma charset_header_run (media enc : string) :
  free_of (cor (eqc ";") space) media = true →
  free_of (cor (eqc ";") space) enc = true →
  find "charset=" enc = None →
  run content_re (media +:+ "; charset=" +:+ enc) []
    (accept false (media +:+ "; charset=" +:+ enc))
  = Some ("", [(2, enc); (1, media)]).
Proof.
  intros Hmedia Henc Hfind.
  set (text := media +:+ "; charset=" +:+ enc).
  unfold content_re. rewrite run_seq, run_group. unfold star at 1.
  rewrite run_star_chr. unfold text at 1.
  apply greedy_chr_all; [done|done|].
  unfold text at 1. rewrite consumed_app.
  unfold opt. rewrite run_alt.
  assert (run (seqs [star (Chr space); lit ";"; star (Chr any); lit "charset=";
                     Group 2 (lazy_star (Chr any)); stop])
            ("; charset=" +:+ enc) [(1, media)] (accept false text)
          = Some ("", [(2, enc); (1, media)])) as ->; [|done].
  cbn [seqs]. rewrite run_seq. unfold star at 1. rewrite run_star_chr.
  change ("; charset=" +:+ enc) with (String ";" (" " +:+ ("charset=" +:+ enc))).
  cbn [greedy_chr]. change (space ";") with false. cbv iota.
  rewrite run_seq. change (String ";" (" " +:+ ("charset=" +:+ enc)))
    with (";" +:+ (" " +:+ ("charset=" +:+ enc))).
  rewrite run_lit_app. rewrite run_seq. unfold star. rewrite run_star_chr.
  apply greedy_chr_back; [done| |].
  - intros b1 b2 Hb Hne. rewrite run_seq, run_lit.
    by rewrite (charset_once enc b1 b2).
  - rewrite run_seq, run_lit_app, run_seq, run_group. unfold lazy_star.
    rewrite run_lazy_chr. rewrite <- (app_nil_r enc) at 1.
    rewrite lazy_chr_skip.
    + apply lazy_chr_here.
      change (consumed enc "") with (take (len enc - len "") enc).
      rewrite take_all by (unfold len; simpl; lia).
      rewrite !run_alt, !run_chr. done.
    + by apply token_any.
    + intros b1 b2 Hb Hne. rewrite app_nil_r. apply stop_none; [|done].
      rewrite Hb, free_of_app in Henc. by apply andb_true_iff in Henc as [_ ?].
Qed.

End MediaFacts.
Import MediaFacts.

(** ** The patterns of the pages and headers *)
Module PatternFacts.

Lemma bind_inv {A B} (m : M A) (k : A → M B) (w w' : world) (r : result B) :
  (m ≫= k) w = (r, w') →
  (∃ a w1, m w = (Ok a, w1) ∧ k a w1 = (r, w'))
  ∨ (∃ e, m w = (Raise e, w') ∧ r = Raise e).
Proof.
  unfold mbind, M_bind, bind. destruct (m w) as [[a|e] w1]; intros H.
  - left. by exists a, w1.
  - right. exists e. by injection H as <- <-.
Qed.

Lemma contains_true_app_r (a : ascii) (s t : string) :
  contains a t = true → contains a (s +:+ t) = true.
Proof. intros H. by rewrite contains_app, H, orb_true_r. Qed.

Lemma contains_true_app_l (a : ascii) (s t : string) :
  contains a s = true → contains a (s +:+ t) = true.
Proof. intros H. by rewrite contains_app, H. Qed.

(** Whatever the file-name pattern reads holds a dot. *)
Lemma fn_re_dot (v : string) : lang fn_re v → contains "." v = true.
Proof.
  unfold fn_re. cbn [seqs]. intros H.
  apply lang_seq_inv in H as (u1 & v1 & -> & _ & H).
  apply lang_seq_inv in H as (u2 & v2 & -> & _ & H).
  apply lang_seq_inv in H as (u3 & v3 & -> & H3 & _).
  apply lang_lit in H3 as ->.
  do 2 apply contains_true_app_r. by apply contains_true_app_l.
Qed.

Lemma groups_of_fn_re : groups_of fn_re = [(1, lazy_star (Chr any))].
Proof. reflexivity. Qed.

Lemma groups_of_folder_re :
  groups_of folder_re = [(1, lazy_star (Chr any)); (2, plus (Chr digit))].
Proof. reflexivity. Qed.

Lemma groups_of_text_re :
  groups_of text_re
  = [(1, star (Chr any)); (2, plus (Chr word));
     (3, star (Chr (cor word (cor (eqc "|") space)))); (4, plus (Chr any))].
Proof. reflexivity. Qed.

Lemma groups_of_dl_re :
  groups_of dl_re = [(1, lazy_star (Chr any)); (2, lazy_star (Chr any))].
Proof. reflexivity. Qed.

(** The value of a group that takes part in every match. *)
Lemma mgroup_bound (r : regex) (m : rmatch) (n : nat) :
  bound r (m_groups m) → caps_from r (m_groups m) → binds r n = true →
  ∃ v r1, mgroup m n = Some v ∧ In (n, r1) (groups_of r) ∧ lang r1 v.
Proof.
  intros Hb Hc Hn. destruct (Hb n Hn) as [v Hv].
  destruct (group_lang r _ n v Hc Hv) as (r1 & Hin & Hl). by exists v, r1.
Qed.

(** The groups of a match of the pattern for folder pages. *)
Lemma folder_re_groups (page : string) (m : rmatch) :
  search folder_re page 0 = Some m →
  ∃ base id, mgroup m 1 = Some base ∧ mgroup m 2 = Some id
    ∧ forallb any base = true ∧ id ≠ "" ∧ forallb digit id = true.
Proof.
  intros (pre & v & post & _ & _ & _ & _ & Hc & Hb)%search_lang.
  destruct (mgroup_bound folder_re m 1 Hb Hc eq_refl) as (base & r1 & H1 & Hin1 & Hl1).
  destruct (mgroup_bound folder_re m 2 Hb Hc eq_refl) as (id & r2 & H2 & Hin2 & Hl2).
  rewrite groups_of_folder_re in Hin1, Hin2.
  destruct Hin1 as [[= <-]|[[=]|[]]]. destruct Hin2 as [[=]|[[= <-]|[]]].
  apply lang_star_chr in Hl1. apply lang_plus_chr in Hl2 as [??].
  by exists base, id.
Qed.

(** The groups of a match of the pattern for a cell of the table. *)
Lemma text_re_groups (cell : string) (m : rmatch) :
  search text_re cell 0 = Some m →
  (∃ url, mgroup m 1 = Some url ∧ forallb any url = true)
  ∧ mgroup m 2 ≠ Some ""
  ∧ (∃ item_type, mgroup m 3 = Some item_type)
  ∧ (∃ name, mgroup m 4 = Some name ∧ name ≠ "" ∧ forallb any name = true).
Proof.
  intros (pre & v & post & _ & _ & _ & _ & Hc & Hb)%search_lang.
  destruct (mgroup_bound text_re m 1 Hb Hc eq_refl) as (url & r1 & H1 & Hin1 & Hl1).
  destruct (mgroup_bound text_re m 3 Hb Hc eq_refl) as (ty & r3 & H3 & Hin3 & Hl3).
  destruct (mgroup_bound text_re m 4 Hb Hc eq_refl) as (name & r4 & H4 & Hin4 & Hl4).
  rewrite groups_of_text_re in Hin1, Hin4.
  destruct Hin1 as [[= <-]|[[=]|[[=]|[[=]|[]]]]].
  destruct Hin4 as [[=]|[[=]|[[=]|[[= <-]|[]]]]].
  apply lang_star_chr in Hl1. apply lang_plus_chr in Hl4 as [??].
  split_and!; [by exists url| |by exists ty|by exists name].
  intros H2. destruct (group_lang text_re _ 2 "" Hc H2) as (r2 & Hin2 & Hl2).
  rewrite groups_of_text_re in Hin2.
  destruct Hin2 as [[=]|[[= <-]|[[=]|[[=]|[]]]]].
  by apply lang_plus_chr in Hl2 as [??].
Qed.

End PatternFacts.
Import PatternFacts.

(** ** The resources page *)
Module ResourceFacts.

Lemma search_lit_absent (t text : string) (pos : nat) :
  find t text = None → search (lit t) text pos = None.
Proof.
  intros H. unfold search.
  by rewrite scan_lit_only_absent by by apply find_none_drop.
Qed.

Lemma search_seq_lit_absent (t : string) (r : regex) (text : string) (pos : nat) :
  find t text = None → search (Seq (lit t) r) text pos = None.
Proof.
  intros H. unfold search.
  by rewrite scan_lit_absent by by apply find_none_drop.
Qed.

Lemma for_each_app {A} (l1 l2 : list A) (body : A → M unit) (w : world) :
  for_each (l1 ++ l2) body w = (for_each l1 body;; for_each l2 body) w.
Proof.
  revert w. induction l1 as [|x l1 IH]; intros w; [done|].
  simpl. unfold mbind, M_bind, bind in *.
  destruct (body x w) as [[[]|e] w1]; [|done]. apply IH.
Qed.

(** The loop stops at the first item whose handler raises. *)
Lemma for_each_raise {A} (pre post : list A) (x : A) (body : A → M unit)
    (w w1 w2 : world) (e : exn) :
  for_each pre body w = (Ok (), w1) →
  body x w1 = (Raise e, w2) →
  for_each (pre ++ x :: post) body w = (Raise e, w2).
Proof.
  intros Hpre Hx. rewrite for_each_app. unfold mbind, M_bind, bind.
  rewrite Hpre. simpl. unfold mbind, M_bind, bind. by rewrite Hx.
Qed.

(** The procedure as a loop over the items. *)
Lemma download_resource_page_loop (E : env) (target_dest url : string) (w : world) :
  download_resource_page E target_dest url w
  = (print "Extracting file and folder links from Resource Page";;
     resource_page ← openWebpage E url;
     item_array ← extract_download_info resource_page;
     for_each item_array (handle_item E target_dest)) w.
Proof. reflexivity. Qed.

Lemma for_each_skipped (E : env) (target_dest : string)
    (items : list (option string * string * string)) (w : world) :
  Forall (λ it, it.1.1 ∉ handled) items →
  for_each items (handle_item E target_dest) w
  = (Ok (), {| fs := fs w;
               trace := trace w ++ ((λ it, EvPrint ("downloading " +:+ it.2)) <$> items) |}).
Proof.
  revert w. induction items as [|[[ty u] n] items IH]; intros w H.
  - simpl. rewrite List.app_nil_r. by destruct w.
  - apply Forall_cons in H as [Hty H]. simpl in Hty. unfold handled in Hty.
    cbn [for_each]. unfold mbind at 1, M_bind at 1, bind at 1.
    assert (handle_item E target_dest (ty, u, n) w
            = (Ok (), {| fs := fs w;
                         trace := trace w ++ [EvPrint ("downloading " +:+ n)] |})) as ->.
    { unfold handle_item, print, emit. unfold_monad.
      rewrite !bool_decide_eq_false_2; [done|set_solver..]. }
    rewrite IH by done. simpl. by rewrite <- List.app_assoc.
Qed.

End ResourceFacts.
Import ResourceFacts.

(** ** What a download does to the file system *)
Module FrameFacts.

Lemma bind_ok_inv {A B} (m : M A) (k : A → M B) (w w' : world) (b : B) :
  (m ≫= k) w = (Ok b, w') → ∃ a w1, m w = (Ok a, w1) ∧ k a w1 = (Ok b, w').
Proof.
  intros [(a & w1 & H1 & H2)|(e & _ & He)]%bind_inv; [by exists a, w1|done].
Qed.

Lemma keeps_fs_ret {A} (a : A) : keeps_fs (mret a : M A).
Proof. by intros w. Qed.

Lemma keeps_fs_raise {A} (e : exn) : keeps_fs (raise e : M A).
Proof. by intros w. Qed.

Lemma keeps_fs_bind {A B} (m : M A) (k : A → M B) :
  keeps_fs m → (∀ a, keeps_fs (k a)) → keeps_fs (m ≫= k).
Proof.
  intros Hm Hk w. unfold mbind, M_bind, bind. specialize (Hm w).
  destruct (m w) as [[a|e] w1]; simpl in *; [|done].
  by rewrite Hk.
Qed.

Lemma keeps_fs_emit (e : event) : keeps_fs (emit e).
Proof. by intros w. Qed.

Lemma keeps_fs_get_fs : keeps_fs get_fs.
Proof. by intros w. Qed.

Lemma keeps_fs_some_or {A} (e : exn) (o : option A) : keeps_fs (some_or e o).
Proof. destruct o; [apply keeps_fs_ret|apply keeps_fs_raise]. Qed.

Lemma keeps_fs_if {A} (b : bool) (m1 m2 : M A) :
  keeps_fs m1 → keeps_fs m2 → keeps_fs (if b then m1 else m2).
Proof. by destruct b. Qed.

Ltac frame :=
  repeat first
    [ apply keeps_fs_bind; [|intros ?]
    | apply keeps_fs_if
    | apply keeps_fs_ret | apply keeps_fs_raise | apply keeps_fs_emit
    | apply keeps_fs_get_fs | apply keeps_fs_some_or
    | progress (unfold print, eprint, path_exists, opener_open)
    | match goal with |- keeps_fs (let '(_, _) := ?x in _) => destruct x end
    | match goal with |- keeps_fs (match ?x with _ => _ end) => destruct x end ].

Section WithEnv.
Context (E : env).

Lemma keeps_fs_opener_open (url : string) : keeps_fs (opener_open E url).
Proof. frame. Qed.

Lemma keeps_fs_get_encoding (ct : option string) (url : string) :
  keeps_fs (get_encoding ct url).
Proof. unfold get_encoding. frame. Qed.

Lemma keeps_fs_openWebpage (url : string) : keeps_fs (openWebpage E url).
Proof. unfold openWebpage. frame. Qed.

Lemma keeps_fs_get_filename (r : response) (name : string) :
  keeps_fs (get_filename E r name).
Proof. unfold get_filename. frame. Qed.

Lemma keeps_fs_get_content_type (r : response) : keeps_fs (get_content_type r).
Proof. unfold get_content_type. frame. Qed.

Lemma keeps_fs_strip_names (folder fn dest : string) :
  keeps_fs (strip_names E folder fn dest).
Proof. unfold strip_names. frame. Qed.

Lemma keeps_fs_shorten (folder fn dest : string) (ext : option string) :
  keeps_fs (shorten E folder fn dest ext).
Proof.
  intros w. destruct (shorten_inv E folder fn dest ext w) as (t & -> & _). done.
Qed.

Lemma keeps_fs_resolve_target (folder fn : string) (ext : option string) :
  keeps_fs (resolve_target E folder fn ext).
Proof.
  unfold resolve_target. apply keeps_fs_bind; [apply keeps_fs_strip_names|].
  intros [[??]?]. apply keeps_fs_shorten.
Qed.

(** What opening a file for writing gives when it succeeds. *)
Lemma write_file_inv (p content : string) (w w' : world) (r : result unit) :
  write_file E p content w = (r, w') →
  (∃ e, r = Raise e ∧ w' = w)
  ∨ (r = Ok ()
     ∧ fs w' = <[abspath (cwd E) p := File content]> (fs w)
     ∧ trace w' = trace w ++ [EvWrite (abspath (cwd E) p) content]).
Proof.
  unfold write_file, open_out, get_fs, put_fs, emit. unfold_monad.
  destruct (lookup_node (fs w) (parent (abspath (cwd E) p))) as [[|?]|];
    [|intros [= <- <-]; left; by eexists..].
  destruct (lookup_node (fs w) (abspath (cwd E) p)) as [[|?]|];
    intros [= <- <-]; [left; by eexists|by right..].
Qed.

Lemma append_file_inv (p line : string) (w w' : world) (r : result unit) :
  append_file E p line w = (r, w') →
  (∃ e, r = Raise e ∧ w' = w)
  ∨ (∃ old, r = Ok ()
     ∧ lookup_node (fs w) (abspath (cwd E) p) = (File <$> old)
     ∧ fs w' = <[abspath (cwd E) p := File (default "" old +:+ line)]> (fs w)
     ∧ trace w' = trace w ++ [EvAppend (abspath (cwd E) p) line]).
Proof.
  unfold append_file, open_out, get_fs, put_fs, emit. unfold_monad.
  destruct (lookup_node (fs w) (parent (abspath (cwd E) p))) as [[|?]|];
    [|intros [= <- <-]; left; by eexists..].
  destruct (lookup_node (fs w) (abspath (cwd E) p)) as [[|old]|] eqn:Hl;
    intros [= <- <-]; [left; by eexists| |].
  - right. by exists (Some old).
  - right. by exists None.
Qed.

Lemma keeps_sidecar_only {A} (m : M A) : keeps_fs m → sidecar_only E m.
Proof. intros H w. left. apply H. Qed.

Lemma sidecar_only_bind_l {A B} (m : M A) (k : A → M B) :
  keeps_fs m → (∀ a, sidecar_only E (k a)) → sidecar_only E (m ≫= k).
Proof.
  intros Hm Hk w. unfold mbind, M_bind, bind. specialize (Hm w).
  destruct (m w) as [[a|e] w1]; simpl in *; [|by left].
  rewrite <- Hm. apply Hk.
Qed.

Lemma sidecar_only_bind_r {A B} (m : M A) (k : A → M B) :
  sidecar_only E m → (∀ a, keeps_fs (k a)) → sidecar_only E (m ≫= k).
Proof.
  intros Hm Hk w. unfold mbind, M_bind, bind. specialize (Hm w).
  destruct (m w) as [[a|e] w1]; simpl in *; [|done].
  by rewrite (Hk a w1).
Qed.

Lemma sidecar_only_append (folder line : string) :
  sidecar_only E
    (append_file E (abspath (cwd E) (folder +:+ "/" +:+ PATH_STORAGE_FN)) line).
Proof.
  intros w.
  destruct (append_file E (abspath (cwd E) (folder +:+ "/" +:+ PATH_STORAGE_FN))
              line w) as [r w'] eqn:H.
  apply append_file_inv in H as [(e & _ & ->)|(old & _ & _ & Hfs & _)]; [by left|].
  right. exists folder, (default "" old +:+ line). done.
Qed.

(** Under the debug flag [store] writes the side-car entry at most. *)
Lemma store_debug (t : target) (r : response) :
  DEBUG E = true → sidecar_only E (store E t r).
Proof.
  intros Hd. unfold store. rewrite Hd. simpl negb.
  apply sidecar_only_bind_l; [frame|intros ex].
  apply sidecar_only_bind_l; [frame|intros _].
  apply sidecar_only_bind_r; [|intros; frame].
  case_bool_decide; [|apply keeps_sidecar_only; frame].
  apply sidecar_only_bind_l; [frame|intros _].
  apply sidecar_only_append.
Qed.

End WithEnv.

End FrameFacts.
Import FrameFacts.

(** ** The destination of a download *)
Module TargetFacts.

Section WithEnv.
Context (E : env).

(** After the characters are taken out, the destination is the file
    name joined onto the folder. *)
Lemma strip_names_dest folder fn w folder' fn' dest' w' :
  strip_names E folder fn (abspath (cwd E) (folder +:+ "/" +:+ fn)) w
  = (Ok (folder', fn', dest'), w') →
  dest' = abspath (cwd E) (folder' +:+ "/" +:+ fn').
Proof.
  intros H. apply strip_names_inv in H.
  destruct (relpath (cwd E) (abspath (cwd E) (folder +:+ "/" +:+ fn)))
    as [rel_path|]; [|by destruct H].
  destruct (relpath (cwd E) (sub forbidden_fn_chars_re "" rel_path))
    as [rel_path2|]; [|by destruct H].
  case_bool_decide.
  - destruct H as (_ & _ & H). destruct (relpath (cwd E) folder); [|done].
    by injection H as <- <- <-.
  - destruct H as [H _]. by injection H as <- <- <-.
Qed.

End WithEnv.

End TargetFacts.
Import TargetFacts.

(** ** Internet shortcuts *)
Module ShortcutFacts.

Lemma some_or_ok {A} (e : exn) (o : option A) (w w' : world) (a : A) :
  some_or e o w = (Ok a, w') → o = Some a ∧ w' = w.
Proof. destruct o; [|done]. by intros [= <- <-]. Qed.

(** The address in a match of the pattern for URL resources. *)
Lemma dl_re_target (page : string) (m : rmatch) :
  search dl_re page 0 = Some m → forallb any (default "" (mgroup m 2)) = true.
Proof.
  intros (pre & v & post & _ & _ & _ & _ & Hc & _)%search_lang.
  destruct (mgroup m 2) as [x|] eqn:Hx; [|done].
  destruct (group_lang dl_re _ 2 x Hc Hx) as (r2 & Hin & Hl).
  rewrite groups_of_dl_re in Hin. destruct Hin as [[=]|[[= <-]|[]]].
  by apply lang_star_chr in Hl.
Qed.

End ShortcutFacts.
Import ShortcutFacts.

(** ** The menu of courses *)
Module CourseFacts.

Lemma lang_times_chr (n : nat) (p : ascii → bool) (v : string) :
  lang (times n (Chr p)) v → len v = n ∧ forallb p v = true.
Proof.
  revert v. induction n as [|n IH]; intros v H.
  - by apply lang_eps_inv in H as ->.
  - destruct n as [|n].
    + apply lang_chr_inv in H as (a & -> & Hp). split; [done|].
      simpl. by rewrite Hp.
    + change (times (S (S n)) (Chr p)) with (Seq (Chr p) (times (S n) (Chr p))) in H.
      apply lang_seq_inv in H as (u & t & -> & Hu & Ht).
      apply lang_chr_inv in Hu as (a & -> & Hp). apply IH in Ht as [Hl Hf].
      rewrite app_cons, app_nil_l, len_cons, Hl. split; [done|].
      simpl. by rewrite Hp, Hf.
Qed.

Lemma lang_code_re (v : string) : lang code_re v → code_block v.
Proof.
  intros (l & d & -> & Hl & Hd)%lang_seq_inv.
  apply lang_times_chr in Hl as [??]. apply lang_times_chr in Hd as [??].
  by exists l, d.
Qed.

Lemma lang_code_tail (g : bool) (v : string) :
  lang (Star g (Seq (lit "-") code_re)) v → code_tail v.
Proof.
  intros H. remember (Star g (Seq (lit "-") code_re)) as r eqn:Hr.
  induction H; try discriminate; [constructor|].
  injection Hr as -> ->.
  apply lang_seq_inv in H as (h & b & -> & Hh & Hb).
  apply (lang_lit "-") in Hh as ->. apply lang_code_re in Hb.
  rewrite app_assoc. constructor; [done|]. by apply IHlang2.
Qed.

Lemma lang_course_code (v : string) :
  lang (Seq code_re (star (Seq (lit "-") code_re))) v → course_code v.
Proof.
  intros (b & t & -> & Hb & Ht)%lang_seq_inv.
  apply lang_code_re in Hb. apply lang_code_tail in Ht. by exists b, t.
Qed.

Lemma groups_of_course_re :
  groups_of course_re
  = [(1, star (Chr digit)); (2, Seq code_re (star (Seq (lit "-") code_re)));
     (3, lazy_star (Chr any))].
Proof. reflexivity. Qed.

(** Every match among the pieces of a text has the groups of the
    pattern. *)
Lemma pieces_lang (r : regex) (fuel : nat) (adv : bool) (s : string) :
  Forall (λ pc, caps_from r pc.2 ∧ bound r pc.2) (pieces fuel r adv s).1.
Proof.
  revert adv s. induction fuel as [|fuel IH]; intros adv s; [constructor|].
  cbn [pieces]. destruct (scan r adv 0 s) as [[[[j s1] s2] c]|] eqn:Hs; [|constructor].
  specialize (IH (len s2 =? len s1) s2).
  destruct (pieces fuel r (len s2 =? len s1) s2) as [l tl]. simpl in *.
  constructor; [|done].
  by apply scan_lang in Hs as (_ & _ & _ & _ & _ & _ & ? & ?).
Qed.

(** What [findall] gives for the pattern of a menu entry. *)
Lemma findall3_course_re (text : string) :
  Forall (λ g, forallb digit g.1.1 = true ∧ course_code g.1.2
               ∧ forallb any g.2 = true)
    (findall3 course_re text).
Proof.
  unfold findall3, all_pieces. apply Forall_fmap.
  eapply Forall_impl; [apply pieces_lang|]. intros [pre c] [Hc Hb]. simpl in *.
  destruct (Hb 1 eq_refl) as [v1 H1]. destruct (Hb 2 eq_refl) as [v2 H2].
  destruct (Hb 3 eq_refl) as [v3 H3]. rewrite H1, H2, H3. simpl.
  destruct (group_lang _ _ _ _ Hc H1) as (r1 & Hin1 & Hl1).
  destruct (group_lang _ _ _ _ Hc H2) as (r2 & Hin2 & Hl2).
  destruct (group_lang _ _ _ _ Hc H3) as (r3 & Hin3 & Hl3).
  rewrite groups_of_course_re in Hin1, Hin2, Hin3.
  destruct Hin1 as [[= <-]|[[=]|[[=]|[]]]].
  destruct Hin2 as [[=]|[[= <-]|[[=]|[]]]].
  destruct Hin3 as [[=]|[[=]|[[= <-]|[]]]].
  split_and!; [by apply lang_star_chr in Hl1|by apply lang_course_code|
               by apply lang_star_chr in Hl3].
Qed.

(** The dictionary after the loop. *)
Lemma foldl_add_course_Forall (P : string → string * string → Prop)
    (groups : list (string * string * string))
    (courses : gmap string (string * string)) :
  map_Forall P courses →
  Forall (λ g, P g.1.2 (g.1.1, g.2)) groups →
  map_Forall P (foldl add_course courses groups).
Proof.
  revert courses. induction groups as [|[[id code] name] groups IH];
    intros courses Hm Hg; [done|].
  apply Forall_cons in Hg as [Hg1 Hg]. simpl. apply IH; [|done].
  by apply map_Forall_insert_2.
Qed.

Lemma last_entry_cons (code : string) (g : string * string * string)
    (groups : list (string * string * string)) :
  last_entry code (g :: groups)
  = match last_entry code groups with
    | Some e => Some e
    | None => if bool_decide (g.1.2 = code) then Some (g.1.1, g.2) else None
    end.
Proof.
  unfold last_entry. cbn [List.filter].
  destruct (bool_decide (g.1.2 = code)).
  - destruct (List.filter _ groups) as [|g' l] eqn:Hf; [done|].
    change (last (g :: g' :: l)) with (last (g' :: l)).
    destruct (last (g' :: l)) eqn:Hl; [done|].
    by apply last_None in Hl.
  - by destruct (last (List.filter _ groups)).
Qed.

Lemma foldl_add_course_lookup (groups : list (string * string * string))
    (courses : gmap string (string * string)) (code : string) :
  foldl add_course courses groups !! code
  = match last_entry code groups with
    | Some e => Some e
    | None => courses !! code
    end.
Proof.
  revert courses. induction groups as [|[[id c] name] groups IH]; intros courses;
    [done|].
  simpl foldl. rewrite IH, last_entry_cons.
  destruct (last_entry code groups); [done|]. simpl.
  case_bool_decide as Hc.
  - subst c. apply lookup_insert_eq.
  - by apply lookup_insert_ne.
Qed.

Lemma search_group_lit_absent (n : nat) (t : string) (r : regex) (text : string)
    (pos : nat) :
  find t text = None → search (Group n (Seq (lit t) r)) text pos = None.
Proof.
  intros H. unfold search. rewrite scan_fail; [done|].
  intros p1 p2 b Hs. rewrite run_group, run_seq, run_lit.
  assert (startswith t p2 = false) as ->; [|done].
  apply (find_none _ _ (find_none_drop t text (Nat.min pos (len text)) H) p1 p2 Hs).
Qed.

Lemma search_group_lit_only_absent (n : nat) (t : string) (text : string)
    (pos : nat) :
  find t text = None → search (Group n (lit t)) text pos = None.
Proof.
  intros H. unfold search. rewrite scan_fail; [done|].
  intros p1 p2 b Hs. rewrite run_group, run_lit.
  assert (startswith t p2 = false) as ->; [|done].
  apply (find_none _ _ (find_none_drop t text (Nat.min pos (len text)) H) p1 p2 Hs).
Qed.

End CourseFacts.
Import CourseFacts.

(** ** The selection of courses *)
Module SelectFacts.

(** *** Reading a decimal numeral *)

Lemma digit_not_int_space (a : ascii) : digit a = true → int_space a = false.
Proof.
  unfold digit, int_space, between. intros [H1 H2]%andb_true_iff.
  apply Nat.leb_le in H1, H2.
  rewrite !orb_false_iff, !andb_false_iff, !Nat.leb_gt. lia.
Qed.

Lemma lstrip_digits (s : string) : forallb digit s = true → lstrip s = s.
Proof.
  destruct s as [|a s]; [done|]. rewrite forallb_cons.
  intros [Ha _]%andb_true_iff. simpl. by rewrite digit_not_int_space.
Qed.

Lemma rstrip_digits (s : string) : forallb digit s = true → rstrip s = s.
Proof.
  induction s as [|a s IH]; [done|]. rewrite forallb_cons.
  intros [Ha Hs]%andb_true_iff. simpl. rewrite IH by done.
  destruct s; [|done]. by rewrite digit_not_int_space.
Qed.

Lemma pretty_N_char_val (y : N) :
  (y < 10)%N → (Z.of_nat (nat_of_ascii (pretty_N_char y)) - 48 = Z.of_N y)%Z.
Proof.
  intros Hy.
  assert (y = 0 ∨ y = 1 ∨ y = 2 ∨ y = 3 ∨ y = 4 ∨ y = 5 ∨ y = 6 ∨ y = 7
          ∨ y = 8 ∨ y = 9)%N as H by lia.
  by repeat (destruct H as [->|H]; [done|]); subst y.
Qed.

Lemma digits_val_go (x : N) :
  (0 < x)%N →
  ∃ d : nat, ∀ acc prev s,
    digits_val acc prev (pretty_N_go x s)
    = digits_val (acc * 10 ^ Z.of_nat d + Z.of_N x)%Z true s.
Proof.
  induction (N.lt_wf_0 x) as [x _ IH]. intros Hx.
  pose proof (N.div_mod x 10 ltac:(done)) as Hdm.
  pose proof (N.mod_lt x 10 ltac:(done)) as Hm.
  destruct (decide (x `div` 10 = 0)%N) as [Hq|Hq].
  - exists 1. intros acc prev s. rewrite pretty_N_go_step by done.
    rewrite Hq, pretty_N_go_0. cbn [digits_val].
    rewrite pretty_N_char_digit, pretty_N_char_val by done.
    f_equal. change (10 ^ Z.of_nat 1)%Z with 10%Z. lia.
  - destruct (IH (x `div` 10)%N) as [d Hd]; [apply N.div_lt; lia|lia|].
    exists (S d). intros acc prev s. rewrite pretty_N_go_step by done.
    rewrite Hd. cbn [digits_val].
    rewrite pretty_N_char_digit, pretty_N_char_val by done.
    f_equal. rewrite Nat2Z.inj_succ, Z.pow_succ_r by lia. lia.
Qed.

Lemma digits_val_str (k : nat) : digits_val 0 false (str k) = Some (Z.of_nat k).
Proof.
  unfold str, pretty, pretty_nat, pretty, pretty_N. case_decide as Hk.
  - by replace k with 0 by lia.
  - destruct (digits_val_go (N.of_nat k)) as [d Hd]; [lia|].
    rewrite Hd. simpl. f_equal. lia.
Qed.

(** Reading back a number written in decimal gives the number. *)
Lemma int_str (k : nat) : int (str k) = Some (Z.of_nat k).
Proof.
  unfold int. pose proof (str_digits k) as Hd.
  rewrite lstrip_digits, rstrip_digits by done.
  pose proof (digits_val_str k) as Hv.
  destruct (str k) as [|a t]; [done|].
  rewrite forallb_cons in Hd. apply andb_true_iff in Hd as [Ha _].
  destruct a as [[] [] [] [] [] [] [] []]; try discriminate Ha; exact Hv.
Qed.

(** *** Splitting at commas *)

Lemma split_join_sep (c : ascii) (l : list string) :
  l ≠ [] → Forall (λ x, contains c x = false) l →
  split c (join (String c "") l) = l.
Proof.
  induction l as [|x l IH]; intros Hne Hl; [done|].
  apply Forall_cons in Hl as [Hx Hl]. destruct l as [|y l].
  - by apply split_plain.
  - rewrite join_cons, app_cons, app_nil_l, split_app_sep, split_plain by done.
    by rewrite IH.
Qed.

Lemma digits_no_comma (s : string) : forallb digit s = true → contains "," s = false.
Proof.
  induction s as [|a s IH]; [done|]. rewrite forallb_cons.
  intros [Ha Hs]%andb_true_iff. rewrite contains_cons, IH by done.
  destruct (Ascii.eqb "," a) eqn:He; [|done].
  apply Ascii.eqb_eq in He as <-. done.
Qed.

(** *** The sorted list of codes *)

Lemma insert_sorted_perm (x : string) (l : list string) : insert_sorted x l ≡ₚ x :: l.
Proof.
  induction l as [|y l IH]; [done|]. simpl. destruct (str_ltb y x); [|done].
  rewrite IH. apply Permutation_swap.
Qed.

Lemma sort_perm (l : list string) : sort l ≡ₚ l.
Proof.
  induction l as [|x l IH]; [done|]. simpl. by rewrite insert_sorted_perm, IH.
Qed.

Lemma course_list_length (courses : gmap string (string * string)) :
  length (course_list courses) = size courses.
Proof.
  unfold course_list. by rewrite sort_perm, length_fmap, length_map_to_list.
Qed.

Lemma course_list_lookup (courses : gmap string (string * string)) (i : nat)
    (code : string) :
  course_list courses !! i = Some code → is_Some (courses !! code).
Proof.
  intros H%list_elem_of_lookup_2. unfold course_list in H.
  rewrite sort_perm in H. apply list_elem_of_fmap in H as ([c e] & -> & H).
  apply elem_of_map_to_list in H. by exists e.
Qed.

(** Every place of the list holds a course. *)
Lemma course_at_some (courses : gmap string (string * string)) (i : nat) :
  i < size courses → is_Some (course_at courses i).
Proof.
  intros Hi. rewrite <- course_list_length in Hi.
  apply lookup_lt_is_Some in Hi as [code Hc]. unfold course_at. rewrite Hc. simpl.
  destruct (course_list_lookup _ _ _ Hc) as [e ->]. by eexists.
Qed.

(** *** One course number *)

Lemma select_course_index (courses : gmap string (string * string))
    (course_number : string) (n : Z) (i : nat) :
  int course_number = Some n →
  index (course_list courses) (n - 1) = course_list courses !! i →
  i < size courses →
  ∃ c, select_course courses course_number = inr c ∧ course_at courses i = Some c.
Proof.
  intros Hn Hidx Hi. unfold select_course. rewrite Hn, Hidx.
  destruct (course_at_some courses i Hi) as [c Hc]. exists c. split; [|done].
  unfold course_at in Hc. destruct (course_list courses !! i) as [code|]; [|done].
  simpl in Hc. destruct (courses !! code) as [[id name]|]; [|done].
  simpl in Hc. by injection Hc as <-.
Qed.

Lemma select_course_str (courses : gmap string (string * string)) (k : nat) :
  1 ≤ k ≤ size courses →
  ∃ c, select_course courses (str k) = inr c ∧ course_at courses (k - 1) = Some c.
Proof.
  intros Hk. apply (select_course_index _ _ (Z.of_nat k)); [apply int_str| |lia].
  unfold index. rewrite (proj2 (Z.leb_le 0 (Z.of_nat k - 1))) by lia.
  f_equal. lia.
Qed.

End SelectFacts.
Import SelectFacts.

(** ** The form of a folder, wherever it stands on the page *)
Module FormFacts.

(** Where the pattern fits at no earlier place, the scan passes over
    what comes before. *)
Lemma no_match_before (r : regex) (pre s : string) :
  (∀ j, j < len pre → match_at r (pre +:+ s) j = None) →
  ∀ p1 p2, pre = p1 +:+ p2 → p2 ≠ "" →
    run r (p2 +:+ s) [] (accept false (p2 +:+ s)) = None.
Proof.
  intros H p1 p2 -> Hne. specialize (H (len p1)).
  unfold match_at in H. rewrite app_assoc, drop_app in H.
  destruct (run r (p2 +:+ s) [] (accept false (p2 +:+ s))) as [[s' c]|]; [|done].
  discriminate H. rewrite len_app.
  destruct p2; [done|]. rewrite len_cons. lia.
Qed.

(** The end of the form tag holds a line break, so it does not start
    inside a text without line break that comes before it. *)
Lemma close_not_early (a2 rest : string) :
  forallb any a2 = true → a2 ≠ "" →
  startswith CLOSE (a2 +:+ CLOSE +:+ rest) = false.
Proof.
  intros Hany Hne.
  change CLOSE with (String quote (String " " (String ">" (String newline "")))).
  destruct a2 as [|x1 a2]; [done|].
  rewrite app_cons, startswith_cons.
  destruct (Ascii.eqb quote x1); [|done].
  destruct a2 as [|x2 a2]; [done|].
  rewrite app_cons, startswith_cons.
  destruct (Ascii.eqb " " x2); [|done].
  destruct a2 as [|x3 a2]; [done|].
  rewrite app_cons, startswith_cons.
  destruct (Ascii.eqb ">" x3); [|done].
  destruct a2 as [|x4 a2]; [done|].
  rewrite app_cons, startswith_cons.
  rewrite !forallb_cons in Hany.
  apply andb_prop in Hany as [_ [_ [_ [H4 _]%andb_prop]%andb_prop]%andb_prop].
  unfold any in H4. rewrite Ascii.eqb_sym.
  by destruct (Ascii.eqb x4 newline).
Qed.

(** The pattern of the hidden field reads a numeric id field only. *)
Lemma id_field_none {R} (s : string) (c : caps) (k : string → caps → option R) :
  ¬ numeric_id_at s →
  run (seqs [lit IDVAL; Group 2 (plus (Chr digit)); lit TAGEND]) s c k = None.
Proof.
  intros Hno.
  destruct (run _ s c k) as [x|] eqn:Hr; [|done].
  exfalso. apply Hno.
  apply run_lang in Hr as (v & s' & new & -> & Hl & _).
  cbn [seqs] in Hl.
  apply lang_seq_inv in Hl as (u1 & v1 & -> & H1 & Hl).
  apply lang_seq_inv in Hl as (d & u3 & -> & H2 & H3).
  apply lang_lit in H1 as ->. apply lang_lit in H3 as ->.
  apply lang_group_inv, lang_plus_chr in H2 as [Hne Hd].
  exists d, s'. split; [|done]. by rewrite !app_assoc.
Qed.

(** A field that is the first to hold [name='id' value='] is the first
    numeric one. *)
Lemma first_id_field (mid rest : string) :
  find IDVAL (mid +:+ IDVAL) = Some (len mid) →
  ∀ m1 m2, mid = m1 +:+ m2 → m2 ≠ "" → ¬ numeric_id_at (m2 +:+ IDVAL +:+ rest).
Proof.
  intros Hid m1 m2 Hm Hne (d & rest' & Heq & _).
  pose proof (first_occurrence IDVAL mid rest Hid m1 m2 Hm Hne) as Hs.
  by rewrite Heq, startswith_app in Hs.
Qed.

(** The pattern read from the start of the form tag. *)
Lemma folder_form_run (attrs A mid N post s0 : string) :
  forallb any attrs = true →
  find ACTION (attrs +:+ ACTION) = Some (len attrs) →
  forallb any A = true →
  forallb any mid = true →
  (∀ m1 m2, mid = m1 +:+ m2 → m2 ≠ "" →
     ¬ numeric_id_at (m2 +:+ IDVAL +:+ N +:+ TAGEND +:+ post)) →
  N ≠ "" → forallb digit N = true →
  run folder_re
    (FORM +:+ attrs +:+ ACTION +:+ A +:+ CLOSE +:+ mid +:+ IDVAL +:+ N
     +:+ TAGEND +:+ post) [] (accept false s0)
  = Some (post, [(2, N); (1, A)]).
Proof.
  intros Hattrs Hact HA Hmid Hid HN HNd.
  unfold folder_re. fold FORM ACTION CLOSE IDVAL TAGEND.
  unfold lazy_star.
  change (seqs (?a :: ?b :: ?l)) with (Seq a (seqs (b :: l))).
  rewrite run_seq, run_lit_app.
  change (seqs (?a :: ?b :: ?l)) with (Seq a (seqs (b :: l))).
  rewrite run_seq, run_lazy_chr, lazy_chr_skip; [|done|].
  2:{ intros p1 p2 Hp Hne.
      change (seqs (?a :: ?b :: ?l)) with (Seq a (seqs (b :: l))).
      by rewrite run_seq, run_lit, (first_occurrence ACTION attrs _ Hact p1 p2). }
  apply lazy_chr_here.
  change (seqs (?a :: ?b :: ?l)) with (Seq a (seqs (b :: l))).
  rewrite run_seq, run_lit_app.
  change (seqs (?a :: ?b :: ?l)) with (Seq a (seqs (b :: l))).
  rewrite run_seq, run_group, run_lazy_chr, lazy_chr_skip; [|done|].
  2:{ intros a1 a2 Ha Hne.
      change (seqs (?a :: ?b :: ?l)) with (Seq a (seqs (b :: l))).
      rewrite run_seq, run_lit, close_not_early; [done| |done].
      rewrite Ha, forallb_app in HA. by apply andb_prop in HA as [_ ?]. }
  apply lazy_chr_here.
  change (seqs (?a :: ?b :: ?l)) with (Seq a (seqs (b :: l))).
  rewrite run_seq, run_lit_app.
  change (seqs (?a :: ?b :: ?l)) with (Seq a (seqs (b :: l))).
  rewrite run_seq, run_lazy_chr, lazy_chr_skip; [|done|].
  2:{ intros p1 p2 Hp Hne. apply id_field_none. by apply (Hid p1 p2). }
  apply lazy_chr_here.
  change (seqs (?a :: ?b :: ?l)) with (Seq a (seqs (b :: l))).
  rewrite run_seq, run_lit_app.
  rewrite folder_id_run by done.
  do 3 f_equal.
  replace (A +:+ CLOSE +:+ mid +:+ IDVAL +:+ N +:+ TAGEND +:+ post)
    with (A +:+ (CLOSE +:+ mid +:+ IDVAL +:+ N +:+ TAGEND +:+ post)) by done.
  by rewrite consumed_app.
Qed.

Lemma folder_form_search (pre attrs A mid N post : string) :
  (∀ j, j < len pre →
     match_at folder_re
       (pre +:+ FORM +:+ attrs +:+ ACTION +:+ A +:+ CLOSE +:+ mid +:+ IDVAL
        +:+ N +:+ TAGEND +:+ post) j = None) →
  forallb any attrs = true →
  find ACTION (attrs +:+ ACTION) = Some (len attrs) →
  forallb any A = true →
  forallb any mid = true →
  (∀ m1 m2, mid = m1 +:+ m2 → m2 ≠ "" →
     ¬ numeric_id_at (m2 +:+ IDVAL +:+ N +:+ TAGEND +:+ post)) →
  N ≠ "" → forallb digit N = true →
  ∃ m, search folder_re
         (pre +:+ FORM +:+ attrs +:+ ACTION +:+ A +:+ CLOSE +:+ mid +:+ IDVAL
          +:+ N +:+ TAGEND +:+ post) 0 = Some m
       ∧ m_start m = len pre ∧ mgroup m 1 = Some A ∧ mgroup m 2 = Some N.
Proof.
  intros Hpre Hattrs Hact HA Hmid Hid HN HNd. unfold search.
  rewrite Nat.min_0_l. change (drop 0 ?s) with s.
  erewrite scan_skip; [|..|by apply folder_form_run].
  - eexists. split; [reflexivity|]. done.
  - by apply no_match_before.
Qed.

(** A page on which the first form tag is the one of the folder. *)
Lemma first_form_tag (pre rest : string) :
  find FORM (pre +:+ FORM) = Some (len pre) →
  ∀ j, j < len pre → match_at folder_re (pre +:+ FORM +:+ rest) j = None.
Proof.
  intros Hpre j Hj. unfold match_at.
  assert (run folder_re (drop j (pre +:+ FORM +:+ rest)) []
            (accept false (drop j (pre +:+ FORM +:+ rest))) = None) as ->; [|done].
  rewrite drop_app_le by lia.
  unfold folder_re. fold FORM.
  change (seqs (?a :: ?b :: ?l)) with (Seq a (seqs (b :: l))).
  rewrite run_seq, run_lit.
  rewrite (first_occurrence FORM pre rest Hpre (take j pre) (drop j pre));
    [done|by rewrite take_drop|by apply drop_nonempty].
Qed.

End FormFacts.
Import FormFacts.

(** * The claims *)

(** C1 (the code against the claim). With the debug flag set the program
    still writes to the file system: the handler of a URL resource creates
    the folder and the shortcut file, the indirection page of a file is
    dumped to [ouput.txt], and [downloadFile] appends the side-car entry of
    a shortened path.  Only the two writes [downloadFile] guards by the
    flag, the folder and the downloaded file, are skipped. *)
Theorem C1_debug_still_writes :
  DEBUG debug_env = true
  ∧ fs_writes (trace (snd (download_url debug_env url_item "dl" "Course site" home_world)))
    = [EvMkdir "/home/u/dl/Single Files";
       EvWrite "/home/u/dl/Single Files/Course site.url"
         ("[InternetShortcut]" +:+ nl +:+ "URL=http://example.org/" +:+ nl)]
  ∧ fs_writes (trace (snd (download_file debug_env file_item "dl" "notes" home_world)))
    = [EvWrite "/home/u/ouput.txt" (portal_page +:+ nl)]
  ∧ fs_writes (trace (snd (downloadFile debug_env first_pdf deep_folder "first" deep_world)))
    = [EvAppend (deep_folder +:+ "/OrigFNames.txt")
         ("'" +:+ deep_folder +:+ "/rn1.pdf' ==> '" +:+ deep_folder +:+ "/"
          +:+ long_name "x" +:+ ".pdf'" +:+ nl)].
Proof. split_and!; vm_compute; reflexivity. Qed.

(** C2 (as the code has it). Whenever the sanitiser returns, the folder is
    at most 244 characters long (259, less the length of the side-car name,
    less one).  The full path is at most 259 characters long unless the file
    was given a synthetic name [rn<i>] or [rn<i>.<ext>] that is itself
    longer than the side-car name (14 characters); the path is then at most
    244 + 1 + the length of that name.  The path is not checked again after
    the renaming. *)
Theorem C2_path_ceilings (E : env) (dest_folder full_fn : string) (ext : option string)
    (w w' : world) (t : target) :
  isabs (cwd E) = true →
  resolve_target E dest_folder full_fn ext w = (Ok t, w') →
  len (t_dest_folder t) ≤ MAX_FOLDER_NAME_LEN
  ∧ (len (t_dest t) ≤ MAX_FILE_NAME_LEN
     ∨ ∃ i, t_full_fn t = synthetic_name i ext
            ∧ len PATH_STORAGE_FN < len (t_full_fn t)
            ∧ len (t_dest t) ≤ MAX_FOLDER_NAME_LEN + 1 + len (t_full_fn t)).
Proof.
  intros Hcwd. unfold resolve_target. cbv zeta.
  set (df0 := abspath (cwd E) (unquote E (sub amp_re "&" dest_folder))).
  unfold mbind, M_bind, bind.
  destruct (strip_names E df0 full_fn _ w) as [[[[folder fn] dest]|e] w1] eqn:Hstrip;
    [|done].
  intros Hshort. split; [by eapply shorten_folder_len|].
  assert (isabs folder = true) as Hfolder.
  { eapply strip_names_isabs; [done| |done]. by apply abspath_isabs. }
  destruct (shorten_inv E folder fn dest ext w1) as (t0 & Ht0 & _ & Hf & Hd).
  rewrite Ht0 in Hshort. inversion Hshort; subst t0 w'. clear Hshort Ht0.
  cbv zeta in Hd.
  assert (isabs (t_dest_folder t) = true ∧ len (t_dest_folder t) ≤ MAX_FOLDER_NAME_LEN)
    as [Habs Hlen].
  { rewrite Hf. destruct (MAX_FOLDER_NAME_LEN <? len folder) eqn:Hlt.
    - split; [apply isabs_take; [done|]; unfold MAX_FOLDER_NAME_LEN; vm_compute; lia|].
      rewrite len_take. lia.
    - split; [done|]. by apply Nat.ltb_ge in Hlt. }
  destruct (MAX_FILE_NAME_LEN <? len _) eqn:Hlong.
  - destruct Hd as (i & _ & Hfn & Hdest).
    assert (len (t_dest t) ≤ MAX_FOLDER_NAME_LEN + 1 + len (t_full_fn t)) as Hbound.
    { rewrite Hdest. etrans; [apply abspath_len; by apply isabs_app|].
      rewrite !len_app. change (len "/") with 1.
      change MAX_FOLDER_NAME_LEN with 244 in *. lia. }
    destruct (decide (len (t_full_fn t) ≤ len PATH_STORAGE_FN)) as [Hshort|Hnot].
    + left. change MAX_FOLDER_NAME_LEN with 244 in *.
      change MAX_FILE_NAME_LEN with 259. change (len PATH_STORAGE_FN) with 14 in *. lia.
    + right. exists i. split_and!; [done|lia|done].
  - left. destruct Hd as [_ ->]. by apply Nat.ltb_ge in Hlong.
Qed.

(** C2 on a PDF whose name is too long for its folder of 240 characters. *)
Lemma C2_path_ceilings_witness :
  len deep_folder ≤ MAX_FOLDER_NAME_LEN
  ∧ (len (deep_folder +:+ "/rn1.pdf") ≤ MAX_FILE_NAME_LEN
     ∨ ∃ i, "rn1.pdf" = synthetic_name i (Some "pdf")
            ∧ len PATH_STORAGE_FN < len "rn1.pdf"
            ∧ len (deep_folder +:+ "/rn1.pdf") ≤ MAX_FOLDER_NAME_LEN + 1 + len "rn1.pdf").
Proof.
  apply (C2_path_ceilings live_env deep_folder (long_name "x" +:+ ".pdf") (Some "pdf")
           deep_world deep_world
           {| t_dest_folder := deep_folder; t_full_fn := "rn1.pdf";
              t_dest := deep_folder +:+ "/rn1.pdf";
              t_orig_path := deep_folder +:+ "/" +:+ long_name "x" +:+ ".pdf" |}).
  - reflexivity.
  - vm_compute. reflexivity.
Defined.

(** C2 as claimed fails: with the extension [webmanifest] in the table, a
    long name in a folder of 244 characters is renamed to
    [rn1.webmanifest], and the path is 260 characters long. *)
Lemma C2_ceiling_counterexample :
  ∃ t, resolve_target live_env (deep_folder +:+ "dddd")
         (long_name "z" +:+ ".webmanifest") (Some "webmanifest") deep_world
       = (Ok t, deep_world)
     ∧ t_full_fn t = "rn1.webmanifest"
     ∧ len (t_dest t) = 260
     ∧ ¬ len (t_dest t) ≤ MAX_FILE_NAME_LEN.
Proof.
  eexists. split; [vm_compute; reflexivity|]. split; [reflexivity|].
  split; [vm_compute; reflexivity|]. vm_compute. lia.
Qed.

(** C3 (as the code has it). Let the working directory be absolute and free
    of the characters [: * ? ' < > |] (with ['] the double quote), and the
    resolved extension free of them too.  Whenever the sanitiser returns:
    the path it settles on before the length rules holds none of these
    characters; if taking them out of the relative path changed it, the
    three-line warning naming the relative path before and after is the
    only thing printed, and the folder and final path hold none of the
    characters either; otherwise nothing is printed.  The final path is
    free of the characters too whenever the length rules left the path as
    it was; nothing is said of a path that they rewrite after nothing was
    taken out.  The slash and the backslash are not taken out.  No
    side-car entry comes from this step: a path within both ceilings is
    the final one, and a final path equal to the one before the length
    rules has no entry appended. *)
Theorem C3_strip_and_warn (E : env) (dest_folder full_fn : string) (ext : option string)
    (w w' : world) (t : target) :
  isabs (cwd E) = true →
  free_of forbidden (cwd E) = true →
  (∀ e, ext = Some e → free_of forbidden e = true) →
  resolve_target E dest_folder full_fn ext w = (Ok t, w') →
  ∃ rel_path rel_path2,
    relpath (cwd E)
      (abspath (cwd E)
         (abspath (cwd E) (unquote E (sub amp_re "&" dest_folder)) +:+ "/" +:+ full_fn))
    = Some rel_path
    ∧ relpath (cwd E) (sub forbidden_fn_chars_re "" rel_path) = Some rel_path2
    ∧ fs w' = fs w
    ∧ trace w' = trace w ++ (if bool_decide (rel_path ≠ rel_path2)
                             then strip_warning rel_path rel_path2 else [])
    ∧ free_of forbidden (t_orig_path t) = true
    ∧ (rel_path ≠ rel_path2 →
       free_of forbidden (t_dest_folder t) = true ∧ free_of forbidden (t_dest t) = true)
    ∧ (len (t_dest_folder t) < MAX_FOLDER_NAME_LEN →
       len (t_orig_path t) ≤ MAX_FILE_NAME_LEN → t_dest t = t_orig_path t)
    ∧ (t_dest t = t_orig_path t →
       free_of forbidden (t_dest t) = true ∧ ∀ r, quiet (store E t r)).
Proof.
  intros Habs Hfree Hext. unfold resolve_target. cbv zeta.
  set (folder0 := abspath (cwd E) (unquote E (sub amp_re "&" dest_folder))).
  set (dest0 := abspath (cwd E) (folder0 +:+ "/" +:+ full_fn)).
  unfold mbind, M_bind, bind.
  destruct (strip_names E folder0 full_fn dest0 w) as [[[[folder fn] dest]|e] w1]
    eqn:Hstrip; [|done].
  intros Hshort. apply strip_names_inv in Hstrip.
  destruct (relpath (cwd E) dest0) as [rel_path|] eqn:Hr1; [|by destruct Hstrip].
  destruct (relpath (cwd E) (sub forbidden_fn_chars_re "" rel_path)) as [rel_path2|]
    eqn:Hr2; [|by destruct Hstrip].
  exists rel_path, rel_path2.
  assert (w' = w1 ∧ t_orig_path t = dest) as [-> Horig].
  { destruct (shorten_inv E folder fn dest ext w1) as (t0 & Ht0 & ? & _).
    rewrite Ht0 in Hshort. by inversion Hshort; subst. }
  pose proof (shorten_keeps E folder fn dest ext w1 t w1 Hshort) as Hkeep.
  pose proof (shorten_free E Hfree folder fn dest ext w1 t w1 Hext) as Hclean.
  rewrite Horig.
  assert (free_of forbidden rel_path2 = true) as Hrel2.
  { eapply relpath_free; [apply forbidden_slash|apply forbidden_dot| |done].
    apply abspath_free; [apply forbidden_slash|apply forbidden_dot|done|].
    apply strip_free. }
  case_bool_decide as Hch.
  - destruct Hstrip as (Hfs & Htr & Hrest).
    destruct (relpath (cwd E) folder0) as [rdf|]; [|done]. cbv zeta in Hrest.
    injection Hrest as Hfolder_eq Hfn_eq Hdest_eq.
    assert (free_of forbidden folder = true) as Hfolder.
    { rewrite Hfolder_eq.
      apply abspath_free; [apply forbidden_slash|apply forbidden_dot|done|].
      apply strip_free. }
    assert (free_of forbidden fn = true) as Hfn.
    { rewrite Hfn_eq. apply strip_free. }
    assert (free_of forbidden dest = true) as Hdest.
    { rewrite Hdest_eq.
      apply abspath_free; [apply forbidden_slash|apply forbidden_dot|done|].
      rewrite <-Hfolder_eq, <-Hfn_eq.
      apply free_app_iff. split; [done|]. apply free_app_iff. by split. }
    split_and!; [done..| |done|].
    + intros _. by apply Hclean.
    + intros Heq. split; [by rewrite Heq|].
      intros r. apply store_quiet. by rewrite Horig.
  - destruct Hstrip as [Heq ->]. injection Heq as Hfolder_eq Hfn_eq Hdest_eq.
    assert (rel_path = rel_path2) as <- by (by destruct (decide (rel_path = rel_path2))).
    assert (free_of forbidden dest = true) as Hdest.
    { rewrite Hdest_eq. unfold dest0. rewrite <-(abspath_idem (cwd E)) by done. fold dest0.
      eapply relpath_free_inv; [apply forbidden_slash|apply forbidden_dot|done..]. }
    split_and!; [done|done|done|by rewrite List.app_nil_r|done| |done|].
    + intros Hne. by destruct Hch.
    + intros Heq. split; [by rewrite Heq|].
      intros r. apply store_quiet. by rewrite Horig.
Qed.

(** C3 on the folder [dl/Week 1: a\b]: the colon goes, the backslash
    stays, and the warning is all that is printed. *)
Lemma C3_strip_and_warn_witness :
  ∃ rel_path rel_path2,
    relpath "/home/u"
      (abspath "/home/u" (abspath "/home/u" odd_folder +:+ "/" +:+ "notes.pdf"))
    = Some rel_path
    ∧ relpath "/home/u" (sub forbidden_fn_chars_re "" rel_path) = Some rel_path2
    ∧ fs home_world = fs home_world
    ∧ trace {| fs := fs home_world;
               trace := strip_warning "dl/Week 1: a\b/notes.pdf" "dl/Week 1 a\b/notes.pdf" |}
      = trace home_world ++ (if bool_decide (rel_path ≠ rel_path2)
                             then strip_warning rel_path rel_path2 else [])
    ∧ free_of forbidden "/home/u/dl/Week 1 a\b/notes.pdf" = true
    ∧ (rel_path ≠ rel_path2 →
       free_of forbidden "/home/u/dl/Week 1 a\b" = true
       ∧ free_of forbidden "/home/u/dl/Week 1 a\b/notes.pdf" = true)
    ∧ (len "/home/u/dl/Week 1 a\b" < MAX_FOLDER_NAME_LEN →
       len "/home/u/dl/Week 1 a\b/notes.pdf" ≤ MAX_FILE_NAME_LEN →
       "/home/u/dl/Week 1 a\b/notes.pdf" = "/home/u/dl/Week 1 a\b/notes.pdf")
    ∧ ("/home/u/dl/Week 1 a\b/notes.pdf" = "/home/u/dl/Week 1 a\b/notes.pdf" →
       free_of forbidden "/home/u/dl/Week 1 a\b/notes.pdf" = true
       ∧ ∀ r, quiet (store live_env
                     {| t_dest_folder := "/home/u/dl/Week 1 a\b";
                        t_full_fn := "notes.pdf";
                        t_dest := "/home/u/dl/Week 1 a\b/notes.pdf";
                        t_orig_path := "/home/u/dl/Week 1 a\b/notes.pdf" |} r)).
Proof.
  apply (C3_strip_and_warn live_env odd_folder "notes.pdf" (Some "pdf") home_world
           {| fs := fs home_world;
              trace := strip_warning "dl/Week 1: a\b/notes.pdf" "dl/Week 1 a\b/notes.pdf" |}
           {| t_dest_folder := "/home/u/dl/Week 1 a\b"; t_full_fn := "notes.pdf";
              t_dest := "/home/u/dl/Week 1 a\b/notes.pdf";
              t_orig_path := "/home/u/dl/Week 1 a\b/notes.pdf" |}).
  - reflexivity.
  - reflexivity.
  - intros e [= <-]. reflexivity.
  - vm_compute. reflexivity.
Defined.

(** C3 as claimed fails: the name of the folder is changed and the warning
    is printed, but no side-car entry is recorded (the only writes are the
    folder and the file), and the backslash is still in the path.  And for
    a file name that climbs out of a folder with a colon, nothing is taken
    out of the relative path, so that the path the length rules build from
    the folder as it was given holds the colon. *)
Lemma C3_no_entry_counterexample :
  fst (downloadFile live_env notes_pdf odd_folder "notes" home_world) = Ok ()
  ∧ trace (snd (downloadFile live_env notes_pdf odd_folder "notes" home_world))
    = [EvOpen notes_pdf; EvPrint "Downloading 'notes'"]
      ++ strip_warning "dl/Week 1: a\b/notes.pdf" "dl/Week 1 a\b/notes.pdf"
      ++ [EvMkdir "/home/u/dl/Week 1 a\b";
          EvWrite "/home/u/dl/Week 1 a\b/notes.pdf" "PDFDATA"]
  ∧ appends (trace (snd (downloadFile live_env notes_pdf odd_folder "notes" home_world)))
    = []
  ∧ contains "\" "/home/u/dl/Week 1 a\b/notes.pdf" = true
  ∧ ∃ t, resolve_target live_env "dl/x:y" ("../" +:+ rep 250 "n" +:+ ".pdf")
           (Some "pdf") home_world
         = (Ok t, home_world)
       ∧ t_orig_path t = "/home/u/dl/" +:+ rep 250 "n" +:+ ".pdf"
       ∧ t_dest t = "/home/u/dl/x:y/rn1.pdf"
       ∧ contains ":" (t_dest t) = true.
Proof.
  split_and!; [vm_compute; reflexivity..|].
  eexists. split_and!; vm_compute; reflexivity.
Qed.

(** C4 (the code against the claim). Two files with long names are
    downloaded one after the other into the same folder.  Both are given
    the name [rn1.pdf]: the loop looks for [rn1], which the first download
    did not create, so the second download replaces what the first one
    saved. *)
Theorem C4_synthetic_name_overwrites :
  fs after_first !! (deep_folder +:+ "/rn1.pdf") = Some (File "FIRST")
  ∧ fs after_first !! (deep_folder +:+ "/rn1") = None
  ∧ fs after_second !! (deep_folder +:+ "/rn1.pdf") = Some (File "SECOND")
  ∧ List.filter (λ e, match e with EvWrite _ _ => true | _ => false end)
      (trace after_second)
    = [EvWrite (deep_folder +:+ "/rn1.pdf") "FIRST";
       EvWrite (deep_folder +:+ "/rn1.pdf") "SECOND"].
Proof. split_and!; vm_compute; reflexivity. Qed.

(** C5 (the code against the claim). Whenever the media type of the
    response is missing from the table, or mapped to the no-extension
    marker, [downloadFile] raises [NameError] for the name [content_type]
    while building its warning: nothing is saved and no warning is
    printed.  The only events are the request and the line announcing the
    download. *)
Theorem C5_unknown_media_type_raises (E : env) (url dest_folder learn_name : string)
    (w : world) (r : response) (filename media_type : string)
    (encoding : option string) :
  net E url = Some r →
  get_filename E r learn_name w = (Ok filename, w) →
  get_content_type r w = (Ok (media_type, encoding), w) →
  (FILE_EXT_MAP E !! media_type = None ∨ FILE_EXT_MAP E !! media_type = Some None) →
  downloadFile E url dest_folder learn_name w
  = (Raise (NameError "content_type"),
     {| fs := fs w;
        trace := trace w ++ [EvOpen url; EvPrint ("Downloading '" +:+ filename +:+ "'")] |}).
Proof.
  intros Hnet Hfn Hct Htab. unfold downloadFile.
  erewrite bind_ok by (by apply opener_open_ok).
  apply get_filename_world in Hfn as [_ Hfn].
  apply get_content_type_world in Hct as [_ Hct].
  erewrite bind_ok by apply Hfn.
  unfold print. unfold mbind at 1, M_bind at 1, bind at 1, emit. simpl.
  erewrite bind_ok by apply Hct. simpl.
  rewrite <-(assoc_L (++)). simpl.
  destruct Htab as [-> | ->]; done.
Qed.

(** C5, at the response of the spec's scenario: the type
    [application/x-unknown] is not in the table. *)
Lemma C5_unknown_media_type_witness :
  downloadFile unknown_env "http://learn/f" "/dl/Single Files/notes" "notes" empty_world
  = (Raise (NameError "content_type"),
     {| fs := ∅;
        trace := [EvOpen "http://learn/f"; EvPrint "Downloading 'notes'"] |}).
Proof.
  apply (C5_unknown_media_type_raises unknown_env "http://learn/f" "/dl/Single Files/notes"
           "notes" empty_world (resp "application/x-unknown" None "DATA")
           "notes" "application/x-unknown" None).
  - reflexivity.
  - reflexivity.
  - vm_compute. reflexivity.
  - left. vm_compute. reflexivity.
Defined.

(** C6 (as the code has it). Let the folder page hold a form tag written
    as [<form ... action='A' >] with a line break right after it, [action=']
    being the first on its line after [<form], and on the next line a
    field [name='id' value='N'>] with [N] a run of digits, the first field
    of that line with a numeric value; let the pattern fit at no earlier
    place of the page (other forms may stand before it).  Then
    [download_folder] downloads from [A?id=N] into [<target_dest>/<name>].
    The blank before [>] and the single line break are part of the
    pattern. *)
Theorem C6_download_folder (E : env) (url target_dest learn_name : string)
    (w w1 : world) (pre attrs A mid N post : string) :
  (∀ j, j < len pre →
     match_at folder_re
       (pre +:+ FORM +:+ attrs +:+ ACTION +:+ A +:+ CLOSE +:+ mid +:+ IDVAL
        +:+ N +:+ TAGEND +:+ post) j = None) →
  forallb any attrs = true →
  find ACTION (attrs +:+ ACTION) = Some (len attrs) →
  forallb any A = true →
  forallb any mid = true →
  (∀ m1 m2, mid = m1 +:+ m2 → m2 ≠ "" →
     ¬ numeric_id_at (m2 +:+ IDVAL +:+ N +:+ TAGEND +:+ post)) →
  N ≠ "" → forallb digit N = true →
  openWebpage E url
    {| fs := fs w;
       trace := trace w ++ [EvPrint (nl +:+ "Extracting download links for files nested in '"
                                     +:+ target_dest +:+ "' folder")] |}
  = (Ok (pre +:+ FORM +:+ attrs +:+ ACTION +:+ A +:+ CLOSE +:+ mid +:+ IDVAL
         +:+ N +:+ TAGEND +:+ post), w1) →
  download_folder E url target_dest learn_name w
  = downloadFile E (A +:+ "?id=" +:+ N) (target_dest +:+ "/" +:+ learn_name)
      learn_name w1.
Proof.
  intros Hpre Hattrs Hact HA Hmid Hid HN HNd Hpage.
  destruct (folder_form_search pre attrs A mid N post) as (m & Hm & _ & H1 & H2);
    [done..|].
  unfold download_folder, print.
  unfold mbind at 1, M_bind at 1, bind at 1, emit. cbn beta iota.
  erewrite bind_ok by apply Hpage.
  rewrite Hm. cbn [some_or]. unfold mbind at 1, M_bind at 1, bind at 1, ret.
  cbn beta iota. by rewrite H1, H2.
Qed.

(** C6 on a page with a search form before the form of the folder. *)
Lemma C6_download_folder_witness :
  download_folder search_folder_env "http://learn/folder" "dl" "Week 1" empty_world
  = downloadFile search_folder_env "http://learn/dl.php?id=42" "dl/Week 1" "Week 1"
      {| fs := ∅;
         trace := [EvPrint (nl +:+ "Extracting download links for files nested in 'dl' folder");
                   EvOpen "http://learn/folder"] |}.
Proof.
  apply (C6_download_folder search_folder_env "http://learn/folder" "dl" "Week 1"
           empty_world
           {| fs := ∅;
              trace := [EvPrint (nl +:+ "Extracting download links for files nested in 'dl' folder");
                        EvOpen "http://learn/folder"] |}
           ("<html><form method=" +:+ dq +:+ "get" +:+ dq +:+ " action=" +:+ dq
            +:+ "http://learn/search.php" +:+ dq +:+ "><input name=" +:+ dq +:+ "q"
            +:+ dq +:+ "></form>" +:+ nl)
           (" method=" +:+ dq +:+ "post" +:+ dq +:+ " ")
           "http://learn/dl.php"
           ("<input type=" +:+ dq +:+ "hidden" +:+ dq +:+ " ")
           "42" "</form></html>").
  - intros j Hj.
    do 82 (destruct j as [|j]; [vm_compute; reflexivity|]).
    vm_compute in Hj. lia.
  - reflexivity.
  - reflexivity.
  - reflexivity.
  - reflexivity.
  - by apply first_id_field.
  - done.
  - reflexivity.
  - vm_compute. reflexivity.
Defined.

(** C6 as claimed fails: the same form with [>] right after the closing
    quote of the action (no blank) is not found, and the handler raises
    before any download. *)
Lemma C6_whitespace_counterexample :
  download_folder (folder_env (">" +:+ nl)) "http://learn/folder" "dl" "Week 1"
    empty_world
  = (Raise AttributeError,
     {| fs := ∅;
        trace := [EvPrint (nl +:+ "Extracting download links for files nested in 'dl' folder");
                  EvOpen "http://learn/folder"] |}).
Proof. vm_compute. reflexivity. Qed.

(** C7 (as the code has it). For the cell of the scenario the parser yields
    one descriptor, of type [file], with the URL of the link and the name
    [ Syllabus], which keeps one of the two blanks before the word: the
    pattern lets [\s?] take one blank only. *)
Theorem C7_syllabus_descriptor :
  extract_download_info syllabus_page empty_world
  = (Ok [(Some "file", "/mod/resource/view.php?id=5", " Syllabus")], empty_world).
Proof. vm_compute. reflexivity. Qed.

(** C7 as claimed fails: the name is not [Syllabus]. *)
Lemma C7_name_counterexample :
  fst (extract_download_info syllabus_page empty_world)
  ≠ Ok [(Some "file", "/mod/resource/view.php?id=5", "Syllabus")].
Proof. vm_compute. discriminate. Qed.

(** C8. For every text and pair of patterns, [extract_between_res] returns
    the text between the end of the leftmost match of the start pattern
    and the start of the leftmost match of the end pattern that begins at
    or after that end; when the start pattern matches nowhere, or the end
    pattern matches nowhere from the end of the start match on, it returns
    [None].  It is a total function: no input makes it raise. *)
Theorem C8_extract_between_res_spec (text : string) (start_re end_re : regex) :
  match extract_between_res text start_re end_re with
  | Some sub =>
      ∃ m1 m2,
        first_match start_re text 0 m1
        ∧ first_match end_re text (m_end m1) m2
        ∧ sub = slice (m_end m1) (m_start m2) text
        ∧ text = take (m_end m1) text +:+ sub +:+ drop (m_start m2) text
  | None =>
      no_match start_re text 0
      ∨ ∃ m1, first_match start_re text 0 m1 ∧ no_match end_re text (m_end m1)
  end.
Proof.
  unfold extract_between_res.
  destruct (search start_re text 0) as [m1|] eqn:H1.
  - apply search_some in H1 as F1; [|lia].
    assert (m_end m1 ≤ len text) as Hle by (by destruct F1 as (_ & _ & ? & _)).
    destruct (search end_re text (m_end m1)) as [m2|] eqn:H2.
    + apply search_some in H2 as F2; [|done].
      exists m1, m2. split_and!; [done..|].
      apply slice_split. by destruct F2 as (? & _).
    + right. exists m1. split; [done|]. by apply search_none.
  - left. apply search_none; [done|lia].
Qed.

(** C9 (as the code has it). [download_file] first requests the URL for
    its headers.  It goes through the indirection page exactly when the
    media type is [text/html] and the URL lies under
    [https://learn.canterbury.ac.nz/]: it then fetches the page, dumps it
    to [ouput.txt], and downloads from the link of the sentence, raising
    [AttributeError] when the sentence is missing.  In every other case,
    an HTML response from another host included, it downloads from the
    original URL. *)
Theorem C9_download_file (E : env) (url target_dest learn_name : string) (w : world)
    (r : response) (media_type : string) (encoding : option string) :
  net E url = Some r →
  get_content_type r w = (Ok (media_type, encoding), w) →
  download_file E url target_dest learn_name w
  = (if bool_decide (media_type = "text/html") && startswith LEARN url then
       dl_page_text ← openWebpage E url;
       write_file E "ouput.txt" (cp850 E dl_page_text +:+ nl);;
       dl_url_match ← some_or AttributeError (search dl_url_re dl_page_text 0);
       downloadFile E (default "" (mgroup dl_url_match 1))
         (target_dest +:+ "/Single Files/" +:+ learn_name) learn_name
     else
       downloadFile E url (target_dest +:+ "/Single Files/" +:+ learn_name) learn_name)
      {| fs := fs w; trace := trace w ++ [EvOpen url] |}.
Proof.
  intros Hnet Hct. unfold download_file, get_header.
  erewrite bind_ok by (by apply opener_open_ok).
  apply get_content_type_world in Hct as [_ Hct].
  erewrite bind_ok by apply Hct. cbn beta iota.
  unfold extract_pdf_url. rewrite learn_url_match.
  destruct (bool_decide (media_type = "text/html")); [|done].
  destruct (startswith LEARN url); [|done]. cbn [andb].
  rewrite bind_assoc. apply bind_ext. intros page v.
  rewrite bind_assoc. apply bind_ext. intros [] v'.
  rewrite bind_assoc. apply bind_ext. intros m v''. done.
Qed.

(** C9 at an HTML page outside the portal: the download uses the original
    URL. *)
Lemma C9_download_file_witness :
  download_file indirect_env "http://files.example.org/notes" "dl" "notes" empty_world
  = downloadFile indirect_env "http://files.example.org/notes" "dl/Single Files/notes"
      "notes" {| fs := ∅; trace := [EvOpen "http://files.example.org/notes"] |}.
Proof.
  apply (C9_download_file indirect_env "http://files.example.org/notes" "dl" "notes"
           empty_world (resp "text/html; charset=utf-8" None indirect_page)
           "text/html" (Some "utf-8")).
  - reflexivity.
  - vm_compute. reflexivity.
Defined.

(** C9 as claimed fails: the response is [text/html] and the page holds the
    sentence with a link to [real.pdf], yet the link is never requested;
    the HTML page itself is saved. *)
Lemma C9_html_counterexample :
  get_content_type (resp "text/html; charset=utf-8" None indirect_page) empty_world
  = (Ok ("text/html", Some "utf-8"), empty_world)
  ∧ (∃ m, search dl_url_re indirect_page 0 = Some m
          ∧ mgroup m 1 = Some "http://files.example.org/real.pdf")
  ∧ fst (download_file indirect_env "http://files.example.org/notes" "dl" "notes"
           empty_world) = Ok ()
  ∧ trace (snd (download_file indirect_env "http://files.example.org/notes" "dl" "notes"
                  empty_world))
    = [EvOpen "http://files.example.org/notes";
       EvOpen "http://files.example.org/notes";
       EvPrint "Downloading 'notes'";
       EvMkdir "/home/u/dl/Single Files/notes";
       EvWrite "/home/u/dl/Single Files/notes/notes.html" indirect_page].
Proof.
  split; [by vm_compute|]. split; [|split].
  - eexists. split; vm_compute; reflexivity.
  - vm_compute. reflexivity.
  - vm_compute. reflexivity.
Qed.

(** C10 (as the code has it). When the Content-Disposition header holds
    [filename='<base>.<ext>'] (its first [filename='], [<base>] free of
    quotes and line breaks, [<ext>] made of word characters), the resolved
    name is [<base>], percent-decoded and with [&amp;] turned into [&]:
    the name loses its last extension only, so a [<base>] with dots keeps
    them.  Without the header the same decoding is applied to the name the
    portal displays. *)
Theorem C10_get_filename (E : env) (r : response) (learn_name : string) (w : world)
    (pre base ext post : string) :
  find FN (pre +:+ FN) = Some (len pre) →
  free_of (eqc quote) base = true →
  forallb any base = true →
  forallb word ext = true →
  (content_disposition r = Some (pre +:+ FN +:+ base +:+ "." +:+ ext +:+ dq +:+ post) →
   get_filename E r learn_name w = (Ok (sub amp_re "&" (unquote E base)), w))
  ∧ (content_disposition r = None →
     get_filename E r learn_name w = (Ok (sub amp_re "&" (unquote E learn_name)), w)).
Proof.
  intros Hpre Hq Hany Hw. split; intros Hcd; unfold get_filename; rewrite Hcd.
  - rewrite (fn_re_search pre base ext post) by done. reflexivity.
  - reflexivity.
Qed.

(** C10 at the header [attachment; filename='archive.tar.gz']: the name is
    [archive.tar]. *)
Lemma C10_get_filename_witness :
  get_filename unknown_env archive_resp "Lecture notes" empty_world
  = (Ok "archive.tar", empty_world).
Proof.
  apply (C10_get_filename unknown_env archive_resp "Lecture notes" empty_world
           "attachment; " "archive.tar" "gz" "").
  - reflexivity.
  - reflexivity.
  - reflexivity.
  - reflexivity.
  - reflexivity.
Defined.

(** C10 as claimed fails: for the suggested name [archive.tar.gz] the name
    cut at its first dot is [archive], and the code resolves
    [archive.tar]. *)
Lemma C10_first_dot_counterexample :
  before_first_dot "archive.tar.gz" = "archive"
  ∧ get_filename unknown_env archive_resp "Lecture notes" empty_world
    ≠ (Ok (sub amp_re "&" (unquote unknown_env (before_first_dot "archive.tar.gz"))),
       empty_world).
Proof. split; [reflexivity|]. vm_compute. discriminate. Qed.

(** * Further properties of the code *)

(** X1: in a Content-Type header without a line break, [get_encoding]
    returns everything that follows the first [charset=], up to the end of
    the header and whatever it holds, and prints nothing. *)
Theorem X1_get_encoding_charset (pre rest url : string) (w : world) :
  find "charset=" (pre +:+ "charset=") = Some (len pre) →
  forallb any rest = true →
  get_encoding (Some (pre +:+ "charset=" +:+ rest)) url w = (Ok rest, w).
Proof.
  intros Hpre Hany. unfold get_encoding.
  pose proof (findall1_charset pre rest Hpre Hany) as Hf.
  unfold_monad. by rewrite Hf.
Qed.

(** X1 on a header with a parameter after the character set. *)
Lemma X1_get_encoding_charset_witness :
  get_encoding (Some "text/html; charset=utf-8; boundary=x") "http://learn/" empty_world
  = (Ok "utf-8; boundary=x", empty_world).
Proof. by apply (X1_get_encoding_charset "text/html; " "utf-8; boundary=x"). Defined.

(** X2: for a Content-Type header that does not name a character set,
    [get_encoding] falls back to latin-1 and writes two lines to the
    standard error, the header and the address; without any header it
    raises [TypeError]. *)
Theorem X2_get_encoding_default (ct url : string) (w : world) :
  find "charset=" ct = None →
  get_encoding (Some ct) url w
  = (Ok "latin-1",
     {| fs := fs w;
        trace := trace w ++
          [EvWarn ("Error: content_type = '" +:+ ct
                   +:+ "', attempting to decode with latin-1");
           EvWarn url] |})
  ∧ get_encoding None url w = (Raise TypeError, w).
Proof.
  intros H. split; [|done]. unfold get_encoding.
  pose proof (findall1_no_charset ct H) as Hf.
  unfold_monad. rewrite Hf. unfold eprint, emit. simpl.
  by rewrite <- List.app_assoc.
Qed.

(** X2 on a header that names no character set. *)
Lemma X2_get_encoding_default_witness :
  get_encoding (Some "application/pdf") "http://learn/f" empty_world
  = (Ok "latin-1",
     {| fs := ∅;
        trace := [EvWarn "Error: content_type = 'application/pdf', attempting to decode with latin-1";
                  EvWarn "http://learn/f"] |})
  ∧ get_encoding None "http://learn/f" empty_world = (Raise TypeError, empty_world).
Proof. by apply (X2_get_encoding_default "application/pdf" "http://learn/f"). Defined.

(** X3: [get_content_type] never fails on a response that has a
    Content-Type header: the media type it returns is the header up to
    its first semicolon or white-space character (empty when the header
    starts with one), and the world is left as it was.  Without the header
    it raises [TypeError]. *)
Theorem X3_get_content_type_media (r : response) (w : world) :
  match content_type r with
  | Some ct =>
      ∃ encoding,
        get_content_type r w
        = (Ok (span (cnot (cor (eqc ";") space)) ct, encoding), w)
  | None => get_content_type r w = (Raise TypeError, w)
  end.
Proof.
  unfold get_content_type. destruct (content_type r) as [ct|]; [|done].
  destruct (content_re_search ct) as (m & Hm & Hg).
  exists (mgroup m 2). unfold_monad. by rewrite Hm, Hg.
Qed.

(** X4: for a header of the usual shape, a media type followed by
    [; charset=] and a character set, neither holding a semicolon or
    white space, [get_content_type] returns the two parts. *)
Theorem X4_get_content_type_charset (r : response) (media enc : string) (w : world) :
  free_of (cor (eqc ";") space) media = true →
  free_of (cor (eqc ";") space) enc = true →
  find "charset=" enc = None →
  content_type r = Some (media +:+ "; charset=" +:+ enc) →
  get_content_type r w = (Ok (media, Some enc), w).
Proof.
  intros Hmedia Henc Hfind Hct. unfold get_content_type. rewrite Hct.
  assert (search content_re (media +:+ "; charset=" +:+ enc) 0
          = Some {| m_start := 0; m_end := len (media +:+ "; charset=" +:+ enc);
                    m_groups := [(2, enc); (1, media)] |}) as Hs.
  { unfold search. rewrite Nat.min_0_l. simpl drop. rewrite scan_unfold.
    rewrite (charset_header_run media enc) by done.
    by rewrite Nat.sub_0_r. }
  unfold_monad. by rewrite Hs.
Qed.

(** X4 on the header of an HTML page. *)
Lemma X4_get_content_type_charset_witness :
  get_content_type (resp "text/html; charset=utf-8" None "") empty_world
  = (Ok ("text/html", Some "utf-8"), empty_world).
Proof. by apply (X4_get_content_type_charset _ "text/html" "utf-8"). Defined.

(** X5: when the Content-Disposition header holds no dot, so that the
    file it names has no extension, [get_filename] raises
    [AttributeError]; the name given by the portal is not used in its
    place. *)
Theorem X5_get_filename_needs_dot (E : env) (r : response) (learn_name cd : string)
    (w : world) :
  content_disposition r = Some cd →
  contains "." cd = false →
  get_filename E r learn_name w = (Raise AttributeError, w).
Proof.
  intros Hcd Hdot. unfold get_filename. rewrite Hcd.
  destruct (search fn_re cd 0) as [m|] eqn:Hs; [|done].
  apply search_lang in Hs as (pre & v & post & -> & _ & _ & Hl & _).
  apply fn_re_dot in Hl. rewrite !contains_app, Hl in Hdot.
  by rewrite orb_true_r in Hdot.
Qed.

(** X5 on an attachment named README. *)
Lemma X5_get_filename_needs_dot_witness :
  get_filename unknown_env (resp "text/plain" (Some (attachment "README")) "DATA")
    "Read me" empty_world
  = (Raise AttributeError, empty_world).
Proof. by apply (X5_get_filename_needs_dot _ _ _ (attachment "README")). Defined.

(** X6: once the folder page is read, [download_folder] either raises
    [AttributeError] without any further request, or hands [downloadFile]
    an address made of a base without line break, [?id=] and a non-empty
    run of decimal digits, with the folder [target_dest/learn_name]. *)
Theorem X6_download_folder_request (E : env) (url target_dest learn_name page : string)
    (w w1 : world) :
  openWebpage E url
    {| fs := fs w;
       trace := trace w ++ [EvPrint (nl +:+ "Extracting download links for files nested in '"
                                     +:+ target_dest +:+ "' folder")] |}
  = (Ok page, w1) →
  download_folder E url target_dest learn_name w = (Raise AttributeError, w1)
  ∨ ∃ base id,
      forallb any base = true ∧ id ≠ "" ∧ forallb digit id = true
      ∧ download_folder E url target_dest learn_name w
        = downloadFile E (base +:+ "?id=" +:+ id) (target_dest +:+ "/" +:+ learn_name)
            learn_name w1.
Proof.
  intros Hpage.
  assert (download_folder E url target_dest learn_name w
          = (folder_match ← some_or AttributeError (search folder_re page 0);
             downloadFile E
               (default "" (mgroup folder_match 1) +:+ "?id="
                +:+ default "" (mgroup folder_match 2))
               (target_dest +:+ "/" +:+ learn_name) learn_name) w1) as ->.
  { unfold download_folder, print.
    unfold mbind at 1, M_bind at 1, bind at 1, emit. cbn beta iota.
    by erewrite bind_ok by apply Hpage. }
  destruct (search folder_re page 0) as [m|] eqn:Hs; [|by left].
  right. destruct (folder_re_groups page m Hs) as (base & id & H1 & H2 & Hb & Hne & Hd).
  exists base, id. split_and!; [done..|].
  cbn [some_or]. unfold mbind at 1, M_bind at 1, bind at 1, ret.
  cbn beta iota. by rewrite H1, H2.
Qed.

(** X6 on a folder page with the form as the pattern expects it. *)
Lemma X6_download_folder_request_witness :
  download_folder (folder_env (" >" +:+ nl)) "http://learn/folder" "dl" "Week 1"
    empty_world
  = (Raise AttributeError,
     {| fs := ∅;
        trace := [EvPrint (nl +:+ "Extracting download links for files nested in 'dl' folder");
                  EvOpen "http://learn/folder"] |})
  ∨ ∃ base id,
      forallb any base = true ∧ id ≠ "" ∧ forallb digit id = true
      ∧ download_folder (folder_env (" >" +:+ nl)) "http://learn/folder" "dl" "Week 1"
          empty_world
        = downloadFile (folder_env (" >" +:+ nl)) (base +:+ "?id=" +:+ id)
            ("dl" +:+ "/" +:+ "Week 1") "Week 1"
            {| fs := ∅;
               trace := [EvPrint (nl +:+ "Extracting download links for files nested in 'dl' folder");
                         EvOpen "http://learn/folder"] |}.
Proof.
  apply (X6_download_folder_request (folder_env (" >" +:+ nl)) "http://learn/folder"
           "dl" "Week 1" (folder_page (" >" +:+ nl)) empty_world).
  reflexivity.
Defined.

(** X7: whatever the cell, [extract_cell] gives a descriptor whose name
    is not empty and holds no line break, as its address; its type is one
    of the five that [get_type] knows, or [None] after one line that
    reports the unknown type.  The line about a non-file item is never
    printed: the file type read from a cell is absent or not empty.  A
    cell that the pattern does not fit raises [AttributeError]. *)
Theorem X7_extract_cell_descriptor (cell : string) (w : world) :
  match extract_cell cell w with
  | (Ok (type, url, learn_name), w') =>
      learn_name ≠ "" ∧ forallb any learn_name = true ∧ forallb any url = true
      ∧ fs w' = fs w
      ∧ ((type ∈ known_types ∧ trace w' = trace w)
         ∨ (type = None
            ∧ ∃ item_type,
                trace w' = trace w ++
                  [EvPrint ("An item of unknown type '" +:+ item_type
                            +:+ "' was found, this item will be ignored!")]))
  | (Raise e, w') => e = AttributeError ∧ w' = w
  end.
Proof.
  unfold extract_cell.
  destruct (search text_re cell 0) as [m|] eqn:Hs; [|done].
  destruct (text_re_groups cell m Hs)
    as ((url & H1 & Hu) & H2 & (ty & H3) & (name & H4 & Hne & Hn)).
  unfold_monad. rewrite H1, H3, H4. simpl default. unfold get_type.
  rewrite (bool_decide_eq_false_2 (mgroup m 2 = Some "")) by exact H2.
  unfold_monad. unfold known_types, handled.
  repeat (case_bool_decide; [split_and!; [done..|left; split; [set_solver|done]]|]).
  unfold print, emit. simpl. split_and!; [done..|right; split; [done|by exists ty]].
Qed.

(** X8: a page that lacks the opening of the table of resources, or in
    which no table is closed, makes [extract_download_info] raise
    [TypeError] before anything is printed. *)
Theorem X8_extract_download_info_no_table (page : string) (w : world) :
  find TABLE_OPEN page = None ∨ find TABLE_CLOSE page = None →
  extract_download_info page w = (Raise TypeError, w).
Proof.
  intros H. unfold extract_download_info.
  assert (extract_between_res page table_re_s table_re_e = None) as ->; [|done].
  unfold extract_between_res. destruct H as [H|H].
  - unfold table_re_s. fold TABLE_OPEN. by rewrite search_lit_absent.
  - destruct (search table_re_s page 0) as [m|]; [|done].
    unfold table_re_e. cbn [seqs]. fold TABLE_CLOSE.
    by rewrite search_seq_lit_absent.
Qed.

(** X8 on a page without any table. *)
Lemma X8_extract_download_info_no_table_witness :
  extract_download_info "<html><body>Please log in</body></html>" empty_world
  = (Raise TypeError, empty_world).
Proof. apply X8_extract_download_info_no_table. by left. Defined.

(** X9: items for which [download_resource_page] has no handler, those
    of type [material] and those whose type [get_type] did not know, are
    only reported: nothing is requested for them, the file system is left
    as it is, and the procedure returns normally. *)
Theorem X9_unhandled_items_skipped (E : env) (target_dest url page : string)
    (items : list (option string * string * string)) (w w1 w2 : world) :
  openWebpage E url
    {| fs := fs w;
       trace := trace w ++ [EvPrint "Extracting file and folder links from Resource Page"] |}
  = (Ok page, w1) →
  extract_download_info page w1 = (Ok items, w2) →
  Forall (λ it, it.1.1 ∉ handled) items →
  download_resource_page E target_dest url w
  = (Ok (),
     {| fs := fs w2;
        trace := trace w2 ++ ((λ it, EvPrint ("downloading " +:+ it.2)) <$> items) |}).
Proof.
  intros Hpage Hitems Hskip. rewrite download_resource_page_loop.
  unfold print. unfold mbind at 1, M_bind at 1, bind at 1, emit. cbn beta iota.
  erewrite bind_ok by apply Hpage. erewrite bind_ok by apply Hitems.
  by apply for_each_skipped.
Qed.

(** X9 on a course with a reader and a quiz. *)
Lemma X9_unhandled_items_skipped_witness :
  download_resource_page quiet_course "dl" course_url empty_world
  = (Ok (),
     {| fs := ∅;
        trace :=
          [EvPrint "Extracting file and folder links from Resource Page";
           EvOpen course_url;
           EvPrint "An item of unknown type 'Quiz' was found, this item will be ignored!"]
          ++ [EvPrint "downloading Reader"; EvPrint "downloading Test 1"] |}).
Proof.
  apply (X9_unhandled_items_skipped quiet_course "dl" course_url
           (resources [cell "http://learn/book" "icon" "Course Material" "Reader";
                       cell "http://learn/quiz" "icon" "Quiz" "Test 1"])
           [(Some "material", "http://learn/book", "Reader");
            (None, "http://learn/quiz", "Test 1")]
           empty_world
           {| fs := ∅;
              trace := [EvPrint "Extracting file and folder links from Resource Page";
                        EvOpen course_url] |}
           {| fs := ∅;
              trace := [EvPrint "Extracting file and folder links from Resource Page";
                        EvOpen course_url;
                        EvPrint "An item of unknown type 'Quiz' was found, this item will be ignored!"] |}).
  - vm_compute. reflexivity.
  - vm_compute. reflexivity.
  - repeat (apply Forall_cons; split); [| |by apply Forall_nil];
      cbn; unfold handled; intros H;
      repeat (apply elem_of_cons in H as [H|H]; [discriminate H|]);
      by apply elem_of_nil in H.
Defined.

(** X10: the loop of [download_resource_page] has no exception handler:
    when the handler of an item raises, the procedure stops with that
    exception in the world the handler left, and the items after it are
    neither reported nor downloaded. *)
Theorem X10_first_failure_aborts (E : env) (target_dest url page : string)
    (pre post : list (option string * string * string))
    (item : option string * string * string) (w w1 w2 w3 w4 : world) (e : exn) :
  openWebpage E url
    {| fs := fs w;
       trace := trace w ++ [EvPrint "Extracting file and folder links from Resource Page"] |}
  = (Ok page, w1) →
  extract_download_info page w1 = (Ok (pre ++ item :: post), w2) →
  for_each pre (handle_item E target_dest) w2 = (Ok (), w3) →
  handle_item E target_dest item w3 = (Raise e, w4) →
  download_resource_page E target_dest url w = (Raise e, w4).
Proof.
  intros Hpage Hitems Hpre Hitem. rewrite download_resource_page_loop.
  unfold print. unfold mbind at 1, M_bind at 1, bind at 1, emit. cbn beta iota.
  erewrite bind_ok by apply Hpage. erewrite bind_ok by apply Hitems.
  by eapply for_each_raise.
Qed.

(** X10 on a course whose first file has a media type the table lacks. *)
Lemma X10_first_failure_aborts_witness :
  download_resource_page broken_course "dl" course_url empty_world
  = (Raise (NameError "content_type"),
     {| fs := ∅;
        trace :=
          [EvPrint "Extracting file and folder links from Resource Page";
           EvOpen course_url; EvPrint "downloading notes"; EvOpen "http://learn/f";
           EvOpen "http://learn/f"; EvPrint "Downloading 'notes'"] |}).
Proof.
  apply (X10_first_failure_aborts broken_course "dl" course_url
           (resources [cell "http://learn/f" "f/unknown" "File" "notes";
                       cell "http://learn/folder" "icon" "Folder" "Week 1"])
           [] [(Some "folder", "http://learn/folder", "Week 1")]
           (Some "file", "http://learn/f", "notes")
           empty_world
           {| fs := ∅;
              trace := [EvPrint "Extracting file and folder links from Resource Page";
                        EvOpen course_url] |}
           {| fs := ∅;
              trace := [EvPrint "Extracting file and folder links from Resource Page";
                        EvOpen course_url] |}
           {| fs := ∅;
              trace := [EvPrint "Extracting file and folder links from Resource Page";
                        EvOpen course_url] |}).
  - vm_compute. reflexivity.
  - vm_compute. reflexivity.
  - reflexivity.
  - vm_compute. reflexivity.
Defined.

(** X11: without the debug flag, whenever [downloadFile] returns
    normally the body of the response to its request is the content of a
    file, and writing that file is the last thing it did. *)
Theorem X11_download_stores_body (E : env) (url dest_folder learn_name : string)
    (w w' : world) :
  DEBUG E = false →
  downloadFile E url dest_folder learn_name w = (Ok (), w') →
  ∃ r dest,
    net E url = Some r
    ∧ fs w' !! dest = Some (File (body r))
    ∧ last (trace w') = Some (EvWrite dest (body r)).
Proof.
  intros Hd H. unfold downloadFile in H.
  apply bind_ok_inv in H as (r & w1 & Hopen & H).
  assert (net E url = Some r) as Hnet.
  { unfold opener_open, emit in Hopen.
    unfold mbind, M_bind, bind, some_or, ret, raise in Hopen.
    destruct (net E url); [|done]. by injection Hopen as <- _. }
  apply bind_ok_inv in H as (filename & w2 & _ & H).
  apply bind_ok_inv in H as (u3 & w3 & _ & H).
  apply bind_ok_inv in H as ([media_type encoding] & w4 & _ & H).
  apply bind_ok_inv in H as ([ext full_fn] & w5 & _ & H).
  apply bind_ok_inv in H as (t & w6 & _ & H).
  unfold store in H. rewrite Hd in H. simpl negb in H.
  apply bind_ok_inv in H as (ex & w7 & _ & H).
  apply bind_ok_inv in H as (u8 & w8 & _ & H).
  apply bind_ok_inv in H as (u9 & w9 & _ & H).
  apply write_file_inv in H as [(e & He & _)|(_ & Hfs & Htr)]; [done|].
  exists r, (abspath (cwd E) (t_dest t)). split_and!; [done| |].
  - rewrite Hfs. apply lookup_insert_eq.
  - rewrite Htr. apply last_snoc.
Qed.

(** X11 on a PDF file of the portal. *)
Lemma X11_download_stores_body_witness :
  ∃ r dest,
    net live_env notes_pdf = Some r
    ∧ fs (snd (downloadFile live_env notes_pdf "dl" "notes" home_world)) !! dest
      = Some (File (body r))
    ∧ last (trace (snd (downloadFile live_env notes_pdf "dl" "notes" home_world)))
      = Some (EvWrite dest (body r)).
Proof.
  apply (X11_download_stores_body live_env notes_pdf "dl" "notes" home_world);
    [reflexivity|].
  vm_compute. reflexivity.
Defined.

(** X12: under the debug flag [downloadFile] leaves the file system as
    it was, but for the side-car file of the folder, which gets an entry
    when the name was shortened: no directory is created and the response
    is not stored. *)
Theorem X12_debug_touches_sidecar_only (E : env) (url dest_folder learn_name : string) :
  DEBUG E = true →
  sidecar_only E (downloadFile E url dest_folder learn_name).
Proof.
  intros Hd. unfold downloadFile.
  apply sidecar_only_bind_l; [apply keeps_fs_opener_open|intros r].
  apply sidecar_only_bind_l; [apply keeps_fs_get_filename|intros filename].
  apply sidecar_only_bind_l; [frame|intros _].
  apply sidecar_only_bind_l; [apply keeps_fs_get_content_type|intros [media_type encoding]].
  apply sidecar_only_bind_l; [frame|intros [ext full_fn]].
  apply sidecar_only_bind_l; [apply keeps_fs_resolve_target|intros t].
  by apply store_debug.
Qed.

(** X12 on a download whose name is too long. *)
Lemma X12_debug_touches_sidecar_only_witness :
  sidecar_only debug_env (downloadFile debug_env first_pdf deep_folder "first").
Proof. by apply X12_debug_touches_sidecar_only. Defined.

(** X13: the part of [downloadFile] that shortens a path always returns
    and leaves the world as it was, so the loop that looks for a free
    name ends.  When the path is over its ceiling, the counter in the
    synthetic name is the least [i] from 1 on for which [rn<i>] does not
    exist in the folder; otherwise the file name is kept. *)
Theorem X13_least_free_counter (E : env) (folder fn dest : string)
    (ext : option string) (w : world) :
  ∃ t, shorten E folder fn dest ext w = (Ok t, w)
    ∧ let dest1 :=
        if MAX_FOLDER_NAME_LEN <? len folder
        then abspath (cwd E) (take MAX_FOLDER_NAME_LEN folder +:+ "/" +:+ fn)
        else dest in
      if MAX_FILE_NAME_LEN <? len dest1 then
        ∃ i, 1 ≤ i
          ∧ t_full_fn t = synthetic_name i ext
          ∧ exists_in E (fs w) (rn_path (t_dest_folder t) i) = false
          ∧ ∀ k, 1 ≤ k < i → exists_in E (fs w) (rn_path (t_dest_folder t) k) = true
      else t_full_fn t = fn ∧ t_dest t = dest1.
Proof.
  destruct (shorten_inv E folder fn dest ext w) as (t & Hs & _ & _ & H).
  exists t. split; [done|]. cbv zeta in H |- *.
  destruct (MAX_FILE_NAME_LEN <? len _); [|done].
  destruct H as (i & Hi & Hfn & _). exists i.
  apply next_free_some in Hi as (? & ? & ?). done.
Qed.

(** X14: whatever [downloadFile] does to the folder and to the file
    name (characters taken out, folder cut, synthetic name), the
    destination it settles on is the file name joined onto the folder,
    made absolute. *)
Theorem X14_destination_in_folder (E : env) (dest_folder full_fn : string)
    (ext : option string) (w w' : world) (t : target) :
  resolve_target E dest_folder full_fn ext w = (Ok t, w') →
  t_dest t = abspath (cwd E) (t_dest_folder t +:+ "/" +:+ t_full_fn t).
Proof.
  unfold resolve_target. intros H.
  apply bind_ok_inv in H as ([[folder' fn'] dest'] & w1 & Hstrip & H).
  apply strip_names_dest in Hstrip.
  destruct (shorten_inv E folder' fn' dest' ext w1) as (t' & Hs & _ & Hf & Hd).
  rewrite Hs in H. injection H as <- <-. cbv zeta in Hd.
  destruct (MAX_FOLDER_NAME_LEN <? len folder') eqn:Hcut.
  - destruct (MAX_FILE_NAME_LEN <? len _).
    + by destruct Hd as (i & _ & _ & ->).
    + destruct Hd as [-> ->]. by rewrite Hf.
  - destruct (MAX_FILE_NAME_LEN <? len _).
    + by destruct Hd as (i & _ & _ & ->).
    + destruct Hd as [-> ->]. by rewrite Hf.
Qed.

(** X14 on a folder name from which a colon is taken out. *)
Lemma X14_destination_in_folder_witness :
  "/home/u/dl/Week 1 a\b/notes.pdf"
  = abspath "/home/u" ("/home/u/dl/Week 1 a\b" +:+ "/" +:+ "notes.pdf").
Proof.
  apply (X14_destination_in_folder live_env odd_folder "notes.pdf" (Some "pdf")
           home_world
           {| fs := fs home_world;
              trace := strip_warning "dl/Week 1: a\b/notes.pdf" "dl/Week 1 a\b/notes.pdf" |}
           {| t_dest_folder := "/home/u/dl/Week 1 a\b"; t_full_fn := "notes.pdf";
              t_dest := "/home/u/dl/Week 1 a\b/notes.pdf";
              t_orig_path := "/home/u/dl/Week 1 a\b/notes.pdf" |}).
  vm_compute. reflexivity.
Defined.

(** X15: [extract_pdf_url] dumps the page of a portal address into
    [ouput.txt] before it looks for the link: when the page does not
    hold the sentence with the link, [AttributeError] is raised in a
    world in which the dump has been written. *)
Theorem X15_dump_precedes_failure (E : env) (url page : string) (w w1 w2 : world) :
  startswith LEARN url = true →
  openWebpage E url w = (Ok page, w1) →
  find CLICK page = None →
  write_file E "ouput.txt" (cp850 E page +:+ nl) w1 = (Ok (), w2) →
  extract_pdf_url E url w = (Raise AttributeError, w2).
Proof.
  intros Hurl Hpage Hfind Hdump. unfold extract_pdf_url.
  rewrite learn_url_match, Hurl.
  erewrite bind_ok by apply Hpage. erewrite bind_ok by apply Hdump.
  assert (search dl_url_re page 0 = None) as ->; [|done].
  unfold dl_url_re. fold CLICK.
  change (seqs (?a :: ?b :: ?l)) with (Seq a (seqs (b :: l))).
  by apply search_seq_lit_absent.
Qed.

(** X15 on a portal page without the sentence. *)
Lemma X15_dump_precedes_failure_witness :
  extract_pdf_url live_env url_item home_world
  = (Raise AttributeError,
     {| fs := <["/home/u/ouput.txt" := File (url_page +:+ nl)]> (fs home_world);
        trace := [EvOpen url_item; EvWrite "/home/u/ouput.txt" (url_page +:+ nl)] |}).
Proof.
  apply (X15_dump_precedes_failure live_env url_item url_page home_world
           {| fs := fs home_world; trace := [EvOpen url_item] |}).
  - reflexivity.
  - vm_compute. reflexivity.
  - reflexivity.
  - vm_compute. reflexivity.
Defined.

(** X16: whenever [download_url] returns normally, the last thing it
    did was to write a shortcut file of two lines, [[InternetShortcut]]
    and [URL=] followed by an address without line break; if the working
    directory is free of them, the path of that file holds none of the
    characters [: * ? ' < > |], where ['] stands for the double quote. *)
Theorem X16_download_url_shortcut (E : env) (url target_dest learn_name : string)
    (w w' : world) :
  download_url E url target_dest learn_name w = (Ok (), w') →
  ∃ dest target,
    forallb any target = true
    ∧ fs w' !! dest
      = Some (File ("[InternetShortcut]" +:+ nl +:+ "URL=" +:+ target +:+ nl))
    ∧ last (trace w')
      = Some (EvWrite dest ("[InternetShortcut]" +:+ nl +:+ "URL=" +:+ target +:+ nl))
    ∧ (free_of forbidden (cwd E) = true → free_of forbidden dest = true).
Proof.
  intros H. unfold download_url in H.
  apply bind_ok_inv in H as (page & w1 & _ & H).
  apply bind_ok_inv in H as (m & w2 & [Hm _]%some_or_ok & H).
  apply bind_ok_inv in H as (dest & w3 & _ & H).
  apply bind_ok_inv in H as (dest2 & w4 & [Hrel _]%some_or_ok & H).
  apply bind_ok_inv in H as (u5 & w5 & _ & H).
  apply bind_ok_inv in H as (ex & w6 & _ & H).
  apply bind_ok_inv in H as (u7 & w7 & _ & H).
  apply write_file_inv in H as [(e & He & _)|(_ & Hfs & Htr)]; [done|].
  exists (abspath (cwd E) (abspath (cwd E) dest2)), (default "" (mgroup m 2)).
  split_and!.
  - by apply dl_re_target in Hm.
  - rewrite Hfs. apply lookup_insert_eq.
  - rewrite Htr. apply last_snoc.
  - intros Hcwd. do 2 (apply abspath_free; [done..|]).
    eapply (relpath_free forbidden); [done..| |exact Hrel].
    apply abspath_free; [done..|]. apply strip_free.
Qed.

(** X16 on a URL resource. *)
Lemma X16_download_url_shortcut_witness :
  ∃ dest target,
    forallb any target = true
    ∧ fs (snd (download_url live_env url_item "dl" "Course site" home_world)) !! dest
      = Some (File ("[InternetShortcut]" +:+ nl +:+ "URL=" +:+ target +:+ nl))
    ∧ last (trace (snd (download_url live_env url_item "dl" "Course site" home_world)))
      = Some (EvWrite dest ("[InternetShortcut]" +:+ nl +:+ "URL=" +:+ target +:+ nl))
    ∧ (free_of forbidden (cwd live_env) = true → free_of forbidden dest = true).
Proof.
  apply (X16_download_url_shortcut live_env url_item "dl" "Course site" home_world).
  vm_compute. reflexivity.
Defined.

(** X17: every entry of the dictionary that
    [extract_course_codes_and_ids] returns has a course code for its key,
    blocks of four capital letters and three digits joined by hyphens;
    its id is made of decimal digits (it may be empty) and its name holds
    no line break. *)
Theorem X17_course_codes_well_formed (E : env) (w w' : world)
    (courses : gmap string (string * string)) :
  extract_course_codes_and_ids E w = (Ok courses, w') →
  map_Forall (λ code entry,
      course_code code ∧ forallb digit entry.1 = true ∧ forallb any entry.2 = true)
    courses.
Proof.
  unfold extract_course_codes_and_ids. intros H.
  apply bind_ok_inv in H as (page & w1 & _ & H).
  apply bind_ok_inv in H as (menu & w2 & _ & H).
  injection H as <- _.
  apply foldl_add_course_Forall; [apply map_Forall_empty|].
  eapply Forall_impl; [apply findall3_course_re|].
  intros [[id code] name] (? & ? & ?). done.
Qed.

(** X17 on a menu with three entries. *)
Lemma X17_course_codes_well_formed_witness :
  map_Forall (λ code entry,
      course_code code ∧ forallb digit entry.1 = true ∧ forallb any entry.2 = true)
    two_courses.
Proof.
  apply (X17_course_codes_well_formed student empty_world
           {| fs := ∅; trace := [EvOpen front_url] |}).
  vm_compute. reflexivity.
Defined.

(** X18: the dictionary has one entry for each course code found in the
    menu; when a code is found more than once, the id and the name found
    last are the ones kept. *)
Theorem X18_last_entry_wins (E : env) (page menu : string) (w w1 : world) :
  openWebpage E "https://learn.canterbury.ac.nz/" w = (Ok page, w1) →
  extract_between_res page course_list_re_start course_list_re_end = Some menu →
  ∃ courses,
    extract_course_codes_and_ids E w = (Ok courses, w1)
    ∧ ∀ code, courses !! code = last_entry code (findall3 course_re menu).
Proof.
  intros Hpage Hmenu. eexists. split.
  - unfold extract_course_codes_and_ids.
    erewrite bind_ok by apply Hpage. rewrite Hmenu. reflexivity.
  - intros code. rewrite foldl_add_course_lookup.
    by destruct (last_entry code _).
Qed.

(** X18 on a menu in which one code is found twice. *)
Lemma X18_last_entry_wins_witness :
  ∃ courses,
    extract_course_codes_and_ids student empty_world
    = (Ok courses, {| fs := ∅; trace := [EvOpen front_url] |})
    ∧ ∀ code,
        courses !! code
        = last_entry code
            [("101", "ENCE360", "ENCE360"); ("7", "COSC261-ENCE261", "COSC261");
             ("102", "ENCE360", "ENCE360 (new)")].
Proof.
  apply (X18_last_entry_wins student
           (front_page [menu_item "101" "ENCE360-20S2 Operating Systems" "ENCE360";
                        menu_item "7" "COSC261-ENCE261 Foundations" "COSC261";
                        menu_item "102" "ENCE360-20S2 Operating Systems" "ENCE360 (new)"])
           (nl +:+ join nl
              [menu_item "101" "ENCE360-20S2 Operating Systems" "ENCE360";
               menu_item "7" "COSC261-ENCE261 Foundations" "COSC261";
               menu_item "102" "ENCE360-20S2 Operating Systems" "ENCE360 (new)"]
            +:+ nl)
           empty_world).
  - vm_compute. reflexivity.
  - vm_compute. reflexivity.
Defined.

(** X19: on a front page without the menu of courses, as the portal
    serves it to a user who is not logged in, or without the end of a
    list item, [extract_course_codes_and_ids] raises [TypeError] once the
    page is read. *)
Theorem X19_no_menu (E : env) (page : string) (w w1 : world) :
  openWebpage E "https://learn.canterbury.ac.nz/" w = (Ok page, w1) →
  find MENU_OPEN page = None ∨ find ITEM_CLOSE page = None →
  extract_course_codes_and_ids E w = (Raise TypeError, w1).
Proof.
  intros Hpage H. unfold extract_course_codes_and_ids.
  erewrite bind_ok by apply Hpage.
  assert (extract_between_res page course_list_re_start course_list_re_end = None)
    as ->; [|done].
  unfold extract_between_res. destruct H as [H|H].
  - unfold course_list_re_start. fold MENU_OPEN.
    change (seqs (?a :: ?b :: ?l)) with (Seq a (seqs (b :: l))).
    by rewrite search_group_lit_absent.
  - destruct (search course_list_re_start page 0) as [m|]; [|done].
    unfold course_list_re_end. fold ITEM_CLOSE.
    by rewrite search_group_lit_only_absent.
Qed.

(** X19 on a front page without menu. *)
Lemma X19_no_menu_witness :
  extract_course_codes_and_ids
    (mk_env false [(front_url, resp "text/html; charset=utf-8" None
                                 "<html><body>Please log in</body></html>")])
    empty_world
  = (Raise TypeError, {| fs := ∅; trace := [EvOpen front_url] |}).
Proof.
  apply (X19_no_menu _ "<html><body>Please log in</body></html>" empty_world).
  - vm_compute. reflexivity.
  - by left.
Defined.

(** X20: course numbers are counted from 1 in the sorted list of course
    codes, and the courses are taken in the order in which the numbers
    were entered: for numbers between 1 and the number of courses,
    written in decimal and separated by commas, the selection succeeds
    and its k-th element is the course at the place the k-th number
    names. *)
Theorem X20_numbers_select_in_order (courses : gmap string (string * string))
    (ks : list nat) :
  ks ≠ [] →
  Forall (λ k, 1 ≤ k ≤ size courses) ks →
  ∃ sel,
    select_courses courses (join "," (str <$> ks)) = inr sel
    ∧ Forall2 (λ k c, course_at courses (k - 1) = Some c) ks sel.
Proof.
  intros Hne Hks. unfold select_courses.
  rewrite split_join_sep.
  - clear Hne. induction ks as [|k ks IH]; [by exists []|].
    apply Forall_cons in Hks as [Hk Hks].
    destruct (select_course_str courses k Hk) as (c & Hc & Hat).
    destruct (IH Hks) as (sel & Hsel & Hall).
    exists (c :: sel). rewrite fmap_cons. cbn [select_all]. rewrite Hc, Hsel.
    split; [done|]. by constructor.
  - by destruct ks.
  - apply Forall_fmap, Forall_true. intros k. apply digits_no_comma, str_digits.
Qed.

(** X20 on two courses, taken in reverse order. *)
Lemma X20_numbers_select_in_order_witness :
  ∃ sel,
    select_courses two_courses "2,1" = inr sel
    ∧ Forall2 (λ k c, course_at two_courses (k - 1) = Some c) [2; 1] sel.
Proof.
  apply (X20_numbers_select_in_order two_courses [2; 1]); [done|].
  assert (size two_courses = 2) as -> by (vm_compute; reflexivity).
  repeat (apply Forall_cons; split; [lia|]). by apply Forall_nil.
Defined.

(** X21: a course number that reads as zero or as a negative integer is
    not refused: as long as the index it gives is not below minus the
    number of courses, it counts from the end of the list, so that [0]
    selects the last course. *)
Theorem X21_zero_and_negatives_wrap (courses : gmap string (string * string))
    (course_number : string) (n : Z) :
  contains "," course_number = false →
  int course_number = Some n →
  (- Z.of_nat (size courses) ≤ n - 1 < 0)%Z →
  ∃ c, select_courses courses course_number = inr [c]
     ∧ course_at courses (Z.to_nat (n - 1 + Z.of_nat (size courses))) = Some c.
Proof.
  intros Hc Hn Hr. unfold select_courses. rewrite split_plain by done.
  destruct (select_course_index courses course_number n
              (Z.to_nat (n - 1 + Z.of_nat (size courses)))) as (c & Hsel & Hat);
    [done| |lia|].
  - unfold index. rewrite course_list_length.
    rewrite (proj2 (Z.leb_gt 0 (n - 1))) by lia.
    by rewrite (proj2 (Z.leb_le 0 (n - 1 + Z.of_nat (size courses)))) by lia.
  - exists c. simpl. by rewrite Hsel.
Qed.

(** X21 on the number zero. *)
Lemma X21_zero_and_negatives_wrap_witness :
  ∃ c, select_courses two_courses "0" = inr [c]
     ∧ course_at two_courses 1 = Some c.
Proof.
  apply (X21_zero_and_negatives_wrap two_courses "0" 0); [done|done|].
  assert (size two_courses = 2) as -> by (vm_compute; reflexivity). lia.
Defined.
